(** * Quotebank cleaning and enrichment: a shallow embedding

    This development models [src/basic_cleaning_and_filtering.py]: the filter
    loop that discards quotations whose speaker is ['None'], and the three
    enrichment functions [get_min_qid], [map_qids_to_labels] and
    [add_wikidata_column_to_quote].

    Python [str] values are modelled as [string]: a character of the model is
    a code point below 256 (the identifiers and column names of the data set
    are ASCII).  Python [int] is [Z].  Exceptions are values of [py_error],
    and a call that can raise returns a [result].  Lists and dictionaries
    live in a store and are denoted by references, so that updating in place
    and copying can be told apart.

    The file has two parts: the model of the code, with the vocabulary and
    the example data that the statements use; then the properties. *)

From Stdlib Require Import ZArith List Ascii String Sorting.Permutation.
From stdpp Require Import base decidable option numbers list strings pretty
  gmap fin_maps.
Import ListNotations.

Local Open Scope Z_scope.
Local Open Scope string_scope.
Local Open Scope list_scope.

(** ** Exceptions and fallible results *)

(** The exceptions the modelled code can raise.  [Exception_] is the one
    raised by the [raise Exception(...)] statements of the source; all the
    others propagate out of built-in operations. *)
Inductive py_error : Type :=
  | ValueError_int (literal : string) (* int(): invalid literal, base 10 *)
  | ValueError_min                    (* min() arg is an empty sequence  *)
  | ValueError_truth                  (* bool() of an array of 2+ items  *)
  | KeyError                          (* d[key] on a missing key         *)
  | IndexError                        (* index 0 of an empty array       *)
  | TypeError                         (* operand of an unsupported type  *)
  | AttributeError                    (* method missing on the operand   *)
  | JSONDecodeError                   (* json.loads on a malformed text  *)
  | Exception_ (msg : string).        (* raise Exception(msg)            *)

Inductive result (A : Type) : Type :=
  | Ok (a : A)
  | Err (e : py_error).
Arguments Ok {A} a.
Arguments Err {A} e.

(** Errors raised by an explicit [raise] statement of the source, as opposed
    to those escaping from a built-in. *)
Definition raised_explicitly (e : py_error) : bool :=
  match e with Exception_ _ => true | _ => false end.

Definition rbind {A B} (r : result A) (k : A -> result B) : result B :=
  match r with Ok a => k a | Err e => Err e end.

(** ** Python strings and integers *)

Module PyStr.

(** [s.replace(c, '')] for a one-character pattern [c]: every occurrence of
    the character is dropped. *)
Fixpoint remove_char (c : ascii) (s : string) : string :=
  match s with
  | EmptyString => EmptyString
  | String a rest =>
      if Ascii.eqb a c then remove_char c rest
      else String a (remove_char c rest)
  end.

(** The characters [int] skips around a number: tab, line feed, vertical
    tab, form feed, carriage return and the space; above ASCII the next-line
    control 133 and the no-break space 160.  The separators 28 to 31 are not
    among them: [str.strip] removes them, but [int] raises on them. *)
Definition is_space (c : ascii) : bool :=
  let n := N_of_ascii c in
  ((9 <=? n)%N && (n <=? 13)%N) || (n =? 32)%N
  || (n =? 133)%N || (n =? 160)%N.

Fixpoint lstrip (s : string) : string :=
  match s with
  | EmptyString => EmptyString
  | String a rest => if is_space a then lstrip rest else s
  end.

Fixpoint rstrip (s : string) : string :=
  match s with
  | EmptyString => EmptyString
  | String a rest =>
      match rstrip rest with
      | EmptyString => if is_space a then EmptyString
                       else String a EmptyString
      | kept => String a kept
      end
  end.

(** The literal without the white space that [int] skips on both sides. *)
Definition strip (s : string) : string := rstrip (lstrip s).

(** The value of a decimal digit; the digits have the codes 48 to 57. *)
Definition digit_val (c : ascii) : option Z :=
  let n := N_of_ascii c in
  if (48 <=? n)%N && (n <=? 57)%N then Some (Z.of_N (n - 48)) else None.

(** The digits of a decimal literal, most significant first.  A single
    underscore may separate two digits; [after_digit] records that the
    previous character was a digit, which is what an underscore and the end
    of the literal both require. *)
Fixpoint parse_digits (s : string) (acc : Z) (after_digit : bool)
  : option Z :=
  match s with
  | EmptyString => if after_digit then Some acc else None
  | String c rest =>
      match digit_val c with
      | Some d => parse_digits rest (10 * acc + d) true
      | None =>
          if Ascii.eqb c "_" && after_digit
          then parse_digits rest acc false
          else None
      end
  end.

(** [int(s)] in base 10: surrounding white space is skipped, one sign is
    accepted, then come the digits. *)
Definition parse_int (s : string) : option Z :=
  match strip s with
  | EmptyString => None
  | String c rest =>
      if Ascii.eqb c "-" then Z.opp <$> parse_digits rest 0 false
      else if Ascii.eqb c "+" then parse_digits rest 0 false
      else parse_digits (String c rest) 0 false
  end.

Definition int (s : string) : result Z :=
  match parse_int s with
  | Some n => Ok n
  | None => Err (ValueError_int s)
  end.

(** A string made of decimal digits only. *)
Fixpoint all_digits (s : string) : bool :=
  match s with
  | EmptyString => true
  | String c rest =>
      match digit_val c with Some _ => all_digits rest | None => false end
  end.

(** [str(n)], also what an f-string writes for [{n}]. *)
Definition str (n : Z) : string := pretty n.

End PyStr.

(** [min(xs)] on a list of integers. *)
Definition py_min (xs : list Z) : result Z :=
  match xs with
  | [] => Err ValueError_min
  | x :: rest => Ok (fold_left Z.min rest x)
  end.

(** ** Objects, references and the store *)

(** Lists and dictionaries are mutable and shared: a value that denotes one
    is a reference into the store.  The store only grows; a new object gets
    the next free index. *)
Abbreviation loc := nat.

Inductive val : Type :=
  | VNone
  | VBool (b : bool)
  | VInt (n : Z)
  | VStr (s : string)
  | VRef (l : loc).

Inductive obj : Type :=
  | OList (items : list val)
  | ODict (entries : gmap string val).

Abbreviation heap := (list obj).

Global Instance val_eq_dec : EqDecision val.
Proof. solve_decision. Defined.

(** Computations that read and update the store and may raise.  An exception
    does not undo the updates made before it. *)
Definition M (A : Type) : Type := heap -> heap * result A.

Definition ret {A} (a : A) : M A := fun h => (h, Ok a).
Definition raise {A} (e : py_error) : M A := fun h => (h, Err e).
Definition lift {A} (r : result A) : M A := fun h => (h, r).
Definition bind {A B} (c : M A) (k : A -> M B) : M B :=
  fun h => match c h with
           | (h', Ok a) => k a h'
           | (h', Err e) => (h', Err e)
           end.

Global Instance result_bind : MBind result := fun A B k r => rbind r k.
Global Instance M_ret : MRet M := @ret.
Global Instance M_bind : MBind M := fun A B k c => bind c k.

Definition alloc (o : obj) : M loc := fun h => (h ++ [o], Ok (length h)).

(** A reference always denotes a live object in Python; the model reports a
    reference outside the store as a [TypeError]. *)
Definition read (l : loc) : M obj :=
  fun h => match h !! l with
           | Some o => (h, Ok o)
           | None => (h, Err TypeError)
           end.

Definition write (l : loc) (o : obj) : M unit :=
  fun h => (<[l := o]> h, Ok tt).

Fixpoint for_each {A} (xs : list A) (body : A -> M unit) : M unit :=
  match xs with
  | [] => ret tt
  | x :: rest => body x ;; for_each rest body
  end.

(** *** Operations on the object behind a reference *)

(** [x.copy()]: a new object with the same entries (a shallow copy). *)
Definition py_copy (l : loc) : M loc :=
  o ← read l; alloc o.

(** [key in x] for a string [key]. *)
Definition py_contains (key : string) (l : loc) : M bool :=
  o ← read l;
  match o with
  | ODict d => ret (bool_decide (is_Some (d !! key)))
  | OList xs => ret (bool_decide (VStr key ∈ xs))
  end.

(** [x[key] = v] for a string [key]. *)
Definition py_setitem (l : loc) (key : string) (v : val) : M unit :=
  o ← read l;
  match o with
  | ODict d => write l (ODict (<[key := v]> d))
  | OList _ => raise TypeError
  end.

(** [x[key]] for a string [key]. *)
Definition py_getitem (l : loc) (key : string) : M val :=
  o ← read l;
  match o with
  | ODict d =>
      match d !! key with
      | Some v => ret v
      | None => raise KeyError
      end
  | OList _ => raise TypeError
  end.

(** [v.append(x)]. *)
Definition py_append (v : val) (x : val) : M unit :=
  match v with
  | VRef l =>
      o ← read l;
      match o with
      | OList xs => write l (OList (xs ++ [x]))
      | ODict _ => raise AttributeError
      end
  | _ => raise AttributeError
  end.

Definition chars (s : string) : list val :=
  (fun c => VStr (String c EmptyString)) <$> list_ascii_of_string s.

(** The elements a [for] loop or a comprehension draws from [v]: the items of
    a list, the keys of a dictionary, the characters of a string.  (The keys
    come in the order of the model's map; the one consumer below takes a
    minimum.) *)
Definition py_iter (v : val) : M (list val) :=
  match v with
  | VRef l =>
      o ← read l;
      match o with
      | OList xs => ret xs
      | ODict d => ret (VStr <$> (map_to_list d).*1)
      end
  | VStr s => ret (chars s)
  | _ => raise TypeError
  end.

(** *** Dictionaries built locally, in insertion order *)

Module PyDict.
Section dict.
Context {K V : Type} `{EqDecision K}.

(** [d[k] = v]: an existing key keeps its place and takes the new value;
    a new key goes last. *)
Fixpoint set (k : K) (v : V) (d : list (K * V)) : list (K * V) :=
  match d with
  | [] => [(k, v)]
  | (k', v') :: rest =>
      if decide (k' = k) then (k', v) :: rest
      else (k', v') :: set k v rest
  end.

Fixpoint get (k : K) (d : list (K * V)) : option V :=
  match d with
  | [] => None
  | (k', v') :: rest => if decide (k' = k) then Some v' else get k rest
  end.

Definition keys (d : list (K * V)) : list K := d.*1.
End dict.
End PyDict.

(** ** The attribute table *)

(** One cell of the speaker-attributes frame: absent, a string, or an array
    of strings (identifiers or raw values). *)
Inductive cell : Type :=
  | CNone
  | CStr (s : string)
  | CArr (items : list string).

(** The frame is stored by column: a column name maps to the values of that
    column, one per row. *)
Abbreviation DataFrame := (gmap string (list cell)).

Module Frame.

(** [name in df.columns]. *)
Definition has_column (df : DataFrame) (name : string) : bool :=
  bool_decide (is_Some (df !! name)).

(** [df[name]]. *)
Definition column (df : DataFrame) (name : string) : result (list cell) :=
  match df !! name with
  | Some s => Ok s
  | None => Err KeyError
  end.

(** One comparison of [series == q], on a column of objects.  An absent
    cell is unequal to every string, and a string is compared as a string.
    An array is compared item by item, and the entry of the mask is the truth
    value of the array of booleans this gives: that of its one item; an error
    when there are two items or more; false for no item (with a warning in
    the NumPy of the notebook; later versions raise there as well). *)
Definition cell_eq (c : cell) (q : string) : result bool :=
  match c with
  | CNone => Ok false
  | CStr s => Ok (bool_decide (s = q))
  | CArr [] => Ok false
  | CArr [s] => Ok (bool_decide (s = q))
  | CArr (_ :: _ :: _) => Err ValueError_truth
  end.

(** [series == q]: the boolean mask, computed cell by cell; the first cell
    whose comparison raises ends it. *)
Fixpoint eq_mask (series : list cell) (q : string) : result (list bool) :=
  match series with
  | [] => Ok []
  | c :: rest =>
      b ← cell_eq c q;
      mask ← eq_mask rest q;
      Ok (b :: mask)
  end.

(** The entries of a column at the rows the mask selects. *)
Fixpoint select (mask : list bool) (series : list cell) : list cell :=
  match mask, series with
  | b :: mask', c :: series' =>
      if b then c :: select mask' series' else select mask' series'
  | _, _ => []
  end.

(** [df[mask]]: the same columns, restricted to the selected rows. *)
Definition rows (df : DataFrame) (mask : list bool) : DataFrame :=
  select mask <$> df.

(** [series.values[0]]. *)
Definition first_value (series : list cell) : result cell :=
  match series with
  | c :: _ => Ok c
  | [] => Err IndexError
  end.

(** [c.tolist()] on a cell that is not [None]: an array gives the list of
    its items; a plain string has no such method. *)
Definition tolist (c : cell) : result (list string) :=
  match c with
  | CArr items => Ok items
  | _ => Err AttributeError
  end.

End Frame.

(** ** The enrichment functions *)

(** [qids_int = [int(qid.replace('Q', '')) for qid in qids]].  Only a string
    has a [replace] method. *)
Fixpoint qids_int (qids : list val) : result (list Z) :=
  match qids with
  | [] => Ok []
  | qid :: rest =>
      match qid with
      | VStr s =>
          n ← PyStr.int (PyStr.remove_char "Q" s);
          ns ← qids_int rest;
          Ok (n :: ns)
      | _ => Err AttributeError
      end
  end.

(** Returns the QID with the smallest integer part. *)
Definition get_min_qid (qids : list val) : result string :=
  ints ← qids_int qids;
  m ← py_min ints;
  Ok ("Q" +:+ PyStr.str m).

(** The identifier [Q<n>] of the integer [n]. *)
Definition qid_of (n : Z) : string := "Q" +:+ PyStr.str n.

(** The Wikidata client: [wiki_client q] is [Some label] when
    [str(wiki_client.get(q, load=True).label)] evaluates to [label], and
    [None] when the lookup raises an [Exception]. *)
Abbreviation client := (string -> option string).

(** The loop of [map_qids_to_labels], from a given dictionary on. *)
Fixpoint map_qids_to_labels_from (wiki_client : client) (qids : list string)
    (qids_labels_dict : list (string * string)) : list (string * string) :=
  match qids with
  | [] => qids_labels_dict
  | qid :: rest =>
      match wiki_client qid with
      | Some label =>
          map_qids_to_labels_from wiki_client rest
            (PyDict.set qid label qids_labels_dict)
      | None =>
          (* Problem with the QID: skipping *)
          map_qids_to_labels_from wiki_client rest qids_labels_dict
      end
  end.

(** Given a list of QIDs, return a dictionary of format [{QID: label}]. *)
Definition map_qids_to_labels (wiki_client : client) (qids : list string)
  : list (string * string) :=
  map_qids_to_labels_from wiki_client qids [].

Definition double_quote : string := String "034"%char EmptyString.

Definition already_exists_msg (column_name : string) : string :=
  "Provided column name " +:+ double_quote +:+ column_name +:+ double_quote
  +:+ " already exists!".

Definition not_a_column_msg (column_name : string) : string :=
  "Provided column name " +:+ double_quote +:+ column_name +:+ double_quote
  +:+ " does not exist in the "
  +:+ "provided speaker atttributes DataFrame!".

(** [{i: val for i, val in enumerate(labels_list)}]. *)
Definition enumerate_dict (labels_list : list string) : list (nat * string) :=
  fold_left (fun d '(i, v) => PyDict.set i v d)
            (zip (seq 0 (length labels_list)) labels_list) [].

(** [for qid in labels: quote_data[column_name].append(labels[qid])]. *)
Definition assign_labels {K} `{EqDecision K} (quote_data : loc)
    (column_name : string) (labels : list (K * string)) : M unit :=
  for_each (PyDict.keys labels) (fun qid =>
    target ← py_getitem quote_data column_name;
    label ← lift (match PyDict.get qid labels with
                  | Some v => Ok v
                  | None => Err KeyError
                  end);
    py_append target (VStr label)).

(** Takes a dictionary corresponding to a single quote, a column name to add
    to it, and the attributes of all speakers.  Finds the speaker QID, reads
    its attributes, and either takes the raw values of the column
    ([is_qid = false]) or the labels of the QIDs found there
    ([is_qid = true]).  [wiki_client] is the global client that
    [map_qids_to_labels] uses by default. *)
Definition add_wikidata_column_to_quote (wiki_client : client)
    (quote_data_original : loc) (column_name : string)
    (speakers_attributes : DataFrame)
    (inplace ignore_existing is_qid : bool) : M loc :=
  quote_data ← (if inplace then mret quote_data_original
                else py_copy quote_data_original);
  (* not OK with overwriting an existing column: raise an exception *)
  (if negb ignore_existing then
     present ← py_contains column_name quote_data;
     if (present : bool)
     then raise (Exception_ (already_exists_msg column_name))
     else mret tt
   else mret tt);;
  (* the column name does not exist in the speaker attributes *)
  (if negb (Frame.has_column speakers_attributes column_name)
   then raise (Exception_ (not_a_column_msg column_name))
   else mret tt);;
  new_list ← alloc (OList []);
  py_setitem quote_data column_name (VRef new_list);;
  (* the speaker QID and the corresponding speaker attributes *)
  qids_value ← py_getitem quote_data "qids";
  qids ← py_iter qids_value;
  speaker_qid ← lift (get_min_qid qids);
  ids ← lift (Frame.column speakers_attributes "id");
  mask ← lift (Frame.eq_mask ids speaker_qid);
  let curr_speaker_attributes := Frame.rows speakers_attributes mask in
  series ← lift (Frame.column curr_speaker_attributes column_name);
  value ← lift (Frame.first_value series);
  (* [value] is [curr_speaker_attributes[column_name].values[0]], which the
     source evaluates once for the check and once more for [tolist] *)
  match value with
  | CNone => mret quote_data                                (* None check *)
  | _ =>
      (if is_qid then
         items ← lift (Frame.tolist value);
         assign_labels quote_data column_name
           (map_qids_to_labels wiki_client items)
       else
         labels_list ← lift (Frame.tolist value);
         assign_labels quote_data column_name
           (enumerate_dict labels_list));;
      mret quote_data
  end.

(** *** The two halves of [add_wikidata_column_to_quote]

    The proofs below follow the function in two steps: [enrich_prepare] is
    its text up to [quote_data[column_name] = []], [enrich_fill] the rest;
    [add_wikidata_column_to_quote_split] shows that the function is the
    first followed by the second. *)
Definition enrich_prepare (quote_data_original : loc) (column_name : string)
    (speakers_attributes : DataFrame) (inplace ignore_existing : bool)
  : M loc :=
  quote_data ← (if inplace then mret quote_data_original
                else py_copy quote_data_original);
  (if negb ignore_existing then
     present ← py_contains column_name quote_data;
     if (present : bool)
     then raise (Exception_ (already_exists_msg column_name))
     else mret tt
   else mret tt);;
  (if negb (Frame.has_column speakers_attributes column_name)
   then raise (Exception_ (not_a_column_msg column_name))
   else mret tt);;
  new_list ← alloc (OList []);
  py_setitem quote_data column_name (VRef new_list);;
  mret quote_data.

Definition enrich_fill (wiki_client : client) (quote_data : loc)
    (column_name : string) (speakers_attributes : DataFrame) (is_qid : bool)
  : M loc :=
  qids_value ← py_getitem quote_data "qids";
  qids ← py_iter qids_value;
  speaker_qid ← lift (get_min_qid qids);
  ids ← lift (Frame.column speakers_attributes "id");
  mask ← lift (Frame.eq_mask ids speaker_qid);
  let curr_speaker_attributes := Frame.rows speakers_attributes mask in
  series ← lift (Frame.column curr_speaker_attributes column_name);
  value ← lift (Frame.first_value series);
  match value with
  | CNone => mret quote_data
  | _ =>
      (if is_qid then
         items ← lift (Frame.tolist value);
         assign_labels quote_data column_name
           (map_qids_to_labels wiki_client items)
       else
         labels_list ← lift (Frame.tolist value);
         assign_labels quote_data column_name
           (enumerate_dict labels_list));;
      mret quote_data
  end.

(** ** The filter stage *)

#[local] Set Warnings "-register-all".

(** A parsed JSON text.  Objects keep their members in order.  (The records
    of the corpus carry strings, integers and arrays; floating-point numbers
    are left out of the model.) *)
Inductive json : Type :=
  | JNull
  | JBool (b : bool)
  | JInt (n : Z)
  | JStr (s : string)
  | JList (items : list json)
  | JObject (members : list (string * json)).

(** [instance[key]] for a string [key]: only an object can be indexed by a
    string. *)
Definition json_getitem (instance : json) (key : string) : result json :=
  match instance with
  | JObject members =>
      match PyDict.get key members with
      | Some v => Ok v
      | None => Err KeyError
      end
  | _ => Err TypeError
  end.

(** [v == s] for a string [s]. *)
Definition json_eq_str (v : json) (s : string) : bool :=
  match v with
  | JStr s' => bool_decide (s' = s)
  | _ => false
  end.

Definition newline : string := String "010"%char EmptyString.

Section filter_stage.
(** [json.loads] and [json.dumps] of the standard library.  The text that
    [json.dumps] writes is ASCII, so encoding it as UTF-8 keeps it as it
    is; a file is the list of its lines. *)
Variable json_loads : string -> result json.
Variable json_dumps : json -> string.

(** The loop over the lines of [s_file]; [d_file] holds the lines
    written so far.  A line that fails to parse, or a record with no
    speaker, stops the loop with what was written until then. *)
Fixpoint filter_loop (s_file : list string) (d_file : list string)
  : list string * result unit :=
  match s_file with
  | [] => (d_file, Ok tt)
  | line :: rest =>
      match json_loads line with
      | Err e => (d_file, Err e)
      | Ok instance =>
          match json_getitem instance "speaker" with
          | Err e => (d_file, Err e)
          | Ok speaker =>
              if json_eq_str speaker "None"
              then filter_loop rest d_file            (* continue *)
              else filter_loop rest
                     (d_file ++ [json_dumps instance +:+ newline])
          end
      end
  end.

(** The stage on one file: the output file starts empty. *)
Definition filter_file (s_file : list string)
  : list string * result unit :=
  filter_loop s_file [].

(** A line that parses to a record with a speaker. *)
Definition record_line (line : string) (members : list (string * json))
  : Prop :=
  json_loads line = Ok (JObject members) /\
  is_Some (PyDict.get "speaker" members).

(** The line the loop writes for a record. *)
Definition written (members : list (string * json)) : string :=
  json_dumps (JObject members) +:+ newline.
End filter_stage.

(** *** What the function computes, as a value

    The labels that end up in the new column, as a function of the
    identifiers read from the record: the text of [enrich_fill] without the
    store. *)
Definition enrich_labels (wiki_client : client) (qids : result (list val))
    (column_name : string) (speakers_attributes : DataFrame) (is_qid : bool)
  : result (list string) :=
  qids ← qids;
  speaker_qid ← get_min_qid qids;
  ids ← Frame.column speakers_attributes "id";
  mask ← Frame.eq_mask ids speaker_qid;
  series ← Frame.column (Frame.rows speakers_attributes mask) column_name;
  value ← Frame.first_value series;
  match value with
  | CNone => Ok []
  | _ =>
      items ← Frame.tolist value;
      Ok (if is_qid then (map_qids_to_labels wiki_client items).*2
          else items)
  end.

(** The iteration over [quote_data['qids']], which only reads the store. *)
Definition read_qids (h : heap) (quote_data : loc) : result (list val) :=
  ((py_getitem quote_data "qids" ≫= py_iter) h).2.

(** The store and the record reference after the first half of the function,
    on a record [d] found at [r]: the record to update (the record itself or
    its copy) has the new, empty list in the column. *)
Definition prepared (h : heap) (r : loc) (d : gmap string val)
    (column_name : string) (inplace : bool) : heap * loc :=
  if inplace
  then (<[r := ODict (<[column_name := VRef (length h)]> d)]>
          (h ++ [OList []]), r)
  else (h ++ [ODict (<[column_name := VRef (S (length h))]> d); OList []],
        length h).

(** Where the new list of the column lives. *)
Definition new_list_loc (h : heap) (inplace : bool) : loc :=
  if inplace then length h else S (length h).

(** *** Records and table rows, as the properties speak of them *)

(** The store holds at [r] the record [d], whose field [qids] is a list of
    the identifier strings [qids]. *)
Definition quote_at (h : heap) (r : loc) (d : gmap string val)
    (qids : list string) : Prop :=
  h !! r = Some (ODict d) /\
  exists lq, d !! "qids" = Some (VRef lq) /\
             h !! lq = Some (OList (VStr <$> qids)).

(** An identifier cell that the comparison with [q] finds equal: the string
    [q], or an array whose one item is [q]. *)
Definition id_equal (key : cell) (q : string) : Prop :=
  key = CStr q \/ key = CArr [q].

(** An identifier cell that the comparison with [q] finds unequal: an absent
    cell, another string, or an array whose one item is another string.  (An
    array of two items or more makes the comparison raise; an array without
    items is left out as well, since what it gives depends on the version of
    NumPy.) *)
Definition id_unequal (key : cell) (q : string) : Prop :=
  match key with
  | CNone => True
  | CStr s => s <> q
  | CArr [s] => s <> q
  | CArr _ => False
  end.

(** The row of the table for the identifier [q] holds [c] in the column
    [column_name]: every cell of the identifier column can be compared with
    [q], and the first row whose identifier equals [q] has [c] in that
    column. *)
Definition row_value (speakers_attributes : DataFrame) (q : string)
    (column_name : string) (c : cell) : Prop :=
  exists (ids series : list cell) (i : nat) (key : cell),
    speakers_attributes !! "id" = Some ids /\
    speakers_attributes !! column_name = Some series /\
    (forall j k, ids !! j = Some k -> id_equal k q \/ id_unequal k q) /\
    ids !! i = Some key /\ id_equal key q /\
    (forall j k, (j < i)%nat -> ids !! j = Some k -> id_unequal k q) /\
    series !! i = Some c.

(** *** The contents of a value, to a given depth

    What a value holds, with every reference replaced by the contents of the
    object it denotes, down to [depth] references deep ([TCut] below that).
    Two values with the same contents at every depth are what Python's [==]
    cannot tell apart. *)
Inductive tree : Type :=
  | TNone
  | TBool (b : bool)
  | TInt (n : Z)
  | TStr (s : string)
  | TList (items : list tree)
  | TDict (entries : gmap string tree)
  | TCut.

Fixpoint snapshot (depth : nat) (h : heap) (v : val) : tree :=
  match v with
  | VNone => TNone
  | VBool b => TBool b
  | VInt n => TInt n
  | VStr s => TStr s
  | VRef l =>
      match depth with
      | O => TCut
      | S depth' =>
          match h !! l with
          | Some (OList xs) => TList (snapshot depth' h <$> xs)
          | Some (ODict d) => TDict (snapshot depth' h <$> d)
          | None => TCut
          end
      end
  end.

(** A store is closed when every reference held by one of its objects
    denotes an object of the store, as is the case of every Python store. *)
Definition val_closed (n : nat) (v : val) : Prop :=
  match v with VRef l => (l < n)%nat | _ => True end.

Definition obj_closed (n : nat) (o : obj) : Prop :=
  match o with
  | OList xs => forall v, v ∈ xs -> val_closed n v
  | ODict d => forall k v, d !! k = Some v -> val_closed n v
  end.

Definition heap_closed (h : heap) : Prop :=
  forall l o, h !! l = Some o -> obj_closed (length h) o.

(** *** A small corpus for the examples

    Two speakers in the table; one quotation whose speaker name resolves to
    both identifiers, stored as a record at reference 1 with its list of
    identifiers at reference 0. *)
Definition example_client : client :=
  fun q => if String.eqb q "Q6581097" then Some "male"
           else if String.eqb q "Q6581072" then Some "female"
           else None.

Definition example_table : DataFrame :=
  {[ "id" := [CStr "Q42"; CStr "Q5"];
     "gender" := [CArr ["Q6581072"]; CArr ["Q6581097"]];
     "date_of_birth" := [CArr ["+1952-03-11T00:00:00Z"]; CNone] ]}.

(** The same table without the row of "Q5". *)
Definition example_table_no_Q5 : DataFrame :=
  {[ "id" := [CStr "Q42"]; "gender" := [CArr ["Q6581072"]] ]}.

(** A table whose one identifier cell is an array holding "Q5": the
    comparison selects its row. *)
Definition example_table_array_id : DataFrame :=
  {[ "id" := [CArr ["Q5"]]; "gender" := [CArr ["Q6581097"]] ]}.

Definition example_record : gmap string val :=
  {[ "speaker" := VStr "Douglas Adams"; "qids" := VRef 0%nat ]}.

Definition example_store : heap :=
  [OList [VStr "Q42"; VStr "Q5"]; ODict example_record].

(** The example record enriched once with the column [gender], as a copy. *)
Definition example_enriched : heap * result loc :=
  add_wikidata_column_to_quote example_client 1 "gender" example_table
    false true true example_store.

(** *** The JSON codec of the examples

    [json.dumps] and [json.loads] are library functions and the filter loop
    above takes them as parameters.  [Json.dumps] and [Json.loads] are the
    instance used in the examples: the default output format of
    [json.dumps] (members separated by a comma and a space, a colon and a
    space after a key, every character outside the printable ASCII range
    escaped), and a reader of JSON texts over the values of [json]. *)
Module Json.

Definition quote : ascii := "034"%char.
Definition backslash : ascii := "092"%char.

Definition hex_digit (n : N) : ascii :=
  if (n <? 10)%N then ascii_of_N (48 + n) else ascii_of_N (87 + n).

(** One character of a string, as [json.dumps] writes it. *)
Definition escape_char (c : ascii) : string :=
  let n := N_of_ascii c in
  if Ascii.eqb c quote then String backslash (String quote EmptyString)
  else if Ascii.eqb c backslash
  then String backslash (String backslash EmptyString)
  else if (n =? 10)%N then String backslash "n"
  else if (n =? 13)%N then String backslash "r"
  else if (n =? 9)%N then String backslash "t"
  else if (n =? 8)%N then String backslash "b"
  else if (n =? 12)%N then String backslash "f"
  else if (32 <=? n)%N && (n <=? 126)%N then String c EmptyString
  else String backslash
         (String "u" (String "0" (String "0"
            (String (hex_digit (n / 16)) (String (hex_digit (n mod 16))
               EmptyString))))).

Fixpoint escape (s : string) : string :=
  match s with
  | EmptyString => EmptyString
  | String c rest => escape_char c +:+ escape rest
  end.

Definition dumps_string (s : string) : string :=
  String quote (escape s +:+ String quote EmptyString).

Fixpoint dumps (v : json) : string :=
  match v with
  | JNull => "null"
  | JBool true => "true"
  | JBool false => "false"
  | JInt n => PyStr.str n
  | JStr s => dumps_string s
  | JList items =>
      "[" +:+ (fix go (l : list json) : string :=
                 match l with
                 | [] => EmptyString
                 | [x] => dumps x
                 | x :: rest => dumps x +:+ ", " +:+ go rest
                 end) items +:+ "]"
  | JObject members =>
      "{" +:+ (fix go (l : list (string * json)) : string :=
                 match l with
                 | [] => EmptyString
                 | [(k, x)] => dumps_string k +:+ ": " +:+ dumps x
                 | (k, x) :: rest =>
                     dumps_string k +:+ ": " +:+ dumps x +:+ ", " +:+ go rest
                 end) members +:+ "}"
  end.

(** White space between the tokens of a JSON text. *)
Fixpoint skip_ws (s : string) : string :=
  match s with
  | String c rest =>
      let n := N_of_ascii c in
      if (n =? 32)%N || (n =? 9)%N || (n =? 10)%N || (n =? 13)%N
      then skip_ws rest else s
  | EmptyString => EmptyString
  end.

Definition hex_val (c : ascii) : option N :=
  let n := N_of_ascii c in
  if (48 <=? n)%N && (n <=? 57)%N then Some (n - 48)%N
  else if (97 <=? n)%N && (n <=? 102)%N then Some (n - 87)%N
  else if (65 <=? n)%N && (n <=? 70)%N then Some (n - 55)%N
  else None.

(** The characters of a string literal after its opening quote, and the
    text that follows its closing quote.  (Of the escapes [\uXXXX] only
    those below 256 fit the characters of the model.) *)
Fixpoint loads_string (s : string) : option (string * string) :=
  match s with
  | EmptyString => None
  | String c rest =>
      if Ascii.eqb c quote then Some (EmptyString, rest)
      else if Ascii.eqb c backslash then
        match rest with
        | String "u" (String a (String b (String x (String y rest')))) =>
            match hex_val a, hex_val b, hex_val x, hex_val y with
            | Some 0%N, Some 0%N, Some hi, Some lo =>
                '(body, after) ← loads_string rest';
                Some (String (ascii_of_N (16 * hi + lo)) body, after)
            | _, _, _, _ => None
            end
        | String e rest' =>
            ch ← (if Ascii.eqb e "n" then Some "010"%char
                  else if Ascii.eqb e "r" then Some "013"%char
                  else if Ascii.eqb e "t" then Some "009"%char
                  else if Ascii.eqb e "b" then Some "008"%char
                  else if Ascii.eqb e "f" then Some "012"%char
                  else if Ascii.eqb e "/" then Some "/"%char
                  else if Ascii.eqb e quote then Some quote
                  else if Ascii.eqb e backslash then Some backslash
                  else None);
            '(body, after) ← loads_string rest';
            Some (String ch body, after)
        | EmptyString => None
        end
      else if (N_of_ascii c <? 32)%N then None
      else '(body, after) ← loads_string rest;
           Some (String c body, after)
  end.

(** The digits at the front of a text, and what follows them. *)
Fixpoint loads_digits (s : string) (acc : Z) : Z * string :=
  match s with
  | String c rest =>
      match PyStr.digit_val c with
      | Some d => loads_digits rest (10 * acc + d)%Z
      | None => (acc, s)
      end
  | EmptyString => (acc, s)
  end.

(** A JSON integer: one digit, or several that do not start with 0. *)
Definition loads_number (s : string) : option (Z * string) :=
  match s with
  | String "0" rest =>
      match rest with
      | String c _ =>
          if bool_decide (is_Some (PyStr.digit_val c)) then None
          else Some (0%Z, rest)
      | EmptyString => Some (0%Z, rest)
      end
  | String c _ =>
      if bool_decide (is_Some (PyStr.digit_val c))
      then Some (loads_digits s 0%Z) else None
  | EmptyString => None
  end.

Fixpoint loads_value (fuel : nat) (s : string) : option (json * string) :=
  match fuel with
  | O => None
  | S fuel' =>
      match skip_ws s with
      | String "n" (String "u" (String "l" (String "l" rest))) =>
          Some (JNull, rest)
      | String "t" (String "r" (String "u" (String "e" rest))) =>
          Some (JBool true, rest)
      | String "f" (String "a" (String "l" (String "s" (String "e" rest)))) =>
          Some (JBool false, rest)
      | String "[" rest =>
          match skip_ws rest with
          | String "]" rest' => Some (JList [], rest')
          | _ => loads_items fuel' rest []
          end
      | String "{" rest =>
          match skip_ws rest with
          | String "}" rest' => Some (JObject [], rest')
          | _ => loads_members fuel' rest []
          end
      | String "-" rest =>
          '(n, rest') ← loads_number rest; Some (JInt (- n)%Z, rest')
      | String c rest =>
          if Ascii.eqb c quote then
            '(body, rest') ← loads_string rest; Some (JStr body, rest')
          else '(n, rest') ← loads_number (String c rest);
               Some (JInt n, rest')
      | EmptyString => None
      end
  end
with loads_items (fuel : nat) (s : string) (acc : list json)
  : option (json * string) :=
  match fuel with
  | O => None
  | S fuel' =>
      '(v, rest) ← loads_value fuel' s;
      match skip_ws rest with
      | String "," rest' => loads_items fuel' rest' (acc ++ [v])
      | String "]" rest' => Some (JList (acc ++ [v]), rest')
      | _ => None
      end
  end
with loads_members (fuel : nat) (s : string) (acc : list (string * json))
  : option (json * string) :=
  match fuel with
  | O => None
  | S fuel' =>
      match skip_ws s with
      | String c rest =>
          if Ascii.eqb c quote then
            '(key, rest1) ← loads_string rest;
            match skip_ws rest1 with
            | String ":" rest2 =>
                '(v, rest3) ← loads_value fuel' rest2;
                match skip_ws rest3 with
                | String "," rest' =>
                    loads_members fuel' rest' (PyDict.set key v acc)
                | String "}" rest' =>
                    Some (JObject (PyDict.set key v acc), rest')
                | _ => None
                end
            | _ => None
            end
          else None
      | EmptyString => None
      end
  end.

(** A whole text holds one value, with white space around it at most. *)
Definition loads (s : string) : result json :=
  match loads_value (2 * String.length s + 2)%nat s with
  | Some (v, rest) =>
      match skip_ws rest with
      | EmptyString => Ok v
      | _ => Err JSONDecodeError
      end
  | None => Err JSONDecodeError
  end.

End Json.

(** Two lines of the corpus: the first has an unresolved speaker. *)
Definition example_unresolved : list (string * json) :=
  [("quoteID", JStr "2019-01-01-000001"); ("speaker", JStr "None");
   ("qids", JList []); ("numOccurrences", JInt 1%Z)].

Definition example_resolved : list (string * json) :=
  [("quoteID", JStr "2019-01-01-000002"); ("speaker", JStr "Douglas Adams");
   ("qids", JList [JStr "Q42"; JStr "Q5"]); ("numOccurrences", JInt 3%Z)].

Definition example_lines : list string :=
  [Json.dumps (JObject example_unresolved) +:+ newline;
   Json.dumps (JObject example_resolved) +:+ newline].

(** A record has a resolved speaker unless its field [speaker] is the
    string ['None']. *)
Definition speaker_resolved (members : list (string * json)) : bool :=
  match PyDict.get "speaker" members with
  | Some (JStr s) => negb (String.eqb s "None")
  | _ => true
  end.

(** *** More vocabulary for the properties

    The integer that [get_min_qid] reads in one identifier: the text with
    every [Q] removed, parsed by [int]. *)
Definition qid_int (s : string) : option Z :=
  PyStr.parse_int (PyStr.remove_char "Q" s).



(** The elements of a list in the order of their first occurrence, each
    once. *)
Fixpoint first_occurrences (l : list string) : list string :=
  match l with
  | [] => []
  | q :: rest =>
      q :: List.filter (fun x => negb (String.eqb x q))
             (first_occurrences rest)
  end.

(** ** The loop over the years

    The files of the drive: a path maps to the lines of the file it names.
    (Only files are modelled; the two directories exist.)  Reading and
    writing through [bz2] is the identity on the lines. *)
Abbreviation files := (gmap string (list string)).

(** What can end the loop over the years: the input of a year is missing,
    or the loop over its lines raises. *)
Inductive stage_error : Type :=
  | FileNotFoundError (path : string)
  | LineError (e : py_error).

(** [range(a, b)]. *)
Definition py_range (a b : Z) : list Z :=
  (fun i => (a + Z.of_nat i)%Z) <$> seq 0 (Z.to_nat (b - a)).

Definition path_to_file (year : Z) : string :=
  "/content/drive/MyDrive/Quotebank/quotes-" +:+ PyStr.str year
  +:+ ".json.bz2".

Definition path_to_out (year : Z) : string :=
  "/content/drive/MyDrive/Quotebank_limunADA/quotes-no-nones-"
  +:+ PyStr.str year +:+ ".json.bz2".

Definition exists_msg (year : Z) : string :=
  newline +:+ "File for year " +:+ PyStr.str year
  +:+ " already exists. Moving on...".

Definition extracting_msg (year : Z) : string :=
  newline +:+ "Extracting non-None quotations for year " +:+ PyStr.str year.

Section filter_years.
Variable json_loads : string -> result json.
Variable json_dumps : json -> string.

(** One turn of the loop: the files and the messages printed so far, then
    the files, the messages and the error, if any, after the turn.  The input
    is opened first, so a missing input leaves no output file; the output is
    then created, and it holds what was written when an error ends the
    turn. *)
Definition filter_year (year : Z) (fs : files) (printed : list string)
  : files * list string * option stage_error :=
  if bool_decide (is_Some (fs !! path_to_out year))
  then (fs, printed ++ [exists_msg year], None)                (* continue *)
  else
    match fs !! path_to_file year with
    | None =>
        (fs, printed ++ [extracting_msg year],
         Some (FileNotFoundError (path_to_file year)))
    | Some s_file =>
        let '(d_file, res) := filter_file json_loads json_dumps s_file in
        (<[path_to_out year := d_file]> fs,
         printed ++ [extracting_msg year],
         match res with Ok _ => None | Err e => Some (LineError e) end)
    end.

Fixpoint filter_years (years : list Z) (fs : files) (printed : list string)
  : files * list string * option stage_error :=
  match years with
  | [] => (fs, printed, None)
  | year :: rest =>
      match filter_year year fs printed with
      | (fs', printed', None) => filter_years rest fs' printed'
      | (fs', printed', Some e) => (fs', printed', Some e)
      end
  end.

(** [for year in range(2015, 2021): ...]. *)
Definition filter_quotebank (fs : files) (printed : list string)
  : files * list string * option stage_error :=
  filter_years (py_range 2015 2021) fs printed.
End filter_years.

(** A drive with the inputs of the six years, each the two example lines. *)
Definition example_drive : files :=
  list_to_map ((fun y => (path_to_file y, example_lines))
                 <$> py_range 2015 2021).

(** The same drive with a line that is no JSON text at the end of the input
    of 2016. *)
Definition example_drive_bad : files :=
  <[path_to_file 2016 := example_lines ++ ["{not json"]]> example_drive.

(** ** The example of enriching the data *)

Definition QID_COLUMNS_TO_ADD : list string :=
  ["nationality"; "party"; "ethnic_group"; "academic_degree"; "gender"].

Definition NON_QID_COLUMNS_TO_ADD : list string := ["date_of_birth"].

(** Number of instances to process in the example. *)
Definition SAMPLES_TO_PROCESS : nat := 10.

(** The two inner loops of the example, on one instance: the columns that
    need the Wikidata client, then those that do not; every call updates the
    instance in place, with the default [ignore_existing=True], and its
    result is not used. *)
Definition add_columns (wiki_client : client) (instance : loc)
    (speakers_attributes : DataFrame) : M unit :=
  for_each QID_COLUMNS_TO_ADD (fun column_to_add =>
    add_wikidata_column_to_quote wiki_client instance column_to_add
      speakers_attributes true true true;;
    mret tt);;
  for_each NON_QID_COLUMNS_TO_ADD (fun column_to_add =>
    add_wikidata_column_to_quote wiki_client instance column_to_add
      speakers_attributes true true false;;
    mret tt).

(** The labels a cell of the table gives: nothing for an absent cell, the
    raw items or the labels of the distinct resolved identifiers for an
    array. *)
Definition cell_labels (wiki_client : client) (is_qid : bool) (c : cell)
  : list string :=
  match c with
  | CArr items =>
      if is_qid then omap wiki_client (first_occurrences items) else items
  | _ => []
  end.

(** In the store [h] the record [d] has the column bound to a list of
    these strings. *)
Definition column_holds (h : heap) (d : gmap string val)
    (column_name : string) (labels : list string) : Prop :=
  exists nl, d !! column_name = Some (VRef nl) /\
             h !! nl = Some (OList (VStr <$> labels)).

(** A table with the six columns of the example, for two speakers. *)
Definition example_full_table : DataFrame :=
  {[ "id" := [CStr "Q42"; CStr "Q5"];
     "nationality" := [CArr ["Q145"]; CNone];
     "party" := [CNone; CNone];
     "ethnic_group" := [CNone; CNone];
     "academic_degree" := [CNone; CNone];
     "gender" := [CArr ["Q6581072"]; CArr ["Q6581097"]];
     "date_of_birth" := [CArr ["+1952-03-11T00:00:00Z"]; CNone] ]}.

(** *** The loop over the samples

    [json.loads] is a parameter, as in the filter stage, and so is [str] on
    the values of the store.  The running data frame is the list of its
    rows, one dictionary of texts for each instance. *)

(** The Python value of a parsed JSON text: an array or an object is a new
    object of the store, built after the values inside it; the members of an
    object are entered in order, so the last of two equal keys stays. *)
Fixpoint py_of_json (v : json) : M val :=
  match v with
  | JNull => mret VNone
  | JBool b => mret (VBool b)
  | JInt n => mret (VInt n)
  | JStr s => mret (VStr s)
  | JList items =>
      xs ← (fix go (l : list json) : M (list val) :=
              match l with
              | [] => mret []
              | x :: rest => v ← py_of_json x; vs ← go rest; mret (v :: vs)
              end) items;
      l ← alloc (OList xs);
      mret (VRef l)
  | JObject members =>
      d ← (fix go (l : list (string * json)) (acc : gmap string val)
             : M (gmap string val) :=
             match l with
             | [] => mret acc
             | (k, x) :: rest => v ← py_of_json x; go rest (<[k := v]> acc)
             end) members ∅;
      l ← alloc (ODict d);
      mret (VRef l)
  end.

Section samples.
Variable json_loads : string -> result json.
Variable py_str : heap -> val -> string.
Variable wiki_client : client.
Variable speakers_attributes : DataFrame.

(** The two loops over the columns, on the value that [json.loads] gave.  A
    value that is no list and no dictionary takes no item assignment: the
    first call raises at the second guard or at
    [quote_data[column_name] = []]. *)
Definition add_columns_to (instance : val) : M unit :=
  match instance with
  | VRef l => add_columns wiki_client l speakers_attributes
  | _ =>
      if Frame.has_column speakers_attributes "nationality"
      then raise TypeError
      else raise (Exception_ (not_a_column_msg "nationality"))
  end.

(** [{k: str(v) for k, v in instance.items()}]. *)
Definition row_of (instance : val) : M (gmap string string) :=
  match instance with
  | VRef l =>
      o ← read l;
      match o with
      | ODict d => fun h => (h, Ok (py_str h <$> d))
      | OList _ => raise AttributeError
      end
  | _ => raise AttributeError
  end.

(** The body of the loop up to the new row. *)
Definition enrich_sample (line : string) : M (gmap string string) :=
  parsed ← lift (json_loads line);
  instance ← py_of_json parsed;
  add_columns_to instance;;
  row_of instance.

(** [for i, instance in enumerate(s_file): ...], from the index [i] on. *)
Fixpoint enrich_samples (i : nat) (s_file : list string)
    (running_df : list (gmap string string))
  : M (list (gmap string string)) :=
  match s_file with
  | [] => mret running_df
  | line :: rest =>
      curr_df ← enrich_sample line;
      let running_df := running_df ++ [curr_df] in
      if (i =? SAMPLES_TO_PROCESS)%nat then mret running_df       (* break *)
      else enrich_samples (S i) rest running_df
  end.

(** The running data frame after the loop. *)
Definition enrich_example (s_file : list string)
  : M (list (gmap string string)) :=
  enrich_samples 0 s_file [].
End samples.

(** [str] for the examples: the text of a string, and a mark for any other
    value. *)
Definition example_str (h : heap) (v : val) : string :=
  match v with VStr s => s | _ => "..." end.

(** Two lines, each the resolved example record, and the run of the example
    on them from an empty store. *)
Definition example_samples : list string :=
  replicate 2 (Json.dumps (JObject example_resolved)).

Definition example_run : heap * result (list (gmap string string)) :=
  enrich_example Json.loads example_str example_client example_full_table
    example_samples [].

Definition example_rows : list (gmap string string) :=
  match example_run.2 with Ok rows => rows | Err _ => [] end.

(** * Properties *)

(** ** Decimal literals: printing, then parsing *)

Module PyStrFacts.
Import PyStr.

Lemma digit_val_pretty (d : N) :
  (d < 10)%N -> digit_val (pretty_N_char d) = Some (Z.of_N d).
Proof.
  intros Hd.
  assert (d = 0 \/ d = 1 \/ d = 2 \/ d = 3 \/ d = 4 \/ d = 5 \/ d = 6
          \/ d = 7 \/ d = 8 \/ d = 9)%N as Hcases by lia.
  repeat (destruct Hcases as [-> | Hcases]; [reflexivity |]).
  subst d; reflexivity.
Qed.

Lemma app_nil_l (b : string) : EmptyString +:+ b = b.
Proof. reflexivity. Qed.

Lemma app_cons (x : ascii) (a b : string) :
  String x a +:+ b = String x (a +:+ b).
Proof. reflexivity. Qed.

Lemma all_digits_app (a b : string) :
  all_digits (a +:+ b) = all_digits a && all_digits b.
Proof.
  induction a as [| c a IH]; [reflexivity |].
  rewrite app_cons; simpl.
  destruct (digit_val c); [exact IH | reflexivity].
Qed.

Lemma string_app_assoc (a b c : string) :
  (a +:+ b) +:+ c = a +:+ (b +:+ c).
Proof.
  induction a as [| x a IH]; [reflexivity |].
  rewrite !app_cons, IH; reflexivity.
Qed.

Lemma string_length_app (a b : string) :
  String.length (a +:+ b) = (String.length a + String.length b)%nat.
Proof.
  induction a as [| x a IH]; [reflexivity |].
  rewrite app_cons; simpl; rewrite IH; reflexivity.
Qed.

(** Digits in front of a literal shift the accumulator. *)
Lemma parse_digits_one (c : ascii) (d : Z) (rest : string) acc b :
  digit_val c = Some d ->
  parse_digits (String c rest) acc b = parse_digits rest (10 * acc + d) true.
Proof. intros H; simpl; rewrite H; reflexivity. Qed.

(** What [pretty_N_go] puts in front of its accumulator: a non-empty run
    of digits whose value is the number printed. *)
Lemma pretty_N_go_digits (x : N) :
  (0 < x)%N ->
  exists ds : string,
    ds <> EmptyString /\ all_digits ds = true /\
    (forall s, pretty_N_go x s = ds +:+ s) /\
    (forall rest acc b,
        parse_digits (ds +:+ rest) acc b
        = parse_digits rest
            (acc * 10 ^ Z.of_nat (String.length ds) + Z.of_N x) true).
Proof.
  induction (N.lt_wf_0 x) as [x _ IH]; intros Hpos.
  assert (Hmod : (x `mod` 10 < 10)%N) by (apply N.mod_lt; lia).
  pose proof (digit_val_pretty _ Hmod) as Hdigit.
  pose proof (N.div_mod x 10 ltac:(lia)) as Hdm.
  destruct (decide (x `div` 10 = 0)%N) as [Hq | Hq].
  - exists (String (pretty_N_char (x `mod` 10)) EmptyString).
    split; [discriminate |]. split; [simpl; rewrite Hdigit; reflexivity |].
    split.
    + intros s. rewrite pretty_N_go_step by exact Hpos.
      rewrite Hq, pretty_N_go_0. reflexivity.
    + intros rest acc b. rewrite app_cons, app_nil_l.
      rewrite (parse_digits_one _ _ _ _ _ Hdigit). f_equal.
      cbn [String.length]. lia.
  - destruct (IH (x `div` 10)%N) as (ds & Hne & Hall & Hgo & Hparse).
    { apply N.div_lt; lia. } { lia. }
    exists (ds +:+ String (pretty_N_char (x `mod` 10)) EmptyString).
    split; [destruct ds; [congruence | discriminate] |].
    split; [rewrite all_digits_app, Hall; simpl; rewrite Hdigit;
            reflexivity |].
    split.
    + intros s. rewrite pretty_N_go_step by exact Hpos.
      rewrite Hgo, string_app_assoc. reflexivity.
    + intros rest acc b. rewrite string_app_assoc, app_cons, app_nil_l.
      rewrite Hparse, (parse_digits_one _ _ _ _ _ Hdigit). f_equal.
      rewrite string_length_app. cbn [String.length].
      replace (Z.of_nat (String.length ds + 1))
        with (Z.of_nat (String.length ds) + 1) by lia.
      rewrite Z.pow_add_r, Z.pow_1_r by lia. lia.
Qed.

(** No digit is white space, a sign, or the letter Q. *)
Lemma digit_val_plain (c : ascii) (d : Z) :
digit_val c = Some d ->
is_space c = false /\ Ascii.eqb c "Q" = false /\
Ascii.eqb c "-" = false /\ Ascii.eqb c "+" = false.
Proof.
unfold digit_val, is_space. intros H.
destruct ((48 <=? N_of_ascii c)%N && (N_of_ascii c <=? 57)%N)
  eqn:Hrange; [| discriminate].
apply andb_true_iff in Hrange as [Hlo Hhi].
apply N.leb_le in Hlo, Hhi.
assert (Hcode : forall c' : ascii,
           (N_of_ascii c' < 48)%N \/ (57 < N_of_ascii c')%N ->
           Ascii.eqb c c' = false).
{ intros c' Hc'. apply Ascii.eqb_neq. intros ->. lia. }
split.
- replace (N_of_ascii c <=? 13)%N with false
    by (symmetry; apply N.leb_gt; lia).
  replace (N_of_ascii c =? 32)%N with false
    by (symmetry; apply N.eqb_neq; lia).
  replace (N_of_ascii c =? 133)%N with false
    by (symmetry; apply N.eqb_neq; lia).
  replace (N_of_ascii c =? 160)%N with false
    by (symmetry; apply N.eqb_neq; lia).
  rewrite !andb_false_r. reflexivity.
- repeat split; apply Hcode; vm_compute; intuition congruence.
Qed.

Lemma all_digits_remove_Q (ds : string) :
  all_digits ds = true -> remove_char "Q" ds = ds.
Proof.
  induction ds as [| c ds IH]; simpl; [reflexivity |].
  destruct (digit_val c) as [d |] eqn:Hc; [| discriminate].
  intros Hall. destruct (digit_val_plain _ _ Hc) as (_ & -> & _).
  rewrite IH by exact Hall. reflexivity.
Qed.

Lemma all_digits_rstrip (ds : string) :
  all_digits ds = true -> rstrip ds = ds.
Proof.
  induction ds as [| c ds IH]; simpl; [reflexivity |].
  destruct (digit_val c) as [d |] eqn:Hc; [| discriminate].
  intros Hall. destruct (digit_val_plain _ _ Hc) as (-> & _).
  rewrite IH by exact Hall. destruct ds; reflexivity.
Qed.

Lemma all_digits_lstrip (ds : string) :
  all_digits ds = true -> lstrip ds = ds.
Proof.
  destruct ds as [| c ds]; simpl; [reflexivity |].
  destruct (digit_val c) as [d |] eqn:Hc; [| discriminate].
  destruct (digit_val_plain _ _ Hc) as (-> & _). reflexivity.
Qed.

Lemma app_nil_r (a : string) : a +:+ EmptyString = a.
Proof.
  induction a as [| x a IH]; [reflexivity |].
  rewrite app_cons, IH; reflexivity.
Qed.

(** The shape of [str n]: an optional minus sign, then the digits of the
    absolute value. *)
Lemma str_shape (n : Z) :
  exists ds : string,
    ds <> EmptyString /\ all_digits ds = true /\
    str n = (if (n <? 0)%Z then String "-" ds else ds) /\
    parse_digits ds 0 false = Some (Z.abs n).
Proof.
  destruct n as [| p | p].
  - exists "0". repeat split; discriminate.
  - destruct (pretty_N_go_digits (N.pos p)) as (ds & Hne & Hall & Hgo & Hp);
      [lia |].
    exists ds. repeat split; try assumption.
    + unfold str, pretty, pretty_Z, pretty, pretty_positive, pretty,
        pretty_N.
      rewrite decide_False by discriminate.
      rewrite Hgo, app_nil_r. reflexivity.
    + specialize (Hp EmptyString 0 false). rewrite app_nil_r in Hp.
      rewrite Hp. simpl. reflexivity.
  - destruct (pretty_N_go_digits (N.pos p)) as (ds & Hne & Hall & Hgo & Hp);
      [lia |].
    exists ds. repeat split; try assumption.
    + unfold str, pretty, pretty_Z, pretty, pretty_positive, pretty,
        pretty_N.
      rewrite decide_False by discriminate.
      rewrite Hgo, app_nil_r. reflexivity.
    + specialize (Hp EmptyString 0 false). rewrite app_nil_r in Hp.
      rewrite Hp. simpl. reflexivity.
Qed.

(** Parsing what [str] prints gives the number back. *)
Lemma parse_int_str (n : Z) : parse_int (str n) = Some n.
Proof.
  destruct (str_shape n) as (ds & Hne & Hall & Hstr & Hparse).
  unfold parse_int, strip. rewrite Hstr.
  destruct (n <? 0)%Z eqn:Hsign.
  - simpl lstrip. simpl rstrip. rewrite (all_digits_rstrip _ Hall).
    destruct ds as [| c ds]; [congruence |].
    rewrite Hparse. simpl. f_equal. lia.
  - rewrite (all_digits_lstrip _ Hall), (all_digits_rstrip _ Hall).
  destruct ds as [| c ds]; [congruence |].
  assert (Ascii.eqb c "-" = false /\ Ascii.eqb c "+" = false) as [-> ->].
  { simpl in Hall. destruct (digit_val c) as [d |] eqn:Hc;
      [| discriminate].
    destruct (digit_val_plain _ _ Hc) as (_ & _ & ? & ?). split; assumption. }
  rewrite Hparse. f_equal. lia.
Qed.

(** The integer part of the identifier [Q<n>], as [get_min_qid] reads
    it. *)
Lemma int_of_qid (n : Z) :
  int (remove_char "Q" ("Q" +:+ str n)) = Ok n.
Proof.
  assert (Hrm : remove_char "Q" ("Q" +:+ str n) = str n).
  { rewrite app_cons, app_nil_l. simpl.
    destruct (str_shape n) as (ds & _ & Hall & -> & _).
    destruct (n <? 0)%Z; simpl; rewrite (all_digits_remove_Q _ Hall);
      reflexivity. }
  unfold int. rewrite Hrm, parse_int_str. reflexivity.
Qed.
End PyStrFacts.

(** ** Running a computation *)

Lemma run_bind {A B} (c : M A) (k : A -> M B) (h : heap) :
  (c ≫= k) h = match c h with
                | (h', Ok a) => k a h'
                | (h', Err e) => (h', Err e)
                end.
Proof. reflexivity. Qed.

Lemma run_bind_ok {A B} (c : M A) (k : A -> M B) (h h' : heap) (a : A) :
  c h = (h', Ok a) -> (c ≫= k) h = k a h'.
Proof. intros H. rewrite run_bind, H. reflexivity. Qed.

Lemma run_bind_err {A B} (c : M A) (k : A -> M B) (h h' : heap) e :
  c h = (h', Err e) -> (c ≫= k) h = (h', Err e).
Proof. intros H. rewrite run_bind, H. reflexivity. Qed.

Lemma run_bind_assoc {A B C} (c : M A) (k : A -> M B) (k' : B -> M C) h :
  ((c ≫= k) ≫= k') h = (c ≫= fun a => k a ≫= k') h.
Proof.
  rewrite !run_bind. destruct (c h) as [h1 [a | e]]; reflexivity.
Qed.

(** The function is its first half followed by its second half. *)
Lemma add_wikidata_column_to_quote_split wiki_client quote_data_original
    column_name speakers_attributes inplace ignore_existing is_qid h :
  add_wikidata_column_to_quote wiki_client quote_data_original column_name
    speakers_attributes inplace ignore_existing is_qid h
  = (enrich_prepare quote_data_original column_name speakers_attributes
       inplace ignore_existing
     ≫= fun quote_data =>
          enrich_fill wiki_client quote_data column_name
            speakers_attributes is_qid) h.
Proof.
  unfold add_wikidata_column_to_quote, enrich_prepare.
  rewrite run_bind_assoc, !run_bind.
  destruct (_ h) as [h1 [q | e]]; [| reflexivity].
  rewrite run_bind_assoc, !run_bind.
  destruct (_ h1) as [h2 [[] | e]]; [| reflexivity].
  rewrite run_bind_assoc, !run_bind.
  destruct (_ h2) as [h3 [[] | e]]; [| reflexivity].
  rewrite run_bind_assoc, !run_bind.
  destruct (alloc (OList []) h3) as [h4 [nl | e]]; [| reflexivity].
  rewrite run_bind_assoc, !run_bind.
  destruct (py_setitem q column_name (VRef nl) h4) as [h5 [[] | e]];
    reflexivity.
Qed.

(** ** Local dictionaries *)


(** ** Local dictionaries *)

Module PyDictFacts.
Section facts.
Context {K V : Type} `{EqDecision K}.
Implicit Types (d : list (K * V)) (k : K) (v : V).

Lemma get_set_eq d k v : PyDict.get k (PyDict.set k v d) = Some v.
Proof.
  induction d as [| [k' v'] d IH]; simpl.
  - rewrite decide_True by reflexivity. reflexivity.
  - destruct (decide (k' = k)) as [-> | Hne]; simpl.
    + rewrite decide_True by reflexivity. reflexivity.
    + rewrite decide_False by exact Hne. exact IH.
Qed.

Lemma get_set_ne d k k' v :
  k <> k' -> PyDict.get k' (PyDict.set k v d) = PyDict.get k' d.
Proof.
  intros Hne. induction d as [| [k0 v0] d IH]; simpl.
  - rewrite decide_False by exact Hne. reflexivity.
  - destruct (decide (k0 = k)) as [-> | Hk0]; simpl.
    + rewrite !decide_False by exact Hne. reflexivity.
    + destruct (decide (k0 = k')); [reflexivity | exact IH].
Qed.

Lemma get_is_Some d k : is_Some (PyDict.get k d) <-> k ∈ PyDict.keys d.
Proof.
  unfold PyDict.keys. induction d as [| [k' v'] d IH]; simpl.
  - split; [intros [? ?]; discriminate | intros H; inversion H].
  - rewrite elem_of_cons. destruct (decide (k' = k)) as [-> | Hne].
    + split; [left; reflexivity | eauto].
    + rewrite IH. split; [right; assumption |].
      intros [-> | Hin]; [contradiction | exact Hin].
Qed.

Lemma keys_set d k v :
  PyDict.keys (PyDict.set k v d)
  = if bool_decide (k ∈ PyDict.keys d) then PyDict.keys d
    else PyDict.keys d ++ [k].
Proof.
  unfold PyDict.keys. induction d as [| [k' v'] d IH].
  - reflexivity.
  - cbn [PyDict.set]. rewrite fmap_cons. cbn [fst].
    destruct (decide (k' = k)) as [-> | Hne].
    + rewrite bool_decide_eq_true_2 by (left; reflexivity). reflexivity.
    + rewrite fmap_cons, IH. cbn [fst].
      destruct (decide (k ∈ d.*1)) as [Hin | Hin].
      * rewrite !bool_decide_eq_true_2; [reflexivity | | exact Hin].
        right; exact Hin.
      * rewrite !bool_decide_eq_false_2; [reflexivity | | exact Hin].
        rewrite elem_of_cons. intros [-> | Hin']; contradiction.
Qed.

Lemma keys_set_NoDup d k v :
  NoDup (PyDict.keys d) -> NoDup (PyDict.keys (PyDict.set k v d)).
Proof.
  intros Hnd. rewrite keys_set.
  destruct (decide (k ∈ PyDict.keys d)) as [Hin | Hin].
  - rewrite bool_decide_eq_true_2 by exact Hin. exact Hnd.
  - rewrite bool_decide_eq_false_2 by exact Hin.
    apply NoDup_app. split; [exact Hnd |]. split.
    + intros x Hx Hk. apply list_elem_of_singleton in Hk. subst x.
      contradiction.
    + apply NoDup_singleton.
Qed.

(** Looking up every key of a dictionary, in order, gives its values. *)
Lemma get_keys_values d :
  NoDup (PyDict.keys d) ->
  omap (fun k => PyDict.get k d) (PyDict.keys d) = d.*2.
Proof.
  unfold PyDict.keys. induction d as [| [k v] d IH]; [reflexivity |].
  rewrite !fmap_cons. cbn [fst snd]. intros Hnd.
  apply NoDup_cons in Hnd as [Hk Hnd].
  cbn [omap list_omap PyDict.get]. rewrite decide_True by reflexivity.
  f_equal. rewrite <- (IH Hnd).
  apply list_omap_ext, Forall2_same_length_lookup_2; [reflexivity |].
  intros i k1 k2 Hi1 Hi2. assert (k2 = k1) as -> by congruence.
  rewrite decide_False; [reflexivity |].
  intros ->. apply Hk. eapply list_elem_of_lookup_2. exact Hi1.
Qed.
End facts.
End PyDictFacts.

(** ** Identifier disambiguation *)

Lemma fold_min_le (xs : list Z) (x : Z) : fold_left Z.min xs x <= x.
Proof.
  revert x. induction xs as [| y xs IH]; intros x; simpl; [lia |].
  specialize (IH (Z.min x y)). lia.
Qed.

Lemma fold_min_lower (xs : list Z) (x : Z) :
  forall y, y ∈ xs -> fold_left Z.min xs x <= y.
Proof.
  revert x. induction xs as [| z xs IH]; intros x y Hy; simpl.
  - inversion Hy.
  - apply elem_of_cons in Hy as [-> | Hy].
    + pose proof (fold_min_le xs (Z.min x z)). lia.
    + apply IH. exact Hy.
Qed.

Lemma fold_min_elem (xs : list Z) (x : Z) :
  fold_left Z.min xs x = x \/ fold_left Z.min xs x ∈ xs.
Proof.
  revert x. induction xs as [| z xs IH]; intros x; simpl; [left; reflexivity |].
  destruct (IH (Z.min x z)) as [Heq | Hin].
  - rewrite Heq. destruct (Z.min_spec x z) as [[_ ->] | [_ ->]];
      [left; reflexivity | right; left].
  - right; right; exact Hin.
Qed.

(** [min] of a non-empty list is one of its elements and a lower bound. *)
Lemma py_min_spec (xs : list Z) :
  xs <> [] ->
  exists m, py_min xs = Ok m /\ m ∈ xs /\ forall y, y ∈ xs -> m <= y.
Proof.
  destruct xs as [| x xs]; [congruence | intros _].
  exists (fold_left Z.min xs x). split; [reflexivity |]. split.
  - destruct (fold_min_elem xs x) as [-> | Hin]; [left | right; exact Hin].
  - intros y Hy. apply elem_of_cons in Hy as [-> | Hy].
    + apply fold_min_le.
    + apply fold_min_lower; exact Hy.
Qed.

(** On identifiers [Q<n>] the comprehension reads back the integers. *)
Lemma qids_int_qid_of (ns : list Z) :
  qids_int (VStr <$> (qid_of <$> ns)) = Ok ns.
Proof.
  induction ns as [| n ns IH]; [reflexivity |].
  rewrite !fmap_cons.
  change (rbind (PyStr.int (PyStr.remove_char "Q" ("Q" +:+ PyStr.str n)))
            (fun k => rbind (qids_int (VStr <$> (qid_of <$> ns)))
                        (fun ks => Ok (k :: ks))) = Ok (n :: ns)).
  rewrite PyStrFacts.int_of_qid, IH. reflexivity.
Qed.

Lemma qid_form_list (S : list string) :
  (forall s, s ∈ S -> exists n, s = qid_of n) ->
  exists ns, S = qid_of <$> ns.
Proof.
  induction S as [| s S IH]; intros Hform.
  - exists []. reflexivity.
  - destruct (Hform s) as [n ->]; [left |].
    destruct IH as [ns ->]; [intros s Hs; apply Hform; right; exact Hs |].
    exists (n :: ns). reflexivity.
Qed.

Global Instance qid_of_inj : Inj (=) (=) qid_of.
Proof.
  intros n m Heq. unfold qid_of in Heq.
  apply (inj (String.app "Q")) in Heq. apply (inj pretty) in Heq. exact Heq.
Qed.

(** C2.  For every non-empty collection [S] of identifiers of the form
    [Q<integer>], [get_min_qid] returns an element of [S], and the integer of
    that element is the least of the integers of the elements of [S]. *)
Theorem get_min_qid_member_and_least (S : list string) :
  S <> [] ->
  (forall s, s ∈ S -> exists n : Z, s = qid_of n) ->
  exists n : Z,
    get_min_qid (VStr <$> S) = Ok (qid_of n) /\
    qid_of n ∈ S /\
    forall m : Z, qid_of m ∈ S -> n <= m.
Proof.
  intros Hne Hform. destruct (qid_form_list S Hform) as [ns ->].
  destruct (py_min_spec ns) as (m & Hmin & Hin & Hle).
  { intros ->. apply Hne. reflexivity. }
  exists m. unfold get_min_qid. rewrite qids_int_qid_of.
  cbn [mbind result_bind rbind]. rewrite Hmin. cbn [rbind].
  split; [reflexivity |]. split.
  - apply list_elem_of_fmap. exists m. split; [reflexivity | exact Hin].
  - intros k Hk. apply list_elem_of_fmap in Hk as (k' & Heq & Hk').
    apply (inj qid_of) in Heq. subst k'. apply Hle. exact Hk'.
Qed.

Lemma get_min_qid_member_and_least_witness :
  exists n : Z,
    get_min_qid (VStr <$> ["Q42"; "Q5"]) = Ok (qid_of n) /\
    qid_of n ∈ ["Q42"; "Q5"] /\
    forall m : Z, qid_of m ∈ ["Q42"; "Q5"] -> n <= m.
Proof.
  apply (get_min_qid_member_and_least ["Q42"; "Q5"]).
  - discriminate.
  - intros s Hs. apply elem_of_cons in Hs as [-> | Hs].
    + exists 42. reflexivity.
    + apply list_elem_of_singleton in Hs as ->. exists 5. reflexivity.
Defined.

(** The identifier returned is rebuilt from the integer, so an identifier
    that is not the plain decimal form of its integer is not returned as it
    was written. *)
Remark get_min_qid_leading_zeros :
  get_min_qid [VStr "Q007"] = Ok "Q7".
Proof. vm_compute. reflexivity. Qed.

(** C5, as the code has it.  On the empty collection [get_min_qid] does
    fail, but with the [ValueError] that the built-in [min] raises on an empty
    sequence; the function has no check and no error of its own. *)
Theorem get_min_qid_empty :
  get_min_qid [] = Err ValueError_min.
Proof. reflexivity. Qed.

(** C5 as stated does not hold: the failure on the empty collection is not
    an error raised by the function itself. *)
Lemma get_min_qid_empty_not_explicit :
  ~ exists e, get_min_qid [] = Err e /\ raised_explicitly e = true.
Proof.
  intros (e & He & Hexp). cbv in He.
  injection He as <-. discriminate Hexp.
Qed.

(** ** Label resolution *)

Section labels.
Variable wiki_client : client.

Lemma map_qids_to_labels_from_get (qids : list string) d q :
  PyDict.get q (map_qids_to_labels_from wiki_client qids d)
  = if bool_decide (q ∈ qids)
    then match wiki_client q with
         | Some label => Some label
         | None => PyDict.get q d
         end
    else PyDict.get q d.
Proof.
  revert d. induction qids as [| q0 qids IH]; intros d.
  - reflexivity.
  - cbn [map_qids_to_labels_from].
    destruct (decide (q0 = q)) as [-> | Hne].
    + rewrite bool_decide_eq_true_2 by left.
      destruct (wiki_client q) as [label |] eqn:Hq; rewrite IH.
      * rewrite PyDictFacts.get_set_eq.
        destruct (bool_decide (q ∈ qids)); reflexivity.
      * destruct (bool_decide (q ∈ qids)); reflexivity.
    + assert (Hiff : bool_decide (q ∈ q0 :: qids) = bool_decide (q ∈ qids)).
      { apply bool_decide_ext. rewrite elem_of_cons.
        split; [intros [-> | H]; [contradiction | exact H] | auto]. }
      rewrite Hiff.
      destruct (wiki_client q0) as [label0 |]; rewrite IH;
        [rewrite PyDictFacts.get_set_ne by exact Hne |]; reflexivity.
Qed.

Lemma map_qids_to_labels_from_NoDup (qids : list string) d :
  NoDup (PyDict.keys d) ->
  NoDup (PyDict.keys (map_qids_to_labels_from wiki_client qids d)).
Proof.
  revert d. induction qids as [| q0 qids IH]; intros d Hnd; [exact Hnd |].
  cbn [map_qids_to_labels_from].
  destruct (wiki_client q0); apply IH;
    [apply PyDictFacts.keys_set_NoDup |]; exact Hnd.
Qed.

Lemma map_qids_to_labels_NoDup (qids : list string) :
  NoDup (PyDict.keys (map_qids_to_labels wiki_client qids)).
Proof. apply map_qids_to_labels_from_NoDup, NoDup_nil_2. Qed.

(** C8.  The dictionary that [map_qids_to_labels] returns has an entry for
    exactly the identifiers of the collection whose lookup succeeds, each
    with the label the lookup gave; an identifier whose lookup fails has no
    entry, and the call returns its dictionary all the same. *)
Theorem map_qids_to_labels_entries (qids : list string) (q : string) :
  PyDict.get q (map_qids_to_labels wiki_client qids)
  = (if bool_decide (q ∈ qids) then wiki_client q else None) /\
  (q ∈ PyDict.keys (map_qids_to_labels wiki_client qids)
   <-> q ∈ qids /\ is_Some (wiki_client q)).
Proof.
  assert (Hget : PyDict.get q (map_qids_to_labels wiki_client qids)
                 = if bool_decide (q ∈ qids) then wiki_client q else None).
  { unfold map_qids_to_labels. rewrite map_qids_to_labels_from_get.
    destruct (bool_decide (q ∈ qids)); [| reflexivity].
    destruct (wiki_client q); reflexivity. }
  split; [exact Hget |].
  rewrite <- PyDictFacts.get_is_Some, Hget.
  destruct (decide (q ∈ qids)) as [Hin | Hin].
  - rewrite bool_decide_eq_true_2 by exact Hin. tauto.
  - rewrite bool_decide_eq_false_2 by exact Hin.
    split; [intros [? ?]; discriminate | tauto].
Qed.
End labels.

(** ** The order of the labels *)

Lemma filter_filter_andb {A} (P Q : A -> bool) (l : list A) :
  List.filter P (List.filter Q l) = List.filter (fun x => Q x && P x) l.
Proof.
  induction l as [| x l IH]; [reflexivity |]. simpl.
  destruct (Q x); simpl; [destruct (P x) |]; rewrite IH; reflexivity.
Qed.

Lemma omap_filter_ext {A B} (f : A -> option B) (P P' : A -> bool)
    (l : list A) :
  (forall x, x ∈ l -> is_Some (f x) -> P x = P' x) ->
  omap f (List.filter P l) = omap f (List.filter P' l).
Proof.
  induction l as [| x l IH]; intros Hext; [reflexivity |]. simpl.
  assert (IH' : omap f (List.filter P l) = omap f (List.filter P' l)).
  { apply IH. intros y Hy. apply Hext. right. exact Hy. }
  destruct (f x) as [b |] eqn:Hfx.
  - rewrite <- (Hext x) by (left || eauto).
    destruct (P x); cbn [omap list_omap]; rewrite ?Hfx, IH'; reflexivity.
  - destruct (P x), (P' x); cbn [omap list_omap]; rewrite ?Hfx; exact IH'.
Qed.

Lemma pydict_set_same {K V} `{EqDecision K} (d : list (K * V)) k v :
  PyDict.get k d = Some v -> PyDict.set k v d = d.
Proof.
  induction d as [| [k' v'] d IH]; [discriminate |]. simpl.
  destruct (decide (k' = k)) as [-> | Hne].
  - intros [= ->]. reflexivity.
  - intros Hget. rewrite IH by exact Hget. reflexivity.
Qed.

Lemma pydict_set_new {K V} `{EqDecision K} (d : list (K * V)) k v :
  k ∉ PyDict.keys d -> PyDict.set k v d = d ++ [(k, v)].
Proof.
  unfold PyDict.keys. induction d as [| [k' v'] d IH]; [reflexivity |].
  rewrite fmap_cons. cbn [fst PyDict.set]. intros Hnot.
  apply not_elem_of_cons in Hnot as [Hne Hnot].
  rewrite decide_False by congruence. rewrite IH by exact Hnot. reflexivity.
Qed.

Lemma filter_true {A} (l : list A) : List.filter (fun _ => true) l = l.
Proof. induction l as [| x l IH]; simpl; congruence. Qed.

Section label_order.
Variable wiki_client : client.

Let entry (q : string) : option (string * string) := pair q <$> wiki_client q.

(** The loop, from a dictionary whose entries are labels of the client:
    the new entries come after it, for the identifiers not yet there. *)
Lemma map_qids_to_labels_from_order (qids : list string)
    (d : list (string * string)) :
  (forall k, PyDict.get k d = None \/ PyDict.get k d = wiki_client k) ->
  map_qids_to_labels_from wiki_client qids d
  = d ++ omap entry
           (List.filter (fun q => bool_decide (q ∉ PyDict.keys d))
              (first_occurrences qids)).
Proof.
  revert d. induction qids as [| q qids IH]; intros d Hd.
  - simpl. rewrite app_nil_r. reflexivity.
  - cbn [map_qids_to_labels_from first_occurrences List.filter].
    destruct (wiki_client q) as [label |] eqn:Hq.
    + destruct (decide (q ∈ PyDict.keys d)) as [Hin | Hnot].
      * (* the identifier has its entry already *)
        assert (Hget : PyDict.get q d = Some label).
        { apply PyDictFacts.get_is_Some in Hin as [v Hv].
          destruct (Hd q) as [Hn | Hs]; congruence. }
        rewrite (pydict_set_same _ _ _ Hget), (IH d Hd).
        rewrite bool_decide_eq_false_2 by tauto.
        rewrite filter_filter_andb. f_equal. apply omap_filter_ext.
        intros x _ _. destruct (String.eqb_spec x q) as [-> | Hne]; simpl.
        -- apply bool_decide_eq_false_2. tauto.
        -- reflexivity.
      * (* a new entry, at the end *)
        rewrite (pydict_set_new _ _ _ Hnot), bool_decide_eq_true_2 by exact Hnot.
        assert (Hentry : entry q = Some (q, label))
          by (unfold entry; rewrite Hq; reflexivity).
        cbn [omap list_omap]. rewrite Hentry, IH.
        -- rewrite <- app_assoc. cbn [app]. do 2 f_equal.
           rewrite filter_filter_andb. apply omap_filter_ext.
           intros x _ _. unfold PyDict.keys. rewrite fmap_app. cbn [fmap list_fmap fst].
           destruct (String.eqb_spec x q) as [-> | Hne]; simpl.
           ++ apply bool_decide_eq_false_2. rewrite elem_of_app.
              intros H. apply H. right. left.
           ++ apply bool_decide_ext. rewrite elem_of_app.
              rewrite list_elem_of_singleton. tauto.
        -- intros k. destruct (decide (q = k)) as [<- | Hne].
           ++ right. rewrite <- (pydict_set_new _ _ _ Hnot).
              rewrite PyDictFacts.get_set_eq. congruence.
           ++ rewrite <- (pydict_set_new _ _ label Hnot).
              rewrite PyDictFacts.get_set_ne by exact Hne. apply Hd.
    + rewrite (IH d Hd).
      assert (Hentry : entry q = None) by (unfold entry; rewrite Hq; reflexivity).
      destruct (bool_decide (q ∉ PyDict.keys d));
        cbn [omap list_omap]; rewrite ?Hentry;
        f_equal; rewrite filter_filter_andb; apply omap_filter_ext;
        intros x _ [e He];
        (destruct (String.eqb_spec x q) as [-> | Hne]; simpl;
         [congruence | reflexivity]).
Qed.

(** X5.  The dictionary of labels lists the identifiers whose lookup
    succeeds in the order of their first occurrence, each once, with its
    label: a repeated identifier gives one entry, a failed lookup none. *)
Theorem map_qids_to_labels_order (qids : list string) :
  map_qids_to_labels wiki_client qids
  = omap (fun q => pair q <$> wiki_client q) (first_occurrences qids).
Proof.
  unfold map_qids_to_labels.
  rewrite map_qids_to_labels_from_order by (intros k; left; reflexivity).
  cbn [app]. rewrite (omap_filter_ext _ _ (fun _ => true)).
  - rewrite filter_true. reflexivity.
  - intros x _ _. apply bool_decide_eq_true_2. intros H. inversion H.
Qed.
End label_order.

Lemma map_qids_to_labels_order_example :
  map_qids_to_labels example_client ["Q6581097"; "Q1"; "Q6581072"; "Q6581097"]
  = [("Q6581097", "male"); ("Q6581072", "female")].
Proof. vm_compute. reflexivity. Qed.

Lemma map_qids_to_labels_values (wiki_client : client) (qids : list string) :
  (map_qids_to_labels wiki_client qids).*2
  = omap wiki_client (first_occurrences qids).
Proof.
  unfold map_qids_to_labels.
  rewrite map_qids_to_labels_from_order by (intros k; left; reflexivity).
  cbn [app]. rewrite (omap_filter_ext _ _ (fun _ => true)).
  - rewrite filter_true. rewrite list_fmap_omap. apply list_omap_ext.
    apply Forall_Forall2_diag, Forall_forall. intros q _.
    destruct (wiki_client q); reflexivity.
  - intros x _ _. apply bool_decide_eq_true_2. intros H. inversion H.
Qed.

Lemma filter_all {A} (P : A -> bool) (l : list A) :
  (forall x, x ∈ l -> P x = true) -> List.filter P l = l.
Proof.
  induction l as [| x l IH]; intros Hall; [reflexivity |]. simpl.
  rewrite (Hall x) by left. rewrite IH; [reflexivity |].
  intros y Hy. apply Hall. right. exact Hy.
Qed.

(** A list without repetitions is the list of its first occurrences. *)
Lemma first_occurrences_NoDup (l : list string) :
  NoDup l -> first_occurrences l = l.
Proof.
  induction 1 as [| q l Hq _ IH]; [reflexivity |].
  cbn [first_occurrences]. rewrite IH, filter_all; [reflexivity |].
  intros x Hx. destruct (String.eqb_spec x q) as [-> | _];
    [contradiction | reflexivity].
Qed.

(** ** The primitives, one step each *)

Local Open Scope nat_scope.

Lemma read_run (h : heap) l o : h !! l = Some o -> read l h = (h, Ok o).
Proof. intros H. unfold read. rewrite H. reflexivity. Qed.

Lemma py_copy_run (h : heap) l o :
  h !! l = Some o -> py_copy l h = (h ++ [o], Ok (length h)).
Proof.
  intros H. unfold py_copy. rewrite (run_bind_ok _ _ _ _ _ (read_run _ _ _ H)).
  reflexivity.
Qed.

Lemma py_contains_dict (h : heap) l d key :
  h !! l = Some (ODict d) ->
  py_contains key l h = (h, Ok (bool_decide (is_Some (d !! key)))).
Proof.
  intros H. unfold py_contains.
  rewrite (run_bind_ok _ _ _ _ _ (read_run _ _ _ H)). reflexivity.
Qed.

Lemma py_setitem_dict (h : heap) l d key v :
  h !! l = Some (ODict d) ->
  py_setitem l key v h = (<[l := ODict (<[key := v]> d)]> h, Ok tt).
Proof.
  intros H. unfold py_setitem.
  rewrite (run_bind_ok _ _ _ _ _ (read_run _ _ _ H)). reflexivity.
Qed.

Lemma py_getitem_dict (h : heap) l d key :
  h !! l = Some (ODict d) ->
  py_getitem l key h
  = (h, match d !! key with Some v => Ok v | None => Err KeyError end).
Proof.
  intros H. unfold py_getitem.
  rewrite (run_bind_ok _ _ _ _ _ (read_run _ _ _ H)).
  destruct (d !! key); reflexivity.
Qed.

Lemma py_append_list (h : heap) l xs x :
  h !! l = Some (OList xs) ->
  py_append (VRef l) x h = (<[l := OList (xs ++ [x])]> h, Ok tt).
Proof.
  intros H. unfold py_append.
  rewrite (run_bind_ok _ _ _ _ _ (read_run _ _ _ H)). reflexivity.
Qed.

(** Iterating never changes the store. *)
Lemma py_iter_store (v : val) (h : heap) : (py_iter v h).1 = h.
Proof.
  destruct v as [| | | |l]; try reflexivity.
  unfold py_iter. rewrite run_bind. unfold read.
  destruct (h !! l) as [[xs | d] |]; reflexivity.
Qed.

Lemma read_qids_run (h : heap) (q : loc) (d : gmap string val) :
  h !! q = Some (ODict d) ->
  (py_getitem q "qids" ≫= py_iter) h = (h, read_qids h q).
Proof.
  intros Hq. unfold read_qids. rewrite run_bind, (py_getitem_dict _ _ _ _ Hq).
  destruct (d !! "qids") as [v |]; [| reflexivity].
  pose proof (py_iter_store v h) as Hst.
  destruct (py_iter v h) as [h' r]. simpl in Hst. subst h'. reflexivity.
Qed.

(** *** The store after the first half *)

Lemma lookup_snoc (h : heap) (o : obj) : (h ++ [o]) !! length h = Some o.
Proof. rewrite lookup_app_r by lia. rewrite Nat.sub_diag. reflexivity. Qed.

Section prepared_facts.
Variables (h : heap) (r : loc) (d : gmap string val) (column_name : string).
Hypothesis Hr : h !! r = Some (ODict d).

Lemma r_lt : r < length h.
Proof. apply lookup_lt_Some in Hr. exact Hr. Qed.

Lemma prepared_record (inplace : bool) :
  (prepared h r d column_name inplace).1
    !! (prepared h r d column_name inplace).2
  = Some (ODict (<[column_name := VRef (new_list_loc h inplace)]> d)).
Proof.
  pose proof r_lt as Hlt. destruct inplace; simpl.
  - apply list_lookup_insert_eq. rewrite length_app. simpl. lia.
  - rewrite lookup_app_r by lia. rewrite Nat.sub_diag. reflexivity.
Qed.

Lemma prepared_new_list (inplace : bool) :
  (prepared h r d column_name inplace).1 !! new_list_loc h inplace
  = Some (OList []).
Proof.
  pose proof r_lt as Hlt. destruct inplace; simpl.
  - rewrite list_lookup_insert_ne by lia. apply lookup_snoc.
  - rewrite lookup_app_r by lia.
    replace (S (length h) - length h)%nat with 1%nat by lia. reflexivity.
Qed.

Lemma prepared_length (inplace : bool) :
  length (prepared h r d column_name inplace).1
  = S (new_list_loc h inplace).
Proof.
  destruct inplace; simpl.
  - rewrite length_insert, length_app. simpl. lia.
  - rewrite length_app. simpl. lia.
Qed.

(** Every object of the original store is still there, except the record
    itself when it is updated in place. *)
Lemma prepared_frame (inplace : bool) (l : loc) :
  l < length h -> (inplace = false \/ l <> r) ->
  (prepared h r d column_name inplace).1 !! l = h !! l.
Proof.
  intros Hl Hcase. destruct inplace; simpl.
  - destruct Hcase as [? | Hne]; [discriminate |].
    rewrite list_lookup_insert_ne by congruence.
    apply lookup_app_l. exact Hl.
  - apply lookup_app_l. exact Hl.
Qed.
End prepared_facts.

(** The first half of the function on a dictionary: the two guards, then the
    prepared store. *)
Lemma enrich_prepare_run (h : heap) r d column_name
    (speakers_attributes : DataFrame) (inplace ignore_existing : bool) :
  h !! r = Some (ODict d) ->
  enrich_prepare r column_name speakers_attributes inplace ignore_existing h
  = let h0 := if inplace then h else h ++ [ODict d] in
    if negb ignore_existing && bool_decide (is_Some (d !! column_name))
    then (h0, Err (Exception_ (already_exists_msg column_name)))
    else if negb (Frame.has_column speakers_attributes column_name)
    then (h0, Err (Exception_ (not_a_column_msg column_name)))
    else ((prepared h r d column_name inplace).1,
          Ok (prepared h r d column_name inplace).2).
Proof.
  intros Hr. pose proof (r_lt _ _ _ Hr) as Hlt.
  unfold enrich_prepare.
  set (h0 := if inplace then h else h ++ [ODict d]).
  set (q := if inplace then r else length h).
  assert (Hq : h0 !! q = Some (ODict d)).
  { subst h0 q. destruct inplace; [exact Hr | apply lookup_snoc]. }
  assert (Hstart : (if inplace then mret r else py_copy r) h = (h0, Ok q)).
  { subst h0 q. destruct inplace; [reflexivity |].
    apply py_copy_run. exact Hr. }
  rewrite (run_bind_ok _ _ _ _ _ Hstart).
  assert (Hguard :
    (if negb ignore_existing
     then py_contains column_name q ≫= fun present : bool =>
            if present
            then raise (Exception_ (already_exists_msg column_name))
            else mret tt
     else mret tt) h0
    = if negb ignore_existing && bool_decide (is_Some (d !! column_name))
      then (h0, Err (Exception_ (already_exists_msg column_name)))
      else (h0, Ok tt)).
  { destruct ignore_existing; [reflexivity |].
    cbv beta iota delta [negb andb].
    rewrite (run_bind_ok _ _ _ _ _ (py_contains_dict _ _ _ _ Hq)).
    destruct (bool_decide (is_Some (d !! column_name))); reflexivity. }
  rewrite run_bind, Hguard.
  destruct (negb ignore_existing && bool_decide (is_Some (d !! column_name)));
    [reflexivity |].
  rewrite run_bind.
  destruct (negb (Frame.has_column speakers_attributes column_name));
    [reflexivity |].
  cbv beta iota delta [mret M_ret ret].
  rewrite run_bind. unfold alloc at 1. cbv beta iota.
  assert (Hq' : (h0 ++ [OList []]) !! q = Some (ODict d)).
  { rewrite lookup_app_l; [exact Hq |]. apply lookup_lt_Some in Hq. exact Hq. }
  rewrite (run_bind_ok _ _ _ _ _ (py_setitem_dict _ _ _ _ _ Hq')).
  subst h0 q. destruct inplace; simpl.
  - reflexivity.
  - rewrite length_app. simpl. rewrite Nat.add_1_r.
    rewrite <- (app_assoc h [ODict d] [OList []]). simpl.
    rewrite insert_app_r_alt by lia. rewrite Nat.sub_diag. reflexivity.
Qed.

(** ** The second half: filling the column *)

Section fill.
Context {K : Type} `{EqDecision K}.
Variables (quote_data new_list : loc) (column_name : string)
          (d : gmap string val).
Hypothesis Hcol : d !! column_name = Some (VRef new_list).

(** One label after the other is appended to the list of the column. *)
Lemma assign_labels_keys (labels : list (K * string)) (ks : list K) :
  (forall k, k ∈ ks -> is_Some (PyDict.get k labels)) ->
  forall (h : heap) (xs : list val),
    h !! quote_data = Some (ODict d) ->
    h !! new_list = Some (OList xs) ->
    for_each ks (fun qid =>
      target ← py_getitem quote_data column_name;
      label ← lift (match PyDict.get qid labels with
                    | Some v => Ok v
                    | None => Err KeyError
                    end);
      py_append target (VStr label)) h
    = (<[new_list := OList
           (xs ++ (VStr <$> omap (fun k => PyDict.get k labels) ks))]> h,
       Ok tt).
Proof.
  induction ks as [| k ks IH]; intros Hks h xs Hq Hnl.
  - cbn [for_each omap list_omap fmap list_fmap].
    rewrite app_nil_r, list_insert_id by exact Hnl. reflexivity.
  - destruct (Hks k) as [v Hv]; [left |].
    assert (Hne : quote_data <> new_list) by congruence.
    pose proof (lookup_lt_Some _ _ _ Hnl) as Hlt.
    cbn [for_each]. rewrite run_bind.
    rewrite run_bind, (py_getitem_dict _ _ _ _ Hq), Hcol.
    rewrite Hv. unfold lift at 1. rewrite run_bind.
    rewrite (py_append_list _ _ _ _ Hnl).
    rewrite IH with (xs := xs ++ [VStr v]).
    + rewrite list_insert_insert_eq. cbn [omap list_omap]. rewrite Hv.
      rewrite fmap_cons, <- app_assoc. reflexivity.
    + intros k' Hk'. apply Hks. right. exact Hk'.
    + rewrite list_lookup_insert_ne by congruence. exact Hq.
    + apply list_lookup_insert_eq. exact Hlt.
Qed.

Lemma assign_labels_run (labels : list (K * string)) (h : heap) xs :
  NoDup (PyDict.keys labels) ->
  h !! quote_data = Some (ODict d) ->
  h !! new_list = Some (OList xs) ->
  assign_labels quote_data column_name labels h
  = (<[new_list := OList (xs ++ (VStr <$> labels.*2))]> h, Ok tt).
Proof.
  intros Hnd Hq Hnl. unfold assign_labels.
  rewrite assign_labels_keys with (xs := xs); try assumption.
  - rewrite PyDictFacts.get_keys_values by exact Hnd. reflexivity.
  - intros k Hk. apply PyDictFacts.get_is_Some. exact Hk.
Qed.
End fill.

(** The dictionary built from [enumerate] lists the values in order, under
    the keys 0, 1, 2, ... *)
Lemma enumerate_dict_from (labels_list : list string) (a : nat)
    (acc : list (nat * string)) :
  (forall k, k ∈ PyDict.keys acc -> k < a) ->
  fold_left (fun d '(i, v) => PyDict.set i v d)
    (zip (seq a (length labels_list)) labels_list) acc
  = acc ++ zip (seq a (length labels_list)) labels_list.
Proof.
  revert a acc. induction labels_list as [| v vs IH]; intros a acc Hacc.
  - simpl. rewrite app_nil_r. reflexivity.
  - cbn [length seq zip zip_with fold_left].
    assert (Hset : PyDict.set a v acc = acc ++ [(a, v)]).
    { clear IH. induction acc as [| [k0 v0] acc IHacc]; [reflexivity |].
      cbn [PyDict.set]. rewrite decide_False.
      - rewrite IHacc; [reflexivity |].
        intros k Hk. apply Hacc. right. exact Hk.
      - specialize (Hacc k0 ltac:(left)). lia. }
    rewrite Hset, IH.
    + rewrite <- app_assoc. reflexivity.
    + intros k Hk. unfold PyDict.keys in Hk. rewrite fmap_app in Hk.
      apply elem_of_app in Hk as [Hk | Hk].
      * specialize (Hacc k Hk). lia.
      * apply list_elem_of_singleton in Hk. simpl in Hk. lia.
Qed.

Lemma enumerate_dict_zip (labels_list : list string) :
  enumerate_dict labels_list
  = zip (seq 0 (length labels_list)) labels_list.
Proof.
  unfold enumerate_dict. rewrite enumerate_dict_from; [reflexivity |].
  intros k Hk. inversion Hk.
Qed.

Lemma enumerate_dict_values (labels_list : list string) :
  (enumerate_dict labels_list).*2 = labels_list.
Proof.
  rewrite enumerate_dict_zip. apply snd_zip. rewrite length_seq. lia.
Qed.

Lemma enumerate_dict_NoDup (labels_list : list string) :
  NoDup (PyDict.keys (enumerate_dict labels_list)).
Proof.
  rewrite enumerate_dict_zip. unfold PyDict.keys.
  rewrite fst_zip by (rewrite length_seq; lia). apply NoDup_seq.
Qed.

Lemma run_lift {A} (r : result A) (h : heap) : lift r h = (h, r).
Proof. reflexivity. Qed.

Lemma result_bind_ok {A B} (a : A) (k : A -> result B) : (Ok a ≫= k) = k a.
Proof. reflexivity. Qed.

(** The second half of the function, on a record whose column holds a list:
    the labels computed by [enrich_labels] are appended to that list, and
    nothing else in the store changes; an error leaves the store as it
    is. *)
Lemma enrich_fill_run (wiki_client : client) (h : heap) (q nl : loc)
    (d : gmap string val) (xs : list val) (column_name : string)
    (speakers_attributes : DataFrame) (is_qid : bool) :
  h !! q = Some (ODict d) ->
  d !! column_name = Some (VRef nl) ->
  h !! nl = Some (OList xs) ->
  enrich_fill wiki_client q column_name speakers_attributes is_qid h
  = match enrich_labels wiki_client (read_qids h q) column_name
            speakers_attributes is_qid with
    | Ok labels => (<[nl := OList (xs ++ (VStr <$> labels))]> h, Ok q)
    | Err e => (h, Err e)
    end.
Proof.
  intros Hq Hcol Hnl. unfold enrich_fill.
  rewrite <- run_bind_assoc, run_bind, (read_qids_run _ _ _ Hq).
  unfold enrich_labels.
  destruct (read_qids h q) as [qids | e]; [| reflexivity].
  rewrite result_bind_ok, run_bind, run_lift.
  destruct (get_min_qid qids) as [speaker_qid | e]; [| reflexivity].
  rewrite result_bind_ok, run_bind, run_lift.
  destruct (Frame.column speakers_attributes "id") as [ids | e];
    [| reflexivity].
  rewrite result_bind_ok, run_bind, run_lift.
  destruct (Frame.eq_mask ids speaker_qid) as [mask | e]; [| reflexivity].
  rewrite result_bind_ok, run_bind, run_lift.
  destruct (Frame.column _ column_name) as [series | e]; [| reflexivity].
  rewrite result_bind_ok, run_bind, run_lift.
  destruct (Frame.first_value series) as [value | e]; [| reflexivity].
  rewrite result_bind_ok.
  destruct value as [| s | items].
  - rewrite app_nil_r, list_insert_id by exact Hnl. reflexivity.
  - destruct is_qid; reflexivity.
  - cbn [Frame.tolist]. rewrite result_bind_ok.
    destruct is_qid; rewrite run_bind, run_bind, run_lift;
      rewrite (assign_labels_run q nl column_name d Hcol _ h xs);
      try assumption.
    + reflexivity.
    + apply map_qids_to_labels_NoDup.
    + rewrite enumerate_dict_values. reflexivity.
    + apply enumerate_dict_NoDup.
Qed.

(** ** The whole function on a dictionary *)

(** On a record [d] found at [r] the function checks its two guards, puts a
    new empty list in the column of the record it updates, and appends to
    that list the labels that [enrich_labels] computes from the identifiers
    of that record.  An error after the guards leaves the empty list in
    place. *)
Lemma add_wikidata_column_to_quote_run (wiki_client : client) (h : heap)
    (r : loc) (d : gmap string val) (column_name : string)
    (speakers_attributes : DataFrame) (inplace ignore_existing is_qid : bool) :
  h !! r = Some (ODict d) ->
  add_wikidata_column_to_quote wiki_client r column_name speakers_attributes
    inplace ignore_existing is_qid h
  = if negb ignore_existing && bool_decide (is_Some (d !! column_name))
    then (if inplace then h else h ++ [ODict d],
          Err (Exception_ (already_exists_msg column_name)))
    else if negb (Frame.has_column speakers_attributes column_name)
    then (if inplace then h else h ++ [ODict d],
          Err (Exception_ (not_a_column_msg column_name)))
    else
      let p := prepared h r d column_name inplace in
      match enrich_labels wiki_client (read_qids p.1 p.2) column_name
              speakers_attributes is_qid with
      | Ok labels =>
          (<[new_list_loc h inplace := OList (VStr <$> labels)]> p.1, Ok p.2)
      | Err e => (p.1, Err e)
      end.
Proof.
  intros Hr. rewrite add_wikidata_column_to_quote_split, run_bind.
  rewrite (enrich_prepare_run _ _ _ _ _ _ _ Hr). cbv zeta.
  destruct (negb ignore_existing && bool_decide (is_Some (d !! column_name)));
    [reflexivity |].
  destruct (negb (Frame.has_column speakers_attributes column_name));
    [reflexivity |].
  rewrite (enrich_fill_run wiki_client _ _ (new_list_loc h inplace)
             (<[column_name := VRef (new_list_loc h inplace)]> d) []).
  - reflexivity.
  - apply prepared_record. exact Hr.
  - apply lookup_insert_eq.
  - apply prepared_new_list. exact Hr.
Qed.

(** *** Reading the identifiers of the prepared record *)

Lemma read_qids_list (h : heap) (q lq : loc) (d : gmap string val) xs :
  h !! q = Some (ODict d) ->
  d !! "qids" = Some (VRef lq) ->
  h !! lq = Some (OList xs) ->
  read_qids h q = Ok xs.
Proof.
  intros Hq Hd Hlq. unfold read_qids.
  rewrite run_bind, (py_getitem_dict _ _ _ _ Hq), Hd.
  unfold py_iter. rewrite (run_bind_ok _ _ _ _ _ (read_run _ _ _ Hlq)).
  reflexivity.
Qed.

(** A column other than [qids] leaves the identifiers of the record as they
    were. *)
Lemma read_qids_prepared (h : heap) (r lq : loc) (d : gmap string val) xs
    (column_name : string) (inplace : bool) :
  h !! r = Some (ODict d) ->
  d !! "qids" = Some (VRef lq) ->
  h !! lq = Some (OList xs) ->
  column_name <> "qids" ->
  read_qids (prepared h r d column_name inplace).1
            (prepared h r d column_name inplace).2 = Ok xs.
Proof.
  intros Hr Hd Hlq Hne.
  apply read_qids_list with (lq := lq)
    (d := <[column_name := VRef (new_list_loc h inplace)]> d).
  - apply prepared_record. exact Hr.
  - rewrite lookup_insert_ne by exact Hne. exact Hd.
  - rewrite (prepared_frame h r d column_name inplace lq).
    + exact Hlq.
    + apply lookup_lt_Some in Hlq. exact Hlq.
    + right. congruence.
Qed.

(** The column [qids] itself is emptied before it is read. *)
Lemma read_qids_prepared_qids (h : heap) (r : loc) (d : gmap string val)
    (inplace : bool) :
  h !! r = Some (ODict d) ->
  read_qids (prepared h r d "qids" inplace).1
            (prepared h r d "qids" inplace).2 = Ok [].
Proof.
  intros Hr.
  apply read_qids_list with (lq := new_list_loc h inplace)
    (d := <["qids" := VRef (new_list_loc h inplace)]> d).
  - apply prepared_record. exact Hr.
  - apply lookup_insert_eq.
  - apply prepared_new_list. exact Hr.
Qed.

(** *** Rows of the attribute table *)

Lemma cell_eq_equal (key : cell) (q : string) :
  id_equal key q -> Frame.cell_eq key q = Ok true.
Proof.
  intros [-> | ->]; simpl; rewrite bool_decide_eq_true_2; reflexivity.
Qed.

Lemma cell_eq_unequal (key : cell) (q : string) :
  id_unequal key q -> Frame.cell_eq key q = Ok false.
Proof.
  destruct key as [| s | [| s [| t items]]]; simpl; intros Hne;
    try reflexivity; try contradiction;
    rewrite bool_decide_eq_false_2 by exact Hne; reflexivity.
Qed.

Lemma cell_eq_true (key : cell) (q : string) :
  Frame.cell_eq key q = Ok true -> id_equal key q.
Proof.
  destruct key as [| s | [| s [| t items]]]; simpl; intros Heq;
    try discriminate Heq; injection Heq as Heq;
    apply bool_decide_eq_true_1 in Heq; subst s;
    [left | right]; reflexivity.
Qed.

Lemma id_equal_unequal (key : cell) (q : string) :
  id_equal key q -> id_unequal key q -> False.
Proof. intros [-> | ->]; simpl; congruence. Qed.

Lemma eq_mask_cons (c : cell) (rest : list cell) (q : string) :
  Frame.eq_mask (c :: rest) q
  = (b ← Frame.cell_eq c q; mask ← Frame.eq_mask rest q; Ok (b :: mask)).
Proof. reflexivity. Qed.

(** A column whose cells can all be compared with [q] has a mask. *)
Lemma eq_mask_total (ids : list cell) (q : string) :
  (forall j k, ids !! j = Some k -> id_equal k q \/ id_unequal k q) ->
  exists mask, Frame.eq_mask ids q = Ok mask.
Proof.
  induction ids as [| c0 ids IH]; intros Hcmp; [exists []; reflexivity |].
  destruct IH as [mask Hmask].
  { intros j k Hj. apply (Hcmp (S j)). exact Hj. }
  rewrite eq_mask_cons, Hmask.
  destruct (Hcmp 0 c0 eq_refl) as [Heq | Hne].
  - rewrite (cell_eq_equal _ _ Heq). eexists. reflexivity.
  - rewrite (cell_eq_unequal _ _ Hne). eexists. reflexivity.
Qed.

Lemma select_first (ids series : list cell) (q : string) (i : nat)
    (key c : cell) :
  (forall j k, ids !! j = Some k -> id_equal k q \/ id_unequal k q) ->
  ids !! i = Some key ->
  id_equal key q ->
  (forall j k, j < i -> ids !! j = Some k -> id_unequal k q) ->
  series !! i = Some c ->
  exists mask, Frame.eq_mask ids q = Ok mask /\
               Frame.first_value (Frame.select mask series) = Ok c.
Proof.
  revert ids series.
  induction i as [| i IH]; intros ids series Hcmp Hi Heq Hfirst Hc.
  - destruct ids as [| c0 ids]; [discriminate |].
    destruct series as [| s0 series]; [discriminate |].
    simpl in Hi, Hc. injection Hi as ->. injection Hc as ->.
    destruct (eq_mask_total ids q) as [mask Hmask].
    { intros j k Hj. apply (Hcmp (S j)). exact Hj. }
    exists (true :: mask). rewrite eq_mask_cons, (cell_eq_equal _ _ Heq), Hmask.
    split; reflexivity.
  - destruct ids as [| c0 ids]; [discriminate |].
    destruct series as [| s0 series]; [discriminate |].
    simpl in Hi, Hc.
    destruct (IH ids series) as (mask & Hmask & Hsel); try assumption.
    { intros j k Hj. apply (Hcmp (S j)). exact Hj. }
    { intros j k Hj. apply (Hfirst (S j)). lia. }
    exists (false :: mask).
    rewrite eq_mask_cons, (cell_eq_unequal c0 q), Hmask.
    + split; [reflexivity | exact Hsel].
    + apply (Hfirst 0); [lia | reflexivity].
Qed.

Lemma select_none (ids series : list cell) (q : string) :
  (forall j k, ids !! j = Some k -> id_unequal k q) ->
  exists mask, Frame.eq_mask ids q = Ok mask /\
               Frame.select mask series = [].
Proof.
  revert series. induction ids as [| c0 ids IH]; intros series Hnone.
  - exists []. split; reflexivity.
  - destruct series as [| s0 series].
    + destruct (IH [] (fun j k Hj => Hnone (S j) k Hj)) as (mask & Hmask & _).
      exists (false :: mask).
      rewrite eq_mask_cons, (cell_eq_unequal c0 q), Hmask;
        [split; reflexivity | apply (Hnone 0); reflexivity].
    + destruct (IH series (fun j k Hj => Hnone (S j) k Hj))
        as (mask & Hmask & Hsel).
      exists (false :: mask).
      rewrite eq_mask_cons, (cell_eq_unequal c0 q), Hmask;
        [split; [reflexivity | exact Hsel] | apply (Hnone 0); reflexivity].
Qed.

Lemma select_some (ids series : list cell) (q : string) (mask : list bool)
    (c : cell) :
  Frame.eq_mask ids q = Ok mask ->
  Frame.first_value (Frame.select mask series) = Ok c ->
  exists i key, ids !! i = Some key /\ id_equal key q /\
                series !! i = Some c.
Proof.
  revert mask series.
  induction ids as [| c0 ids IH]; intros mask series Hmask Hsel.
  - injection Hmask as <-. discriminate Hsel.
  - rewrite eq_mask_cons in Hmask.
    destruct (Frame.cell_eq c0 q) as [b |] eqn:Hc0; [| discriminate Hmask].
    rewrite result_bind_ok in Hmask.
    destruct (Frame.eq_mask ids q) as [mask' |] eqn:Hmask';
      [| discriminate Hmask].
    injection Hmask as <-.
    destruct series as [| s0 series]; [discriminate Hsel |].
    cbn [Frame.select] in Hsel. destruct b.
    + injection Hsel as ->. exists 0, c0.
      split; [reflexivity |]. split; [| reflexivity].
      apply cell_eq_true. exact Hc0.
    + destruct (IH mask' series eq_refl Hsel) as (i & key & Hi & Heq & Hc).
      exists (S i), key. repeat split; assumption.
Qed.

(** In a table whose identifier column holds strings, the row of [q] is the
    first row whose identifier is [q]. *)
Lemma row_value_strings (speakers_attributes : DataFrame)
    (q column_name : string) (names : list string) (series : list cell)
    (i : nat) (c : cell) :
  speakers_attributes !! "id" = Some (CStr <$> names) ->
  speakers_attributes !! column_name = Some series ->
  names !! i = Some q ->
  (forall j, j < i -> names !! j <> Some q) ->
  series !! i = Some c ->
  row_value speakers_attributes q column_name c.
Proof.
  intros Hids Hseries Hi Hfirst Hc.
  exists (CStr <$> names), series, i, (CStr q).
  split; [exact Hids |]. split; [exact Hseries |].
  split; [| split; [| split; [left; reflexivity | split; [| exact Hc]]]].
  - intros j k Hj. apply list_lookup_fmap_Some in Hj as (s & -> & _).
    destruct (decide (s = q)) as [-> | Hne];
      [left; left; reflexivity | right; exact Hne].
  - rewrite list_lookup_fmap, Hi. reflexivity.
  - intros j k Hlt Hj. apply list_lookup_fmap_Some in Hj as (s & -> & Hs).
    simpl. intros ->. exact (Hfirst j Hlt Hs).
Defined.

(** *** The labels, from a row of the table *)

Lemma frame_column_eq (speakers_attributes : DataFrame) column_name :
  Frame.column speakers_attributes column_name
  = match speakers_attributes !! column_name with
    | Some series => Ok series
    | None => Err KeyError
    end.
Proof. reflexivity. Qed.

Lemma frame_rows_column (speakers_attributes : DataFrame) mask column_name :
  Frame.column (Frame.rows speakers_attributes mask) column_name
  = match speakers_attributes !! column_name with
    | Some series => Ok (Frame.select mask series)
    | None => Err KeyError
    end.
Proof.
  unfold Frame.column, Frame.rows. rewrite lookup_fmap.
  destruct (speakers_attributes !! column_name); reflexivity.
Qed.

Lemma enrich_labels_row (wiki_client : client) (qids : list val)
    (speaker_qid column_name : string) (speakers_attributes : DataFrame)
    (is_qid : bool) (c : cell) :
  get_min_qid qids = Ok speaker_qid ->
  row_value speakers_attributes speaker_qid column_name c ->
  enrich_labels wiki_client (Ok qids) column_name speakers_attributes is_qid
  = match c with
    | CNone => Ok []
    | CStr _ => Err AttributeError
    | CArr items =>
        Ok (if is_qid then (map_qids_to_labels wiki_client items).*2
            else items)
    end.
Proof.
  intros Hmin
    (ids & series & i & key & Hids & Hseries & Hcmp & Hi & Heq & Hfirst & Hc).
  unfold enrich_labels. rewrite result_bind_ok, Hmin, result_bind_ok.
  rewrite (frame_column_eq _ "id"), Hids, result_bind_ok.
  destruct (select_first _ _ _ _ _ _ Hcmp Hi Heq Hfirst Hc)
    as (mask & -> & Hsel).
  rewrite result_bind_ok, frame_rows_column, Hseries, result_bind_ok.
  rewrite Hsel, result_bind_ok.
  destruct c; reflexivity.
Qed.

Lemma enrich_labels_inv (wiki_client : client) (qids : list val)
    (column_name : string) (speakers_attributes : DataFrame)
    (is_qid : bool) (labels : list string) :
  enrich_labels wiki_client (Ok qids) column_name speakers_attributes is_qid
  = Ok labels ->
  exists speaker_qid ids series i key c,
    get_min_qid qids = Ok speaker_qid /\
    speakers_attributes !! "id" = Some ids /\
    speakers_attributes !! column_name = Some series /\
    ids !! i = Some key /\ id_equal key speaker_qid /\
    series !! i = Some c.
Proof.
  unfold enrich_labels. rewrite result_bind_ok.
  destruct (get_min_qid qids) as [speaker_qid | e]; [| discriminate].
  rewrite result_bind_ok, (frame_column_eq _ "id").
  destruct (speakers_attributes !! "id") as [ids |] eqn:Hids; [| discriminate].
  rewrite result_bind_ok.
  destruct (Frame.eq_mask ids speaker_qid) as [mask | e] eqn:Hmask;
    [| discriminate].
  rewrite result_bind_ok, frame_rows_column.
  destruct (speakers_attributes !! column_name) as [series |] eqn:Hseries;
    [| discriminate].
  rewrite result_bind_ok.
  destruct (Frame.first_value _) as [c | e] eqn:Hfirst; [| discriminate].
  intros _.
  destruct (select_some _ _ _ _ _ Hmask Hfirst) as (i & key & Hi & Heq & Hc).
  exists speaker_qid, ids, series, i, key, c. repeat split; assumption.
Qed.

Lemma has_column_Some (speakers_attributes : DataFrame) column_name series :
  speakers_attributes !! column_name = Some series ->
  negb (Frame.has_column speakers_attributes column_name) = false.
Proof.
  intros Hseries. unfold Frame.has_column.
  rewrite Hseries, bool_decide_eq_true_2; [reflexivity | eauto].
Qed.

Lemma guards_pass (d : gmap string val) (column_name : string)
    (ignore_existing : bool) :
  ignore_existing = true \/ d !! column_name = None ->
  negb ignore_existing && bool_decide (is_Some (d !! column_name)) = false.
Proof.
  intros [-> | Hnone]; [reflexivity |].
  rewrite Hnone, bool_decide_eq_false_2; [apply andb_false_r |].
  intros [? ?]; discriminate.
Qed.

Lemma row_value_has_column (speakers_attributes : DataFrame) q column_name c :
  row_value speakers_attributes q column_name c ->
  negb (Frame.has_column speakers_attributes column_name) = false.
Proof.
  intros (ids & series & i & key & _ & Hseries & _).
  exact (has_column_Some _ _ _ Hseries).
Qed.

(** The outcome of the function on a well-formed record whose identifier has
    a row in the table: shared by the properties below. *)
Lemma add_wikidata_column_to_quote_row (wiki_client : client) (h : heap)
    (r : loc) (d : gmap string val) (qids : list string)
    (speaker_qid column_name : string) (speakers_attributes : DataFrame)
    (inplace ignore_existing is_qid : bool) (c : cell) :
  quote_at h r d qids ->
  ignore_existing = true \/ d !! column_name = None ->
  column_name <> "qids" ->
  get_min_qid (VStr <$> qids) = Ok speaker_qid ->
  row_value speakers_attributes speaker_qid column_name c ->
  add_wikidata_column_to_quote wiki_client r column_name speakers_attributes
    inplace ignore_existing is_qid h
  = let p := prepared h r d column_name inplace in
    match c with
    | CNone => (p.1, Ok p.2)
    | CStr _ => (p.1, Err AttributeError)
    | CArr items =>
        (<[new_list_loc h inplace :=
             OList (VStr <$> (if is_qid
                              then (map_qids_to_labels wiki_client items).*2
                              else items))]> p.1, Ok p.2)
    end.
Proof.
  intros [Hr (lq & Hd & Hlq)] Hguard Hne Hmin Hrow.
  rewrite (add_wikidata_column_to_quote_run _ _ _ _ _ _ _ _ _ Hr).
  rewrite (guards_pass _ _ _ Hguard), (row_value_has_column _ _ _ _ Hrow).
  cbv zeta. rewrite (read_qids_prepared _ _ _ _ _ _ _ Hr Hd Hlq Hne).
  rewrite (enrich_labels_row _ _ _ _ _ _ _ Hmin Hrow).
  destruct c; [| reflexivity | reflexivity].
  cbn [fmap list_fmap]. rewrite list_insert_id; [reflexivity |].
  apply prepared_new_list. exact Hr.
Qed.

(** *** The store when the function is done *)

Lemma new_list_fresh (h : heap) (inplace : bool) :
  h !! new_list_loc h inplace = None.
Proof. apply lookup_ge_None. destruct inplace; simpl; lia. Qed.

Section outcome.
Variables (wiki_client : client) (h : heap) (r : loc) (d : gmap string val)
          (column_name : string) (speakers_attributes : DataFrame)
          (inplace ignore_existing is_qid : bool).
Hypothesis Hr : h !! r = Some (ODict d).

Let p := prepared h r d column_name inplace.
Let nl := new_list_loc h inplace.

Lemma final_record (o : obj) :
  (<[nl := o]> p.1) !! p.2 = Some (ODict (<[column_name := VRef nl]> d)).
Proof.
  pose proof (r_lt _ _ _ Hr) as Hlt.
  rewrite list_lookup_insert_ne.
  - apply prepared_record. exact Hr.
  - subst nl p. destruct inplace; simpl; lia.
Qed.

Lemma final_new_list (o : obj) : (<[nl := o]> p.1) !! nl = Some o.
Proof.
  apply list_lookup_insert_eq. subst p nl.
  rewrite prepared_length. lia.
Qed.

Lemma final_frame (o : obj) (l : loc) (o' : obj) :
  h !! l = Some o' -> inplace = false \/ l <> r ->
  (<[nl := o]> p.1) !! l = Some o'.
Proof.
  intros Hl Hcase. pose proof (lookup_lt_Some _ _ _ Hl) as Hlt.
  rewrite list_lookup_insert_ne.
  - subst p. rewrite prepared_frame; assumption.
  - subst nl. destruct inplace; simpl; lia.
Qed.

(** Whatever the function returns: the objects of the original store are
    as they were, except the record itself when it is updated in place; and a
    returned record is [d] with the column bound to a new list, which holds
    the labels. *)
Lemma add_wikidata_column_to_quote_outcome (h' : heap) (res : result loc) :
  add_wikidata_column_to_quote wiki_client r column_name speakers_attributes
    inplace ignore_existing is_qid h = (h', res) ->
  (forall l o, h !! l = Some o -> inplace = false \/ l <> r ->
               h' !! l = Some o) /\
  (forall q, res = Ok q ->
     q = p.2 /\
     (ignore_existing = true \/ d !! column_name = None) /\
     exists labels,
       enrich_labels wiki_client (read_qids p.1 p.2) column_name
         speakers_attributes is_qid = Ok labels /\
       h' = <[nl := OList (VStr <$> labels)]> p.1).
Proof.
  rewrite (add_wikidata_column_to_quote_run _ _ _ _ _ _ _ _ _ Hr).
  assert (Hh0 : forall l o, h !! l = Some o ->
            (if inplace then h else h ++ [ODict d]) !! l = Some o).
  { intros l o Hl. destruct inplace; [exact Hl |].
    apply lookup_app_l_Some. exact Hl. }
  destruct (negb ignore_existing && bool_decide (is_Some (d !! column_name)))
    eqn:Hg1.
  { intros [= <- <-]. split; [auto | discriminate]. }
  destruct (negb (Frame.has_column speakers_attributes column_name)).
  { intros [= <- <-]. split; [auto | discriminate]. }
  assert (Hguard : ignore_existing = true \/ d !! column_name = None).
  { destruct ignore_existing; [left; reflexivity | right].
    simpl in Hg1. apply bool_decide_eq_false_1 in Hg1.
    destruct (d !! column_name); [exfalso; eauto | reflexivity]. }
  cbv zeta. fold p nl.
  destruct (enrich_labels _ _ _ _ _) as [labels | e] eqn:Hlabels.
  - intros [= <- <-]. split.
    + intros l o Hl Hcase. apply final_frame; assumption.
    + intros q [= <-]. split; [reflexivity |]. split; [exact Hguard |].
      exists labels. split; reflexivity.
  - intros [= <- <-]. split; [| discriminate].
    intros l o Hl Hcase. subst p. rewrite prepared_frame; try assumption.
    apply lookup_lt_Some in Hl. exact Hl.
Qed.
End outcome.

(** ** Record enrichment *)

(** C1, as the code has it.  When the row of the record's minimum QID has no
    value in the target column (a column other than [qids]), the function
    raises no error and returns the record with the target column bound to
    a new, empty list; every other field of the record is as it was, and so
    is every other object of the store.  The column is set, not left out:
    [quote_data[column_name] = []] runs before the check for [None]. *)
Theorem absent_value_gives_empty_column (wiki_client : client) (h : heap)
    (r : loc) (d : gmap string val) (qids : list string)
    (speaker_qid column_name : string) (speakers_attributes : DataFrame)
    (inplace ignore_existing is_qid : bool) :
  quote_at h r d qids ->
  ignore_existing = true \/ d !! column_name = None ->
  column_name <> "qids" ->
  get_min_qid (VStr <$> qids) = Ok speaker_qid ->
  row_value speakers_attributes speaker_qid column_name CNone ->
  exists (h' : heap) (q nl : loc),
    add_wikidata_column_to_quote wiki_client r column_name
      speakers_attributes inplace ignore_existing is_qid h = (h', Ok q) /\
    h' !! q = Some (ODict (<[column_name := VRef nl]> d)) /\
    h !! nl = None /\
    h' !! nl = Some (OList []) /\
    forall l o, l <> r -> h !! l = Some o -> h' !! l = Some o.
Proof.
  intros Hquote Hguard Hne Hmin Hrow. pose proof Hquote as [Hr _].
  exists (prepared h r d column_name inplace).1,
         (prepared h r d column_name inplace).2, (new_list_loc h inplace).
  split; [| split; [| split; [| split]]].
  - apply (add_wikidata_column_to_quote_row _ _ _ _ qids speaker_qid
             _ _ _ _ _ CNone); assumption.
  - apply prepared_record. exact Hr.
  - apply new_list_fresh.
  - apply prepared_new_list. exact Hr.
  - intros l o Hl Hlo. rewrite prepared_frame; [exact Hlo | | right; exact Hl].
    apply lookup_lt_Some in Hlo. exact Hlo.
Qed.

Lemma example_quote_at : quote_at example_store 1 example_record ["Q42"; "Q5"].
Proof.
  split; [reflexivity |]. exists 0. split; [| reflexivity].
  vm_compute. reflexivity.
Defined.

Lemma example_row_Q5 (column_name : string) (c : cell) (series : list cell) :
  example_table !! column_name = Some series ->
  series !! 1 = Some c ->
  row_value example_table "Q5" column_name c.
Proof.
  intros Hseries Hc.
  apply (row_value_strings _ _ _ ["Q42"; "Q5"] series 1);
    [vm_compute; reflexivity | exact Hseries | reflexivity | | exact Hc].
  intros [| j] Hj; [discriminate | lia].
Defined.

Lemma absent_value_gives_empty_column_witness :
  exists (h' : heap) (q nl : loc),
    add_wikidata_column_to_quote example_client 1 "date_of_birth"
      example_table false true false example_store = (h', Ok q) /\
    h' !! q = Some (ODict (<["date_of_birth" := VRef nl]> example_record)) /\
    example_store !! nl = None /\
    h' !! nl = Some (OList []) /\
    forall l o, l <> 1 -> example_store !! l = Some o -> h' !! l = Some o.
Proof.
  apply (absent_value_gives_empty_column example_client example_store 1
           example_record ["Q42"; "Q5"] "Q5" "date_of_birth" example_table
           false true false).
  - exact example_quote_at.
  - left. reflexivity.
  - discriminate.
  - vm_compute. reflexivity.
  - apply (example_row_Q5 "date_of_birth" CNone
             [CArr ["+1952-03-11T00:00:00Z"]; CNone]);
      [vm_compute; reflexivity | reflexivity].
Defined.

(** C1 as stated does not hold: in the scenario of the specification (the
    row of "Q5" has no date of birth) the returned record does have the
    field [date_of_birth]. *)
Lemma absent_value_field_is_set :
  ~ (exists (h' : heap) (q : loc) (d' : gmap string val),
       add_wikidata_column_to_quote example_client 1 "date_of_birth"
         example_table false true false example_store = (h', Ok q) /\
       h' !! q = Some (ODict d') /\
       d' !! "date_of_birth" = None).
Proof.
  intros (h' & q & d' & Hrun & Hq & Hnone).
  rewrite (add_wikidata_column_to_quote_row example_client example_store 1
             example_record ["Q42"; "Q5"] "Q5" "date_of_birth" example_table
             false true false CNone) in Hrun.
  - cbv zeta in Hrun. injection Hrun as <- <-.
    cbn [lookup list_lookup] in Hq. injection Hq as <-. rewrite lookup_insert_eq in Hnone. discriminate.
  - exact example_quote_at.
  - left. reflexivity.
  - discriminate.
  - vm_compute. reflexivity.
  - apply (example_row_Q5 "date_of_birth" CNone
             [CArr ["+1952-03-11T00:00:00Z"]; CNone]);
      [vm_compute; reflexivity | reflexivity].
Qed.

(** For the column [qids] itself the function empties the identifiers
    before it reads them, and the call ends in the error of [min] on an empty
    sequence. *)
Lemma qids_column_raises (wiki_client : client) (h : heap) (r : loc)
    (d : gmap string val) (speakers_attributes : DataFrame)
    (inplace is_qid : bool) :
  h !! r = Some (ODict d) ->
  Frame.has_column speakers_attributes "qids" = true ->
  exists h',
    add_wikidata_column_to_quote wiki_client r "qids" speakers_attributes
      inplace true is_qid h = (h', Err ValueError_min).
Proof.
  intros Hr Hcol. eexists.
  rewrite (add_wikidata_column_to_quote_run _ _ _ _ _ _ _ _ _ Hr), Hcol.
  cbn [negb andb]. cbv zeta.
  rewrite (read_qids_prepared_qids _ _ _ _ Hr). reflexivity.
Qed.

(** C3.  With [is_qid = true] the column receives the ordered sequence of
    the resolved labels.  For every record, column and table whose row of the
    minimum QID holds an array of identifiers in that column, the returned
    record has the column bound to a new list with the label of each distinct
    identifier of the array that the label service resolves, in the order
    of the array (an identifier that is repeated counts at its first
    place); when the array has no repetition these are the labels of its
    resolved identifiers, one for one.  In the scenario of the specification
    (identifiers "Q42" and "Q5", a row for "Q5" with the gender
    ["Q6581097"], a label service that maps "Q6581097" to "male") the field
    [gender] of the returned record is bound to the list ["male"]. *)
Theorem resolved_labels_assigned_in_order (wiki_client : client) (h : heap)
    (r : loc) (d : gmap string val) (qids : list string)
    (speakers_attributes : DataFrame) (inplace ignore_existing : bool) :
  quote_at h r d qids ->
  (forall (speaker_qid column_name : string) (items : list string),
     ignore_existing = true \/ d !! column_name = None ->
     column_name <> "qids" ->
     get_min_qid (VStr <$> qids) = Ok speaker_qid ->
     row_value speakers_attributes speaker_qid column_name (CArr items) ->
     exists (h' : heap) (q nl : loc),
       add_wikidata_column_to_quote wiki_client r column_name
         speakers_attributes inplace ignore_existing true h = (h', Ok q) /\
       h' !! q = Some (ODict (<[column_name := VRef nl]> d)) /\
       h !! nl = None /\
       h' !! nl
       = Some (OList (VStr <$> omap wiki_client (first_occurrences items))) /\
       (NoDup items ->
        h' !! nl = Some (OList (VStr <$> omap wiki_client items)))) /\
  (qids ≡ₚ ["Q42"; "Q5"] ->
   ignore_existing = true \/ d !! "gender" = None ->
   row_value speakers_attributes "Q5" "gender" (CArr ["Q6581097"]) ->
   wiki_client "Q6581097" = Some "male" ->
   exists (h' : heap) (q nl : loc) (d' : gmap string val),
     add_wikidata_column_to_quote wiki_client r "gender" speakers_attributes
       inplace ignore_existing true h = (h', Ok q) /\
     h' !! q = Some (ODict d') /\
     d' !! "gender" = Some (VRef nl) /\
     h' !! nl = Some (OList [VStr "male"])).
Proof.
  intros Hquote. pose proof Hquote as [Hr _].
  assert (Hrun : forall speaker_qid column_name items,
            ignore_existing = true \/ d !! column_name = None ->
            column_name <> "qids" ->
            get_min_qid (VStr <$> qids) = Ok speaker_qid ->
            row_value speakers_attributes speaker_qid column_name
              (CArr items) ->
            add_wikidata_column_to_quote wiki_client r column_name
              speakers_attributes inplace ignore_existing true h
            = (<[new_list_loc h inplace :=
                   OList (VStr <$> omap wiki_client
                                     (first_occurrences items))]>
                 (prepared h r d column_name inplace).1,
               Ok (prepared h r d column_name inplace).2)).
  { intros speaker_qid column_name items Hguard Hne Hmin Hrow.
    rewrite (add_wikidata_column_to_quote_row _ _ _ d qids speaker_qid
               column_name _ _ _ _ (CArr items)); try assumption.
    cbv zeta. rewrite map_qids_to_labels_values. reflexivity. }
  split.
  - intros speaker_qid column_name items Hguard Hne Hmin Hrow.
    eexists _, _, (new_list_loc h inplace).
    split; [exact (Hrun _ _ _ Hguard Hne Hmin Hrow) |].
    split; [apply final_record; exact Hr |].
    split; [apply new_list_fresh |].
    split; [apply final_new_list |].
    intros Hnodup. rewrite <- (first_occurrences_NoDup _ Hnodup) at 2.
    apply final_new_list.
  - intros Hperm Hguard Hrow Hmale.
    assert (Hmin : get_min_qid (VStr <$> qids) = Ok "Q5").
    { symmetry in Hperm. apply Permutation_length_2_inv in Hperm.
      destruct Hperm as [-> | ->]; vm_compute; reflexivity. }
    eexists _, _, (new_list_loc h inplace), _.
    split; [| split; [| split]].
    + rewrite (Hrun "Q5" "gender" ["Q6581097"]); try assumption;
        [| discriminate].
      cbn [first_occurrences List.filter omap list_omap].
      rewrite Hmale. cbn [fmap list_fmap]. reflexivity.
    + apply final_record. exact Hr.
    + apply lookup_insert_eq.
    + apply final_new_list.
Qed.

(** A table with three identifiers in the gender of "Q5", the second of
    which the label service of the examples does not know. *)
Lemma example_row_three :
  row_value
    {[ "id" := [CStr "Q42"; CStr "Q5"];
       "gender" := [CNone; CArr ["Q6581072"; "Q404"; "Q6581097"]] ]}
    "Q5" "gender" (CArr ["Q6581072"; "Q404"; "Q6581097"]).
Proof.
  apply (row_value_strings _ _ _ ["Q42"; "Q5"]
           [CNone; CArr ["Q6581072"; "Q404"; "Q6581097"]] 1);
    try (vm_compute; reflexivity).
  intros [| j] Hj; [discriminate | lia].
Defined.

Lemma resolved_labels_assigned_in_order_witness :
  (exists (h' : heap) (q nl : loc),
     add_wikidata_column_to_quote example_client 1 "gender"
       {[ "id" := [CStr "Q42"; CStr "Q5"];
          "gender" := [CNone; CArr ["Q6581072"; "Q404"; "Q6581097"]] ]}
       false true true example_store = (h', Ok q) /\
     h' !! q = Some (ODict (<["gender" := VRef nl]> example_record)) /\
     example_store !! nl = None /\
     h' !! nl = Some (OList [VStr "female"; VStr "male"])) /\
  (exists (h' : heap) (q nl : loc) (d' : gmap string val),
     add_wikidata_column_to_quote example_client 1 "gender" example_table
       false true true example_store = (h', Ok q) /\
     h' !! q = Some (ODict d') /\
     d' !! "gender" = Some (VRef nl) /\
     h' !! nl = Some (OList [VStr "male"])).
Proof.
  split.
  - destruct (resolved_labels_assigned_in_order example_client example_store
                1 example_record ["Q42"; "Q5"]
                {[ "id" := [CStr "Q42"; CStr "Q5"];
                   "gender" := [CNone;
                                CArr ["Q6581072"; "Q404"; "Q6581097"]] ]}
                false true example_quote_at) as [Hgeneral _].
    destruct (Hgeneral "Q5" "gender" ["Q6581072"; "Q404"; "Q6581097"])
      as (h' & q & nl & Hrun & Hq & Hnew & Hlabels & _).
    + left. reflexivity.
    + discriminate.
    + vm_compute. reflexivity.
    + exact example_row_three.
    + exists h', q, nl. repeat split; assumption.
  - destruct (resolved_labels_assigned_in_order example_client example_store
                1 example_record ["Q42"; "Q5"] example_table false true
                example_quote_at) as [_ Hscenario].
    apply Hscenario.
    + reflexivity.
    + left. reflexivity.
    + apply (example_row_Q5 "gender" (CArr ["Q6581097"])
               [CArr ["Q6581072"]; CArr ["Q6581097"]]);
        [vm_compute; reflexivity | reflexivity].
    + reflexivity.
Defined.

(** C6.  Called with [ignore_existing = false] on a record that already
    has the target field, the function raises the naming-collision
    exception, whatever the table and the other flags; every object of the
    store, the record included, is as it was, and in place the store is the
    same store. *)
Theorem existing_column_raises (wiki_client : client) (h : heap) (r : loc)
    (d : gmap string val) (column_name : string)
    (speakers_attributes : DataFrame) (inplace is_qid : bool) :
  h !! r = Some (ODict d) ->
  is_Some (d !! column_name) ->
  exists h' : heap,
    add_wikidata_column_to_quote wiki_client r column_name
      speakers_attributes inplace false is_qid h
    = (h', Err (Exception_ (already_exists_msg column_name))) /\
    (forall l o, h !! l = Some o -> h' !! l = Some o) /\
    (inplace = true -> h' = h).
Proof.
  intros Hr Hfield.
  exists (if inplace then h else h ++ [ODict d]).
  rewrite (add_wikidata_column_to_quote_run _ _ _ _ _ _ _ _ _ Hr).
  rewrite bool_decide_eq_true_2 by exact Hfield.
  split; [reflexivity |]. split.
  - intros l o Hl. destruct inplace; [exact Hl |].
    apply lookup_app_l_Some. exact Hl.
  - intros ->. reflexivity.
Qed.

Lemma existing_column_raises_witness :
  exists h' : heap,
    add_wikidata_column_to_quote example_client 1 "speaker" example_table
      true false true example_store
    = (h', Err (Exception_ (already_exists_msg "speaker"))) /\
    (forall l o, example_store !! l = Some o -> h' !! l = Some o) /\
    (true = true -> h' = example_store).
Proof.
  apply (existing_column_raises example_client example_store 1
           example_record "speaker" example_table true true).
  - reflexivity.
  - exists (VStr "Douglas Adams"). vm_compute. reflexivity.
Defined.

(** One call on a record whose minimum QID has a row in the table, with
    nothing or an array in the column: the call returns, and the new list of
    the column holds the labels of the cell. *)
Lemma add_with_row_run (wiki_client : client) (h : heap) (r : loc)
    (d : gmap string val) (qids : list string)
    (speaker_qid column_name : string) (speakers_attributes : DataFrame)
    (inplace ignore_existing is_qid : bool) (c : cell) :
  quote_at h r d qids ->
  ignore_existing = true \/ d !! column_name = None ->
  column_name <> "qids" ->
  get_min_qid (VStr <$> qids) = Ok speaker_qid ->
  row_value speakers_attributes speaker_qid column_name c ->
  (forall s, c <> CStr s) ->
  add_wikidata_column_to_quote wiki_client r column_name speakers_attributes
    inplace ignore_existing is_qid h
  = (<[new_list_loc h inplace :=
         OList (VStr <$> cell_labels wiki_client is_qid c)]>
       (prepared h r d column_name inplace).1,
     Ok (prepared h r d column_name inplace).2).
Proof.
  intros Hquote Hguard Hne Hmin Hrow Hcell. pose proof Hquote as [Hr _].
  rewrite (add_wikidata_column_to_quote_row _ _ _ d qids speaker_qid
             column_name _ _ _ _ c); try assumption.
  cbv zeta. destruct c as [| s | items].
  - cbn [cell_labels fmap list_fmap].
    rewrite list_insert_id; [reflexivity |].
    apply prepared_new_list. exact Hr.
  - exfalso. exact (Hcell s eq_refl).
  - cbn [cell_labels]. rewrite map_qids_to_labels_values. reflexivity.
Qed.

(** C9.  With [inplace = false] every object of the original store, the
    input record included, is unchanged whatever the outcome, and a returned
    record agrees with the input record on every field but the target
    column.  With [inplace = true] the returned reference is the input
    reference, and the object behind it has been updated: its target column
    is bound to a list that did not exist before the call.  And the calls do
    return: on a record whose minimum QID has a row in the table, with
    nothing or an array in the target column, the call that copies returns a
    new record and leaves the input record as it was, while the call in place
    returns the input record, which now has the column bound to the new list
    of labels and so is no longer what it was. *)
Theorem inplace_selects_copy_or_update (wiki_client : client) (h : heap)
    (r : loc) (d : gmap string val) (column_name : string)
    (speakers_attributes : DataFrame) (ignore_existing is_qid : bool) :
  h !! r = Some (ODict d) ->
  (forall h' res,
     add_wikidata_column_to_quote wiki_client r column_name
       speakers_attributes false ignore_existing is_qid h = (h', res) ->
     (forall l o, h !! l = Some o -> h' !! l = Some o) /\
     (forall q, res = Ok q ->
        exists d', h' !! q = Some (ODict d') /\
                   forall k, k <> column_name -> d' !! k = d !! k)) /\
  (forall h' q,
     add_wikidata_column_to_quote wiki_client r column_name
       speakers_attributes true ignore_existing is_qid h = (h', Ok q) ->
     q = r /\
     exists nl, h !! nl = None /\
                h' !! r = Some (ODict (<[column_name := VRef nl]> d)) /\
                exists items, h' !! nl = Some (OList items)) /\
  (forall (qids : list string) (speaker_qid : string) (c : cell),
     quote_at h r d qids ->
     ignore_existing = true \/ d !! column_name = None ->
     column_name <> "qids" ->
     get_min_qid (VStr <$> qids) = Ok speaker_qid ->
     row_value speakers_attributes speaker_qid column_name c ->
     (forall s, c <> CStr s) ->
     (exists (h' : heap) (q nl : loc),
        add_wikidata_column_to_quote wiki_client r column_name
          speakers_attributes false ignore_existing is_qid h = (h', Ok q) /\
        h !! q = None /\
        h' !! r = Some (ODict d) /\
        h' !! q = Some (ODict (<[column_name := VRef nl]> d)) /\
        h !! nl = None /\
        h' !! nl
        = Some (OList (VStr <$> cell_labels wiki_client is_qid c))) /\
     (exists (h' : heap) (nl : loc),
        add_wikidata_column_to_quote wiki_client r column_name
          speakers_attributes true ignore_existing is_qid h = (h', Ok r) /\
        h !! nl = None /\
        h' !! r = Some (ODict (<[column_name := VRef nl]> d)) /\
        h' !! nl
        = Some (OList (VStr <$> cell_labels wiki_client is_qid c)) /\
        (heap_closed h -> h' !! r <> h !! r))).
Proof.
  intros Hr. split; [| split].
  - intros h' res Hrun.
    destruct (add_wikidata_column_to_quote_outcome _ _ _ _ _ _ _ _ _ Hr
                _ _ Hrun) as [Hframe Hok].
    split; [intros l o Hl; apply Hframe; [exact Hl | left; reflexivity] |].
    intros q ->. destruct (Hok q eq_refl) as (-> & _ & labels & _ & ->).
    eexists. split; [apply final_record; exact Hr |].
    intros k Hk. apply lookup_insert_ne. congruence.
  - intros h' q Hrun.
    destruct (add_wikidata_column_to_quote_outcome _ _ _ _ _ _ _ _ _ Hr
                _ _ Hrun) as [_ Hok].
    destruct (Hok q eq_refl) as (-> & _ & labels & _ & ->).
    split; [reflexivity |]. exists (new_list_loc h true).
    split; [apply new_list_fresh |]. split.
    + apply (final_record h r d column_name true Hr).
    + eexists. apply final_new_list.
  - intros qids speaker_qid c Hquote Hguard Hne Hmin Hrow Hcell. split.
    + exists (<[new_list_loc h false :=
                  OList (VStr <$> cell_labels wiki_client is_qid c)]>
                (prepared h r d column_name false).1),
             (length h), (new_list_loc h false).
      split; [| split; [| split; [| split; [| split]]]].
      * apply (add_with_row_run _ _ _ d qids speaker_qid column_name _
                 false _ _ c); assumption.
      * apply lookup_ge_None. lia.
      * apply (final_frame h r d column_name false);
          [exact Hr | left; reflexivity].
      * apply (final_record h r d column_name false Hr).
      * apply new_list_fresh.
      * apply final_new_list.
    + exists (<[new_list_loc h true :=
                  OList (VStr <$> cell_labels wiki_client is_qid c)]>
                (prepared h r d column_name true).1),
             (new_list_loc h true).
      split; [| split; [| split; [| split]]].
      * apply (add_with_row_run _ _ _ d qids speaker_qid column_name _
                 true _ _ c); assumption.
      * apply new_list_fresh.
      * apply (final_record h r d column_name true Hr).
      * apply final_new_list.
      * intros Hclosed.
        rewrite (final_record h r d column_name true Hr), Hr.
        intros [= Hsame].
        assert (Hcol : d !! column_name = Some (VRef (new_list_loc h true))).
        { rewrite <- Hsame. apply lookup_insert_eq. }
        pose proof (Hclosed r _ Hr column_name _ Hcol) as Hlt.
        simpl in Hlt. lia.
Qed.

Lemma example_store_closed : heap_closed example_store.
Proof.
  intros [| [| l]] o Hl; simpl in Hl; try discriminate; injection Hl as <-.
  - intros v Hv. apply elem_of_cons in Hv as [-> | Hv]; [exact I |].
    apply list_elem_of_singleton in Hv as ->. exact I.
  - intros k v Hk. unfold example_record in Hk.
    apply lookup_insert_Some in Hk as [[_ <-] | [_ Hk]]; [exact I |].
    apply lookup_singleton_Some in Hk as [_ <-]. simpl. lia.
Defined.

Lemma inplace_selects_copy_or_update_witness :
  (exists (h' : heap) (q nl : loc),
     add_wikidata_column_to_quote example_client 1 "gender" example_table
       false true true example_store = (h', Ok q) /\
     example_store !! q = None /\
     h' !! 1%nat = Some (ODict example_record) /\
     h' !! q = Some (ODict (<["gender" := VRef nl]> example_record)) /\
     example_store !! nl = None /\
     h' !! nl = Some (OList [VStr "male"])) /\
  (exists (h' : heap) (nl : loc),
     add_wikidata_column_to_quote example_client 1 "gender" example_table
       true true true example_store = (h', Ok 1%nat) /\
     example_store !! nl = None /\
     h' !! 1%nat = Some (ODict (<["gender" := VRef nl]> example_record)) /\
     h' !! nl = Some (OList [VStr "male"]) /\
     h' !! 1%nat <> example_store !! 1%nat).
Proof.
  destruct (inplace_selects_copy_or_update example_client example_store 1
              example_record "gender" example_table true true eq_refl)
    as (_ & _ & Hruns).
  destruct (Hruns ["Q42"; "Q5"] "Q5" (CArr ["Q6581097"]))
    as [Hcopy (h' & nl & Hrun & Hnew & Hrecord & Hlabels & Hupdated)].
  - exact example_quote_at.
  - left. reflexivity.
  - discriminate.
  - vm_compute. reflexivity.
  - apply (example_row_Q5 "gender" (CArr ["Q6581097"])
             [CArr ["Q6581072"]; CArr ["Q6581097"]]);
      [vm_compute; reflexivity | reflexivity].
  - discriminate.
  - split; [exact Hcopy |]. exists h', nl.
    repeat split; try assumption. apply Hupdated.
    exact example_store_closed.
Defined.

(** C10.  The function completes only when the record's minimum QID has a
    row in the table: a call that returns found a row whose identifier cell
    equals it (the cell is that string, or an array whose one item is that
    string); when the guards pass but every identifier cell of the table is
    unequal to it, the call ends in the [IndexError] of [values[0]], which
    nothing in the function catches; and with such a row in the table the
    call does not end in that error. *)
Theorem row_of_minimum_qid_required (wiki_client : client) (h : heap)
    (r : loc) (d : gmap string val) (qids : list string)
    (speaker_qid column_name : string) (speakers_attributes : DataFrame)
    (inplace ignore_existing is_qid : bool) :
  quote_at h r d qids ->
  get_min_qid (VStr <$> qids) = Ok speaker_qid ->
  (forall h' q,
     add_wikidata_column_to_quote wiki_client r column_name
       speakers_attributes inplace ignore_existing is_qid h = (h', Ok q) ->
     exists ids i key, speakers_attributes !! "id" = Some ids /\
                       ids !! i = Some key /\
                       id_equal key speaker_qid) /\
  (forall ids,
     ignore_existing = true \/ d !! column_name = None ->
     column_name <> "qids" ->
     is_Some (speakers_attributes !! column_name) ->
     speakers_attributes !! "id" = Some ids ->
     (forall i key, ids !! i = Some key -> id_unequal key speaker_qid) ->
     exists h',
       add_wikidata_column_to_quote wiki_client r column_name
         speakers_attributes inplace ignore_existing is_qid h
       = (h', Err IndexError)) /\
  (forall c h',
     ignore_existing = true \/ d !! column_name = None ->
     column_name <> "qids" ->
     row_value speakers_attributes speaker_qid column_name c ->
     add_wikidata_column_to_quote wiki_client r column_name
       speakers_attributes inplace ignore_existing is_qid h
     <> (h', Err IndexError)).
Proof.
  intros Hquote Hmin. pose proof Hquote as [Hr (lq & Hd & Hlq)].
  split; [| split].
  - intros h' q Hrun.
    destruct (add_wikidata_column_to_quote_outcome _ _ _ _ _ _ _ _ _ Hr
                _ _ Hrun) as [_ Hok].
    destruct (Hok q eq_refl) as (_ & _ & labels & Hlabels & _).
    destruct (decide (column_name = "qids")) as [-> | Hne].
    + rewrite (read_qids_prepared_qids _ _ _ _ Hr) in Hlabels.
      discriminate Hlabels.
    + rewrite (read_qids_prepared _ _ _ _ _ _ _ Hr Hd Hlq Hne) in Hlabels.
      apply enrich_labels_inv in Hlabels
        as (sq & ids & series & i & key & c & Hsq & Hids & _ & Hi & Hkey & _).
      rewrite Hsq in Hmin. injection Hmin as ->.
      exists ids, i, key. repeat split; assumption.
  - intros ids Hguard Hne [series Hseries] Hids Hnone.
    eexists. rewrite (add_wikidata_column_to_quote_run _ _ _ _ _ _ _ _ _ Hr).
    rewrite (guards_pass _ _ _ Hguard), (has_column_Some _ _ _ Hseries).
    cbv zeta.
    rewrite (read_qids_prepared _ _ _ _ _ _ _ Hr Hd Hlq Hne).
    unfold enrich_labels.
    rewrite result_bind_ok, Hmin, result_bind_ok.
    rewrite (frame_column_eq _ "id"), Hids, result_bind_ok.
    destruct (select_none ids series speaker_qid Hnone) as (mask & -> & Hsel).
    rewrite result_bind_ok, frame_rows_column, Hseries, result_bind_ok, Hsel.
    reflexivity.
  - intros c h' Hguard Hne Hrow.
    rewrite (add_wikidata_column_to_quote_row _ _ _ d qids speaker_qid
               column_name _ _ _ _ c) by assumption.
    cbv zeta. destruct c; intros [= _ ?]; discriminate.
Qed.

Lemma row_of_minimum_qid_required_witness :
  (exists h',
     add_wikidata_column_to_quote example_client 1 "gender"
       example_table_no_Q5 false true true example_store
     = (h', Err IndexError)) /\
  (forall h',
     add_wikidata_column_to_quote example_client 1 "gender"
       example_table_array_id false true true example_store
     <> (h', Err IndexError)).
Proof.
  split.
  - destruct (row_of_minimum_qid_required example_client example_store 1
                example_record ["Q42"; "Q5"] "Q5" "gender"
                example_table_no_Q5 false true true) as (_ & Hno_row & _).
    + exact example_quote_at.
    + vm_compute. reflexivity.
    + apply (Hno_row [CStr "Q42"]).
      * left. reflexivity.
      * discriminate.
      * exists [CArr ["Q6581072"]]. vm_compute. reflexivity.
      * vm_compute. reflexivity.
      * intros [| i] key Hi; [| discriminate Hi].
        injection Hi as <-. discriminate.
  - destruct (row_of_minimum_qid_required example_client example_store 1
                example_record ["Q42"; "Q5"] "Q5" "gender"
                example_table_array_id false true true) as (_ & _ & Hrow).
    + exact example_quote_at.
    + vm_compute. reflexivity.
    + intros h'. apply (Hrow (CArr ["Q6581097"])).
      * left. reflexivity.
      * discriminate.
      * exists [CArr ["Q5"]], [CArr ["Q6581097"]], 0, (CArr ["Q5"]).
        split; [vm_compute; reflexivity |].
        split; [vm_compute; reflexivity |].
        split; [| split; [reflexivity | split; [right; reflexivity |
                 split; [intros j k Hj; lia | reflexivity]]]].
        intros [| j] k Hj; [| discriminate Hj].
        injection Hj as <-. left. right. reflexivity.
Defined.

(** On that table the call returns the record with the label of "Q5". *)
Remark array_id_selects_row :
  exists h' nl,
    add_wikidata_column_to_quote example_client 1 "gender"
      example_table_array_id true true true example_store = (h', Ok 1) /\
    h' !! 1 = Some (ODict (<["gender" := VRef nl]> example_record)) /\
    h' !! nl = Some (OList [VStr "male"]).
Proof. eexists _, _. vm_compute. repeat split. Qed.

(** An identifier cell that is an array of two items makes the comparison
    raise, whatever the identifier looked for. *)
Remark long_array_id_raises :
  exists h',
    add_wikidata_column_to_quote example_client 1 "gender"
      {[ "id" := [CStr "Q5"; CArr ["Q5"; "Q42"]];
         "gender" := [CArr ["Q6581097"]; CNone] ]}
      true true true example_store = (h', Err ValueError_truth).
Proof. eexists. vm_compute. reflexivity. Qed.

(** ** Closed stores and contents *)

Lemma val_closed_mono (n m : nat) (v : val) :
  n <= m -> val_closed n v -> val_closed m v.
Proof. destruct v; simpl; try tauto. lia. Qed.

Lemma obj_closed_mono (n m : nat) (o : obj) :
  n <= m -> obj_closed n o -> obj_closed m o.
Proof.
  intros Hle. destruct o as [xs | d]; simpl.
  - intros H v Hv. eapply val_closed_mono; [exact Hle | auto].
  - intros H k v Hk. eapply val_closed_mono; [exact Hle | eauto].
Qed.

(** The function keeps the store closed. *)
Lemma final_closed (h : heap) (r : loc) (d : gmap string val)
    (column_name : string) (inplace : bool) (labels : list string) :
  heap_closed h ->
  h !! r = Some (ODict d) ->
  heap_closed (<[new_list_loc h inplace := OList (VStr <$> labels)]>
                 (prepared h r d column_name inplace).1).
Proof.
  intros Hclosed Hr l o Hl.
  set (nl := new_list_loc h inplace) in *.
  set (p := prepared h r d column_name inplace) in *.
  assert (Hlen : length (<[nl := OList (VStr <$> labels)]> p.1) = S nl).
  { rewrite length_insert. apply prepared_length. }
  assert (Hh : length h <= S nl).
  { subst nl. destruct inplace; simpl; lia. }
  rewrite Hlen. pose proof (lookup_lt_Some _ _ _ Hl) as Hlt.
  rewrite Hlen in Hlt.
  destruct (decide (l = nl)) as [-> | Hnl].
  - subst nl p. rewrite final_new_list in Hl. injection Hl as <-.
    intros v Hv. apply list_elem_of_fmap in Hv as (s & -> & _). exact I.
  - destruct (decide (l = p.2)) as [-> | Hp].
    + subst p nl. rewrite (final_record h r d column_name inplace Hr) in Hl.
      injection Hl as <-. intros k v Hk.
      destruct (decide (k = column_name)) as [-> | Hk'].
      * rewrite lookup_insert_eq in Hk. injection Hk as <-. simpl. lia.
      * rewrite lookup_insert_ne in Hk by congruence.
        eapply val_closed_mono; [exact Hh |].
        apply (Hclosed r (ODict d) Hr k v Hk).
    + assert (Hlh : l < length h /\ (inplace = false \/ l <> r)).
      { subst nl p. destruct inplace; simpl in *.
        - split; [lia | right; congruence].
        - split; [lia | left; reflexivity]. }
      destruct Hlh as [Hlh Hcase].
      rewrite list_lookup_insert_ne in Hl by congruence.
      subst p. rewrite prepared_frame in Hl by assumption.
      eapply obj_closed_mono; [exact Hh |]. exact (Hclosed l o Hl).
Qed.

Lemma snapshot_strings (n : nat) (h : heap) (items : list string) :
  snapshot n h <$> (VStr <$> items) = TStr <$> items.
Proof.
  rewrite <- list_fmap_compose. apply list_fmap_ext.
  intros i s _. destruct n; reflexivity.
Qed.

Section snapshot_agree.
Variables (h1 h2 : heap) (r1 : loc) (d1 : gmap string val)
          (column_name : string) (nl1 nl2 : loc) (items : list string)
          (update : bool).
Hypothesis Hclosed : heap_closed h1.
Hypothesis Hr1 : h1 !! r1 = Some (ODict d1).
Hypothesis Hcol : d1 !! column_name = Some (VRef nl1).
Hypothesis Hnl1 : h1 !! nl1 = Some (OList (VStr <$> items)).
Hypothesis Hnl2 : h2 !! nl2 = Some (OList (VStr <$> items)).
Hypothesis Hsame :
  forall l, l < length h1 -> update = false \/ l <> r1 -> h2 !! l = h1 !! l.
Hypothesis Hupdate :
  update = true ->
  h2 !! r1 = Some (ODict (<[column_name := VRef nl2]> d1)).

(** The two lists of the column hold the same strings. *)
Lemma snapshot_new_list (n : nat) :
  snapshot n h2 (VRef nl2) = snapshot n h1 (VRef nl1).
Proof.
  destruct n as [| n]; [reflexivity |]. cbn [snapshot].
  rewrite Hnl1, Hnl2, !snapshot_strings. reflexivity.
Qed.

(** Binding the column to the second list does not change the contents of
    the record. *)
Lemma snapshot_rebound (n : nat) :
  (forall v, val_closed (length h1) v -> snapshot n h2 v = snapshot n h1 v) ->
  snapshot n h2 <$> <[column_name := VRef nl2]> d1 = snapshot n h1 <$> d1.
Proof.
  intros IH. apply map_eq. intros k. rewrite !lookup_fmap.
  destruct (decide (k = column_name)) as [-> | Hk].
  - rewrite lookup_insert_eq, Hcol. simpl. f_equal. apply snapshot_new_list.
  - rewrite lookup_insert_ne by congruence.
    destruct (d1 !! k) as [v |] eqn:Hv; [| reflexivity]. simpl. f_equal.
    apply IH. exact (Hclosed r1 (ODict d1) Hr1 k v Hv).
Qed.

(** Every value of the first store has the same contents in the second. *)
Lemma snapshot_agree (n : nat) (v : val) :
  val_closed (length h1) v -> snapshot n h2 v = snapshot n h1 v.
Proof.
  revert v. induction n as [| n IH]; intros v Hv.
  - destruct v; reflexivity.
  - destruct v as [| | | | l]; try reflexivity. simpl in Hv.
    destruct (decide (update = true /\ l = r1)) as [[Hu ->] | Hother].
    + cbn [snapshot]. rewrite (Hupdate Hu), Hr1. f_equal.
      apply snapshot_rebound. exact IH.
    + assert (Hcase : update = false \/ l <> r1).
      { destruct update; [right | left; reflexivity].
        intros ->. apply Hother. split; reflexivity. }
      cbn [snapshot]. rewrite (Hsame l Hv Hcase).
      destruct (h1 !! l) as [[xs | d] |] eqn:Hl; [| | reflexivity].
      * f_equal. apply list_fmap_ext. intros i x Hx. apply IH.
        apply (Hclosed l (OList xs) Hl). eapply list_elem_of_lookup_2, Hx.
      * f_equal. apply map_fmap_ext. intros k x Hx. apply IH.
        exact (Hclosed l (ODict d) Hl k x Hx).
Qed.
End snapshot_agree.

(** C7.  Enriching an already enriched record again, with
    [ignore_existing = true] and the same column, table and label service,
    succeeds and returns a record with the same contents as the record
    enriched once (at every depth), whether the second call updates in place
    or copies. *)
Theorem enrichment_idempotent (wiki_client : client) (h0 : heap) (r0 : loc)
    (d0 : gmap string val) (qids : list string) (column_name : string)
    (speakers_attributes : DataFrame)
    (inplace1 ignore_existing1 inplace2 is_qid : bool)
    (h1 : heap) (r1 : loc) :
  heap_closed h0 ->
  quote_at h0 r0 d0 qids ->
  add_wikidata_column_to_quote wiki_client r0 column_name
    speakers_attributes inplace1 ignore_existing1 is_qid h0 = (h1, Ok r1) ->
  exists (h2 : heap) (r2 : loc),
    add_wikidata_column_to_quote wiki_client r1 column_name
      speakers_attributes inplace2 true is_qid h1 = (h2, Ok r2) /\
    forall depth, snapshot depth h2 (VRef r2) = snapshot depth h1 (VRef r1).
Proof.
  intros Hclosed0 [Hr0 (lq & Hd0 & Hlq)] Hrun1.
  destruct (add_wikidata_column_to_quote_outcome _ _ _ _ _ _ _ _ _ Hr0
              _ _ Hrun1) as [_ Hok].
  destruct (Hok r1 eq_refl) as (Hr1eq & _ & labels & Hlabels & Hh1).
  clear Hok Hrun1.
  set (nl1 := new_list_loc h0 inplace1) in *.
  set (d1 := <[column_name := VRef nl1]> d0).
  (* the target column is not the column of the identifiers *)
  assert (Hne : column_name <> "qids").
  { intros ->. rewrite (read_qids_prepared_qids _ _ _ _ Hr0) in Hlabels.
    discriminate Hlabels. }
  rewrite (read_qids_prepared _ _ _ _ _ _ _ Hr0 Hd0 Hlq Hne) in Hlabels.
  (* the record enriched once, and its store *)
  assert (Hr1 : h1 !! r1 = Some (ODict d1)).
  { subst h1 r1 d1 nl1. apply final_record. exact Hr0. }
  assert (Hnl1 : h1 !! nl1 = Some (OList (VStr <$> labels))).
  { subst h1 nl1. apply final_new_list. }
  assert (Hlq1 : h1 !! lq = Some (OList (VStr <$> qids))).
  { subst h1 nl1. apply final_frame; [exact Hlq | right; congruence]. }
  assert (Hclosed1 : heap_closed h1).
  { subst h1 nl1. apply final_closed; assumption. }
  assert (Hd1 : d1 !! "qids" = Some (VRef lq)).
  { subst d1. rewrite lookup_insert_ne by exact Hne. exact Hd0. }
  assert (Hcol1 : d1 !! column_name = Some (VRef nl1)).
  { subst d1. apply lookup_insert_eq. }
  clearbody d1 nl1. clear Hh1 Hr1eq.
  (* the second call *)
  destruct (enrich_labels_inv _ _ _ _ _ _ Hlabels)
    as (sq & ids & series & i & key & c & _ & _ & Hseries & _).
  rewrite (add_wikidata_column_to_quote_run _ _ _ _ _ _ _ _ _ Hr1).
  rewrite (has_column_Some _ _ _ Hseries). cbn [negb andb]. cbv zeta.
  rewrite (read_qids_prepared _ _ _ _ _ _ _ Hr1 Hd1 Hlq1 Hne), Hlabels.
  eexists _, _. split; [reflexivity |].
  set (nl2 := new_list_loc h1 inplace2).
  set (h2 := <[nl2 := OList (VStr <$> labels)]>
               (prepared h1 r1 d1 column_name inplace2).1).
  assert (Hagree : forall n v, val_closed (length h1) v ->
                               snapshot n h2 v = snapshot n h1 v).
  { intros n v Hv.
    apply (snapshot_agree h1 h2 r1 d1 column_name nl1 nl2 labels inplace2);
      try assumption.
    - subst h2 nl2. apply final_new_list.
    - intros l Hl Hcase. destruct (lookup_lt_is_Some_2 _ _ Hl) as [o Ho].
      rewrite Ho. subst h2 nl2. apply final_frame; assumption.
    - intros ->. subst h2 nl2.
      apply (final_record h1 r1 d1 column_name true Hr1). }
  intros depth. destruct inplace2.
  - apply Hagree. simpl. apply lookup_lt_Some in Hr1. exact Hr1.
  - destruct depth as [| n]; [reflexivity |]. cbn [snapshot].
    subst h2 nl2.
    rewrite (final_record h1 r1 d1 column_name false Hr1), Hr1. f_equal.
    apply (snapshot_rebound h1 _ r1 d1 column_name nl1 _ labels);
      try assumption.
    + apply final_new_list.
    + apply Hagree.
Qed.

Lemma enrichment_idempotent_witness :
  exists (h2 : heap) (r2 : loc),
    add_wikidata_column_to_quote example_client 2 "gender" example_table
      true true true example_enriched.1 = (h2, Ok r2) /\
    forall depth,
      snapshot depth h2 (VRef r2)
      = snapshot depth example_enriched.1 (VRef 2).
Proof.
  apply (enrichment_idempotent example_client example_store 1 example_record
           ["Q42"; "Q5"] "gender" example_table false true true true
           example_enriched.1 2).
  - exact example_store_closed.
  - exact example_quote_at.
  - vm_compute. reflexivity.
Defined.

(** ** The filter stage *)

Section filter_facts.
Variable json_loads : string -> result json.
Variable json_dumps : json -> string.

Local Abbreviation record_line := (record_line json_loads).
Local Abbreviation written := (written json_dumps).

Lemma speaker_resolved_test (members : list (string * json)) (speaker : json) :
  PyDict.get "speaker" members = Some speaker ->
  json_eq_str speaker "None" = negb (speaker_resolved members).
Proof.
  intros Hsp. unfold speaker_resolved. rewrite Hsp.
  destruct speaker as [| b | n | s | items | ms]; try reflexivity.
  simpl. rewrite negb_involutive.
  destruct (String.eqb_spec s "None") as [-> | Hne].
  - apply bool_decide_eq_true_2. reflexivity.
  - apply bool_decide_eq_false_2. exact Hne.
Qed.

(** The loop appends, in order, the lines of the records it keeps. *)
Lemma filter_loop_records (s_file : list string)
    (records : list (list (string * json))) :
  Forall2 record_line s_file records ->
  forall d_file,
    filter_loop json_loads json_dumps s_file d_file
    = (d_file ++ (written <$> List.filter speaker_resolved records), Ok tt).
Proof.
  induction 1 as [| line members s_file records [Hload [sp Hsp]] _ IH];
    intros d_file.
  - simpl. rewrite app_nil_r. reflexivity.
  - cbn [filter_loop List.filter]. rewrite Hload. cbn [json_getitem].
    rewrite Hsp, (speaker_resolved_test _ _ Hsp).
    destruct (speaker_resolved members); cbn [negb].
    + rewrite IH, fmap_cons, <- app_assoc. reflexivity.
    + apply IH.
Qed.

(** C4.  On a stream of well-formed record lines the filter stage ends
    without error, and its output holds, in input order, one line for each
    record whose speaker is not ['None'] and no other line; each of these
    lines is the serialisation of its record, and reading it back gives the
    record itself, given that the JSON library reads back what it writes. *)
Theorem filter_keeps_resolved_records (s_file : list string)
    (records : list (list (string * json))) :
  Forall2 record_line s_file records ->
  (forall members, members ∈ records ->
                   json_loads (written members) = Ok (JObject members)) ->
  exists d_file : list string,
    filter_file json_loads json_dumps s_file = (d_file, Ok tt) /\
    Forall2 (fun line members =>
               line = written members /\
               json_loads line = Ok (JObject members))
            d_file (List.filter speaker_resolved records).
Proof.
  intros Hlines Hcodec. eexists. split.
  - unfold filter_file. rewrite (filter_loop_records _ _ Hlines).
    reflexivity.
  - cbn [app]. apply Forall2_fmap_l, Forall_Forall2_diag.
    apply Forall_forall. intros members Hin. split; [reflexivity |].
    apply Hcodec. apply list_elem_of_In.
    apply list_elem_of_In, List.filter_In in Hin as [Hin _]. exact Hin.
Qed.
End filter_facts.

Lemma filter_keeps_resolved_records_witness :
  exists d_file : list string,
    filter_file Json.loads Json.dumps example_lines = (d_file, Ok tt) /\
    Forall2 (fun line members =>
               line = written Json.dumps members /\
               Json.loads line = Ok (JObject members))
            d_file
            (List.filter speaker_resolved
               [example_unresolved; example_resolved]).
Proof.
  apply (filter_keeps_resolved_records Json.loads Json.dumps example_lines
           [example_unresolved; example_resolved]).
  - repeat constructor; try (vm_compute; reflexivity).
    + exists (JStr "None"). vm_compute. reflexivity.
    + exists (JStr "Douglas Adams"). vm_compute. reflexivity.
  - intros members Hin.
    apply elem_of_cons in Hin as [-> | Hin]; [vm_compute; reflexivity |].
    apply list_elem_of_singleton in Hin as ->. vm_compute. reflexivity.
Defined.

(** * Further properties of the code *)

(** ** [get_min_qid] on arbitrary collections *)

Local Open Scope Z_scope.

Lemma qids_int_cons_str (s : string) (rest : list val) :
  qids_int (VStr s :: rest)
  = (n ← PyStr.int (PyStr.remove_char "Q" s);
     ns ← qids_int rest; Ok (n :: ns)).
Proof. reflexivity. Qed.

Lemma int_of_qid_int (s : string) (n : Z) :
  qid_int s = Some n -> PyStr.int (PyStr.remove_char "Q" s) = Ok n.
Proof. unfold qid_int, PyStr.int. intros ->. reflexivity. Qed.









(** Of the characters below the space, [int] skips the five from the tab to
    the carriage return only: an identifier with the unit separator (code 31)
    in front of its number is not read. *)
Remark get_min_qid_separator :
  get_min_qid [VStr (String "Q" (String "031" "5"))]
  = Err (ValueError_int (String "031" "5"))
  /\ get_min_qid [VStr (String "Q" (String "009" "5"))] = Ok "Q5".
Proof. split; vm_compute; reflexivity. Qed.

(** X2.  The first element, in order, that is not a string or does not read
    as an integer decides the error: an [AttributeError] for a value
    without [replace], the [ValueError] of [int] on the text left after
    [replace] otherwise. *)
Theorem get_min_qid_first_bad_element (good : list string) (ns : list Z)
    (bad : val) (rest : list val) :
  Forall2 (fun s n => qid_int s = Some n) good ns ->
  (forall s, bad = VStr s -> qid_int s = None) ->
  get_min_qid ((VStr <$> good) ++ bad :: rest)
  = Err (match bad with
         | VStr s => ValueError_int (PyStr.remove_char "Q" s)
         | _ => AttributeError
         end).
Proof.
  intros Hgood Hbad. unfold get_min_qid.
  assert (Hint : qids_int ((VStr <$> good) ++ bad :: rest)
                 = Err (match bad with
                        | VStr s => ValueError_int (PyStr.remove_char "Q" s)
                        | _ => AttributeError
                        end)).
  { induction Hgood as [| s n good ns Hs _ IH].
    - destruct bad as [| b | n | s | l]; try reflexivity.
      simpl app. rewrite qids_int_cons_str. unfold PyStr.int.
      specialize (Hbad s eq_refl). unfold qid_int in Hbad. rewrite Hbad.
      reflexivity.
    - rewrite fmap_cons, <- app_comm_cons, qids_int_cons_str.
      rewrite (int_of_qid_int _ _ Hs), result_bind_ok, IH. reflexivity. }
  rewrite Hint. reflexivity.
Qed.

Lemma get_min_qid_first_bad_element_witness :
  get_min_qid ((VStr <$> ["Q42"; " Q7 "])
               ++ VStr (String "Q" (String "031" "5")) :: [VStr "Qx"; VInt 3])
  = Err (ValueError_int (String "031" "5")).
Proof.
  apply (get_min_qid_first_bad_element ["Q42"; " Q7 "] [42; 7]
           (VStr (String "Q" (String "031" "5"))) [VStr "Qx"; VInt 3]).
  - repeat constructor.
  - intros s [= <-]. reflexivity.
Defined.

Lemma qids_int_perm (qids qids' : list val) :
  qids ≡ₚ qids' ->
  forall ns, qids_int qids = Ok ns ->
             exists ns', qids_int qids' = Ok ns' /\ ns ≡ₚ ns'.
Proof.
  induction 1 as [| x l l' _ IH | x y l | l l' l'' _ IH1 _ IH2]; intros ns Hns.
  - exists ns. split; [exact Hns | reflexivity].
  - destruct x as [| | | s |]; try discriminate Hns.
    rewrite qids_int_cons_str in Hns |- *.
    destruct (PyStr.int _) as [n | e]; [| discriminate Hns].
    rewrite result_bind_ok in Hns |- *.
    destruct (qids_int l) as [ms | e]; [| discriminate Hns].
    destruct (IH ms eq_refl) as (ms' & -> & Hperm).
    injection Hns as <-. exists (n :: ms'). split; [reflexivity |].
    constructor. exact Hperm.
  - destruct y as [| | | s |]; try discriminate Hns.
    rewrite qids_int_cons_str in Hns.
    destruct (PyStr.int (PyStr.remove_char "Q" s)) as [n | e] eqn:Hs;
      [| discriminate Hns].
    rewrite result_bind_ok in Hns.
    destruct x as [| | | t |]; try discriminate Hns.
    rewrite qids_int_cons_str in Hns.
    destruct (PyStr.int (PyStr.remove_char "Q" t)) as [m | e] eqn:Ht;
      [| discriminate Hns].
    rewrite result_bind_ok in Hns.
    destruct (qids_int l) as [ms | e] eqn:Hl; [| discriminate Hns].
    injection Hns as <-. exists (m :: n :: ms). split; [| constructor].
    rewrite !qids_int_cons_str, Ht, result_bind_ok, Hs, result_bind_ok, Hl.
    reflexivity.
  - destruct (IH1 ns Hns) as (ns' & Hns' & Hp1).
    destruct (IH2 ns' Hns') as (ns'' & Hns'' & Hp2).
    exists ns''. split; [exact Hns'' | etrans; eassumption].
Qed.

Lemma py_min_perm (ns ns' : list Z) (m : Z) :
  ns ≡ₚ ns' -> py_min ns = Ok m -> py_min ns' = Ok m.
Proof.
  intros Hperm Hmin.
  assert (Hne : ns <> []) by (intros ->; discriminate Hmin).
  destruct (py_min_spec ns Hne) as (m1 & Hm1 & Hin1 & Hle1).
  rewrite Hm1 in Hmin. injection Hmin as ->.
  destruct (py_min_spec ns') as (m2 & Hm2 & Hin2 & Hle2).
  { intros ->. apply Permutation_nil_r in Hperm. contradiction. }
  rewrite Hm2. f_equal.
  assert (m <= m2) by (apply Hle1; rewrite Hperm; exact Hin2).
  assert (m2 <= m) by (apply Hle2; rewrite <- Hperm; exact Hin1).
  lia.
Qed.

(** X3.  The result does not depend on the order of the candidates: a
    collection on which the function returns gives the same identifier in
    any other order. *)
Theorem get_min_qid_order_independent (qids qids' : list val) (r : string) :
  qids ≡ₚ qids' ->
  get_min_qid qids = Ok r ->
  get_min_qid qids' = Ok r.
Proof.
  intros Hperm. unfold get_min_qid.
  destruct (qids_int qids) as [ns | e] eqn:Hns; [| discriminate].
  destruct (qids_int_perm _ _ Hperm ns Hns) as (ns' & -> & Hp).
  rewrite !result_bind_ok.
  destruct (py_min ns) as [m | e] eqn:Hm; [| discriminate].
  rewrite (py_min_perm _ _ _ Hp Hm). trivial.
Qed.

Lemma get_min_qid_order_independent_witness :
  get_min_qid [VStr "Q5"; VStr "Q42"; VStr "Q7"] = Ok "Q5".
Proof.
  apply (get_min_qid_order_independent [VStr "Q42"; VStr "Q7"; VStr "Q5"]).
  - apply Permutation_sym. apply (Permutation_cons_append [_; _]).
  - vm_compute. reflexivity.
Defined.

(** X4.  Disambiguation is stable: the identifier returned, taken alone as
    the collection of candidates, is returned again. *)
Theorem get_min_qid_stable (qids : list val) (r : string) :
  get_min_qid qids = Ok r -> get_min_qid [VStr r] = Ok r.
Proof.
  unfold get_min_qid at 1.
  destruct (qids_int qids) as [ns | e]; [| discriminate].
  rewrite result_bind_ok.
  destruct (py_min ns) as [m | e]; [| discriminate].
  rewrite result_bind_ok. intros [= <-].
  unfold get_min_qid. rewrite qids_int_cons_str, PyStrFacts.int_of_qid.
  reflexivity.
Qed.

Lemma get_min_qid_stable_witness :
  get_min_qid [VStr "Q5"] = Ok "Q5".
Proof.
  apply (get_min_qid_stable [VStr "Q007"; VStr "Q5"; VStr "Q42"]).
  vm_compute. reflexivity.
Defined.

(** ** More on [add_wikidata_column_to_quote] *)

Local Open Scope nat_scope.

(** X6.  With [is_qid = false] the column receives the raw values of the
    table cell as they are: same order, repetitions kept, in a list that is
    new (a list bound to the column before the call is not extended). *)
Theorem raw_values_copied_in_order (wiki_client : client) (h : heap)
    (r : loc) (d : gmap string val) (qids : list string)
    (speaker_qid column_name : string) (speakers_attributes : DataFrame)
    (inplace ignore_existing : bool) (items : list string) :
  quote_at h r d qids ->
  ignore_existing = true \/ d !! column_name = None ->
  column_name <> "qids" ->
  get_min_qid (VStr <$> qids) = Ok speaker_qid ->
  row_value speakers_attributes speaker_qid column_name (CArr items) ->
  exists (h' : heap) (q nl : loc),
    add_wikidata_column_to_quote wiki_client r column_name
      speakers_attributes inplace ignore_existing false h = (h', Ok q) /\
    h' !! q = Some (ODict (<[column_name := VRef nl]> d)) /\
    h !! nl = None /\
    h' !! nl = Some (OList (VStr <$> items)).
Proof.
  intros Hquote Hguard Hne Hmin Hrow. pose proof Hquote as [Hr _].
  eexists _, _, (new_list_loc h inplace).
  split; [| split; [| split]].
  - rewrite (add_wikidata_column_to_quote_row _ _ _ d qids speaker_qid
               column_name _ _ _ _ (CArr items)); try assumption.
    reflexivity.
  - apply final_record. exact Hr.
  - apply new_list_fresh.
  - apply final_new_list.
Qed.

Lemma raw_values_copied_in_order_witness :
  exists (h' : heap) (q nl : loc),
    add_wikidata_column_to_quote example_client 1 "date_of_birth"
      example_table true true false
      [OList [VStr "Q42"]; ODict example_record] = (h', Ok q) /\
    h' !! q
    = Some (ODict (<["date_of_birth" := VRef nl]> example_record)) /\
    [OList [VStr "Q42"]; ODict example_record] !! nl = None /\
    h' !! nl = Some (OList (VStr <$> ["+1952-03-11T00:00:00Z"])).
Proof.
  apply (raw_values_copied_in_order example_client
           [OList [VStr "Q42"]; ODict example_record] 1 example_record
           ["Q42"] "Q42" "date_of_birth" example_table true true).
  - split; [reflexivity |]. exists 0. split; [vm_compute |]; reflexivity.
  - left. reflexivity.
  - discriminate.
  - vm_compute. reflexivity.
  - apply (row_value_strings _ _ _ ["Q42"; "Q5"]
             [CArr ["+1952-03-11T00:00:00Z"]; CNone] 0);
      try (vm_compute; reflexivity).
    intros j Hj. lia.
Defined.

(** X7.  With [is_qid = true] the column receives one label for each
    distinct identifier of the table cell whose lookup succeeds, in the order
    of first occurrence; identifiers whose lookup fails leave no trace. *)
Theorem labels_of_distinct_resolved_qids (wiki_client : client) (h : heap)
    (r : loc) (d : gmap string val) (qids : list string)
    (speaker_qid column_name : string) (speakers_attributes : DataFrame)
    (inplace ignore_existing : bool) (items : list string) :
  quote_at h r d qids ->
  ignore_existing = true \/ d !! column_name = None ->
  column_name <> "qids" ->
  get_min_qid (VStr <$> qids) = Ok speaker_qid ->
  row_value speakers_attributes speaker_qid column_name (CArr items) ->
  exists (h' : heap) (q nl : loc),
    add_wikidata_column_to_quote wiki_client r column_name
      speakers_attributes inplace ignore_existing true h = (h', Ok q) /\
    h' !! q = Some (ODict (<[column_name := VRef nl]> d)) /\
    h !! nl = None /\
    h' !! nl
    = Some (OList (VStr <$> omap wiki_client (first_occurrences items))).
Proof.
  intros Hquote Hguard Hne Hmin Hrow. pose proof Hquote as [Hr _].
  eexists _, _, (new_list_loc h inplace).
  split; [| split; [| split]].
  - rewrite (add_wikidata_column_to_quote_row _ _ _ d qids speaker_qid
               column_name _ _ _ _ (CArr items)); try assumption.
    cbv zeta. rewrite map_qids_to_labels_values. reflexivity.
  - apply final_record. exact Hr.
  - apply new_list_fresh.
  - apply final_new_list.
Qed.

Lemma labels_of_distinct_resolved_qids_witness :
  exists (h' : heap) (q nl : loc),
    add_wikidata_column_to_quote example_client 1 "gender"
      {[ "id" := [CStr "Q5"];
         "gender" := [CArr ["Q6581097"; "Q1"; "Q6581072"; "Q6581097"]] ]}
      false true true example_store = (h', Ok q) /\
    h' !! q = Some (ODict (<["gender" := VRef nl]> example_record)) /\
    example_store !! nl = None /\
    h' !! nl
    = Some (OList (VStr <$> omap example_client
                     (first_occurrences
                        ["Q6581097"; "Q1"; "Q6581072"; "Q6581097"]))).
Proof.
  apply (labels_of_distinct_resolved_qids example_client example_store 1
           example_record ["Q42"; "Q5"] "Q5" "gender" _ false true).
  - exact example_quote_at.
  - left. reflexivity.
  - discriminate.
  - vm_compute. reflexivity.
  - apply (row_value_strings _ _ _ ["Q5"]
             [CArr ["Q6581097"; "Q1"; "Q6581072"; "Q6581097"]] 0);
      try (vm_compute; reflexivity).
    intros j Hj. lia.
Defined.

(** X8.  A target column that the table does not have ends the call in the
    exception of the second guard, before anything is written: every object
    of the store is as it was, and in place the store is the same store. *)
Theorem missing_column_raises (wiki_client : client) (h : heap) (r : loc)
    (d : gmap string val) (column_name : string)
    (speakers_attributes : DataFrame) (inplace ignore_existing is_qid : bool) :
  h !! r = Some (ODict d) ->
  ignore_existing = true \/ d !! column_name = None ->
  speakers_attributes !! column_name = None ->
  exists h' : heap,
    add_wikidata_column_to_quote wiki_client r column_name
      speakers_attributes inplace ignore_existing is_qid h
    = (h', Err (Exception_ (not_a_column_msg column_name))) /\
    (forall l o, h !! l = Some o -> h' !! l = Some o) /\
    (inplace = true -> h' = h).
Proof.
  intros Hr Hguard Hcol.
  exists (if inplace then h else h ++ [ODict d]).
  rewrite (add_wikidata_column_to_quote_run _ _ _ _ _ _ _ _ _ Hr).
  rewrite (guards_pass _ _ _ Hguard). unfold Frame.has_column.
  rewrite Hcol, bool_decide_eq_false_2 by (intros [? ?]; discriminate).
  split; [reflexivity |]. split.
  - intros l o Hl. destruct inplace; [exact Hl |].
    apply lookup_app_l_Some. exact Hl.
  - intros ->. reflexivity.
Qed.

Lemma missing_column_raises_witness :
  exists h' : heap,
    add_wikidata_column_to_quote example_client 1 "party" example_table
      true true true example_store
    = (h', Err (Exception_ (not_a_column_msg "party"))) /\
    (forall l o, example_store !! l = Some o -> h' !! l = Some o) /\
    (true = true -> h' = example_store).
Proof.
  apply (missing_column_raises example_client example_store 1 example_record
           "party" example_table true true true).
  - reflexivity.
  - left. reflexivity.
  - vm_compute. reflexivity.
Defined.

(** X9.  A failure after the guards is not undone: when a call in place
    passes both guards and then raises, whatever the error, the input record
    is left with the target column bound to a new empty list (and a value the
    column had before is gone). *)
Theorem failure_in_place_leaves_empty_column (wiki_client : client)
    (h h' : heap) (r : loc) (d : gmap string val) (column_name : string)
    (speakers_attributes : DataFrame) (ignore_existing is_qid : bool)
    (e : py_error) :
  h !! r = Some (ODict d) ->
  ignore_existing = true \/ d !! column_name = None ->
  is_Some (speakers_attributes !! column_name) ->
  add_wikidata_column_to_quote wiki_client r column_name
    speakers_attributes true ignore_existing is_qid h = (h', Err e) ->
  h' !! r = Some (ODict (<[column_name := VRef (length h)]> d)) /\
  h' !! length h = Some (OList []).
Proof.
  intros Hr Hguard Hcol.
  rewrite (add_wikidata_column_to_quote_run _ _ _ _ _ _ _ _ _ Hr).
  rewrite (guards_pass _ _ _ Hguard). unfold Frame.has_column.
  rewrite bool_decide_eq_true_2 by exact Hcol. cbn [negb]. cbv zeta.
  destruct (enrich_labels _ _ _ _ _) as [labels | e']; [discriminate |].
  intros [= <- _]. split.
  - apply (prepared_record h r d column_name Hr true).
  - apply (prepared_new_list h r d column_name Hr true).
Qed.

Lemma failure_in_place_leaves_empty_column_witness :
  (add_wikidata_column_to_quote example_client 1 "gender"
     example_table_no_Q5 true true true example_store).1 !! 1
  = Some (ODict (<["gender" := VRef (length example_store)]> example_record))
  /\
  (add_wikidata_column_to_quote example_client 1 "gender"
     example_table_no_Q5 true true true example_store).1
    !! length example_store = Some (OList []).
Proof.
  apply (failure_in_place_leaves_empty_column example_client example_store _
           1 example_record "gender" example_table_no_Q5 true true
           IndexError).
  - reflexivity.
  - left. reflexivity.
  - eexists. vm_compute. reflexivity.
  - vm_compute. reflexivity.
Defined.

(** X10.  A record without the field [qids] passes the guards and then
    fails with a [KeyError], for every target column but [qids] itself. *)
Theorem missing_qids_raises_KeyError (wiki_client : client) (h : heap)
    (r : loc) (d : gmap string val) (column_name : string)
    (speakers_attributes : DataFrame) (inplace ignore_existing is_qid : bool) :
  h !! r = Some (ODict d) ->
  d !! "qids" = None ->
  column_name <> "qids" ->
  ignore_existing = true \/ d !! column_name = None ->
  is_Some (speakers_attributes !! column_name) ->
  exists h',
    add_wikidata_column_to_quote wiki_client r column_name
      speakers_attributes inplace ignore_existing is_qid h
    = (h', Err KeyError).
Proof.
  intros Hr Hqids Hne Hguard Hcol. eexists.
  rewrite (add_wikidata_column_to_quote_run _ _ _ _ _ _ _ _ _ Hr).
  rewrite (guards_pass _ _ _ Hguard). unfold Frame.has_column.
  rewrite bool_decide_eq_true_2 by exact Hcol. cbn [negb]. cbv zeta.
  assert (Hread : read_qids (prepared h r d column_name inplace).1
                    (prepared h r d column_name inplace).2 = Err KeyError).
  { unfold read_qids. rewrite run_bind.
    rewrite (py_getitem_dict _ _ _ _ (prepared_record h r d column_name Hr inplace)).
    rewrite lookup_insert_ne by exact Hne. rewrite Hqids. reflexivity. }
  rewrite Hread. reflexivity.
Qed.

Lemma missing_qids_raises_KeyError_witness :
  exists h',
    add_wikidata_column_to_quote example_client 0 "gender" example_table
      false true true [ODict {[ "speaker" := VStr "Douglas Adams" ]}]
    = (h', Err KeyError).
Proof.
  apply (missing_qids_raises_KeyError example_client
           [ODict {[ "speaker" := VStr "Douglas Adams" ]}] 0
           {[ "speaker" := VStr "Douglas Adams" ]} "gender" example_table
           false true true).
  - reflexivity.
  - vm_compute. reflexivity.
  - discriminate.
  - left. reflexivity.
  - eexists. vm_compute. reflexivity.
Defined.

Lemma first_row_exists (ids : list cell) (q : string) (i : nat) :
  ids !! i = Some (CStr q) ->
  exists j, ids !! j = Some (CStr q) /\
            forall k, k < j -> ids !! k <> Some (CStr q).
Proof.
  revert i. induction ids as [| c ids IH]; intros i Hi; [discriminate |].
  assert (Hc : c = CStr q \/ c <> CStr q).
  { destruct c as [| s | items]; try (right; discriminate).
    destruct (decide (s = q)) as [-> | Hne]; [left; reflexivity |].
    right. congruence. }
  destruct Hc as [-> | Hc].
  - exists 0. split; [reflexivity |]. intros k Hk. lia.
  - destruct i as [| i]; [simpl in Hi; congruence |].
    destruct (IH i Hi) as (j & Hj & Hbefore).
    exists (S j). split; [exact Hj |].
    intros [| k] Hk; simpl; [congruence |]. apply Hbefore. lia.
Qed.

(** In a column without arrays every cell can be compared, and only the
    string [q] equals [q]. *)
Lemma no_array_compared (ids : list cell) (q : string) (j : nat) (k : cell) :
  (forall j items, ids !! j <> Some (CArr items)) ->
  ids !! j = Some k ->
  (k = CStr q /\ id_equal k q) \/ (k <> CStr q /\ id_unequal k q).
Proof.
  intros Hplain Hj. destruct k as [| s | items].
  - right. split; [discriminate | exact I].
  - destruct (decide (s = q)) as [-> | Hne].
    + left. split; [reflexivity | left; reflexivity].
    + right. split; [congruence | exact Hne].
  - exfalso. exact (Hplain j items Hj).
Qed.

(** X11.  The identifier column cannot be added to a record.  In a table
    whose identifier column holds no array, the cell of that column in the
    row of the speaker is the identifier itself, a string, and a string has
    no [tolist]; the call ends in an [AttributeError]. *)
Theorem id_column_raises_AttributeError (wiki_client : client) (h : heap)
    (r : loc) (d : gmap string val) (qids : list string)
    (speaker_qid : string) (speakers_attributes : DataFrame)
    (ids : list cell) (i : nat)
    (inplace ignore_existing is_qid : bool) :
  quote_at h r d qids ->
  ignore_existing = true \/ d !! "id" = None ->
  get_min_qid (VStr <$> qids) = Ok speaker_qid ->
  speakers_attributes !! "id" = Some ids ->
  (forall j items, ids !! j <> Some (CArr items)) ->
  ids !! i = Some (CStr speaker_qid) ->
  exists h',
    add_wikidata_column_to_quote wiki_client r "id" speakers_attributes
      inplace ignore_existing is_qid h = (h', Err AttributeError).
Proof.
  intros Hquote Hguard Hmin Hids Hplain Hi.
  destruct (first_row_exists _ _ _ Hi) as (j & Hj & Hbefore).
  eexists.
  rewrite (add_wikidata_column_to_quote_row _ _ _ d qids speaker_qid "id"
             _ _ _ _ (CStr speaker_qid)); try assumption;
    [reflexivity | discriminate |].
  exists ids, ids, j, (CStr speaker_qid).
  split; [exact Hids |]. split; [exact Hids |].
  split; [| split; [exact Hj | split; [left; reflexivity |
           split; [| exact Hj]]]].
  - intros m k Hm.
    destruct (no_array_compared ids speaker_qid m k Hplain Hm)
      as [[_ Heq] | [_ Hne]]; [left | right]; assumption.
  - intros m k Hlt Hm.
    destruct (no_array_compared ids speaker_qid m k Hplain Hm)
      as [[-> _] | [_ Hne]]; [| exact Hne].
    exfalso. exact (Hbefore m Hlt Hm).
Qed.

Lemma id_column_raises_AttributeError_witness :
  exists h',
    add_wikidata_column_to_quote example_client 1 "id" example_table
      false true false example_store = (h', Err AttributeError).
Proof.
  apply (id_column_raises_AttributeError example_client example_store 1
           example_record ["Q42"; "Q5"] "Q5" example_table
           [CStr "Q42"; CStr "Q5"] 1 false true false).
  - exact example_quote_at.
  - left. reflexivity.
  - vm_compute. reflexivity.
  - vm_compute. reflexivity.
  - intros [| [| j]] items; discriminate.
  - reflexivity.
Defined.

Lemma closed_snoc (h : heap) (o : obj) :
  heap_closed h -> obj_closed (length h) o -> heap_closed (h ++ [o]).
Proof.
  intros Hclosed Ho l o' Hl. rewrite length_app. simpl.
  apply lookup_app_Some in Hl as [Hl | [_ Hl]].
  - eapply obj_closed_mono; [| exact (Hclosed l o' Hl)]. lia.
  - apply list_lookup_singleton_Some in Hl as [_ <-].
    eapply obj_closed_mono; [| exact Ho]. lia.
Qed.

(** X12.  The function keeps the store closed, whatever the outcome: after
    a call on a record of a closed store, every reference held by an object
    of the store denotes an object of the store. *)
Theorem store_stays_closed (wiki_client : client) (h : heap) (r : loc)
    (d : gmap string val) (column_name : string)
    (speakers_attributes : DataFrame) (inplace ignore_existing is_qid : bool) :
  heap_closed h ->
  h !! r = Some (ODict d) ->
  heap_closed
    (add_wikidata_column_to_quote wiki_client r column_name
       speakers_attributes inplace ignore_existing is_qid h).1.
Proof.
  intros Hclosed Hr.
  rewrite (add_wikidata_column_to_quote_run _ _ _ _ _ _ _ _ _ Hr).
  assert (Hh0 : heap_closed (if inplace then h else h ++ [ODict d])).
  { destruct inplace; [exact Hclosed |].
    apply closed_snoc; [exact Hclosed | exact (Hclosed r _ Hr)]. }
  destruct (negb ignore_existing && _); [exact Hh0 |].
  destruct (negb (Frame.has_column _ _)); [exact Hh0 |]. cbv zeta.
  destruct (enrich_labels _ _ _ _ _) as [labels | e]; cbn [fst].
  - apply final_closed; assumption.
  - rewrite <- (list_insert_id _ (new_list_loc h inplace) (OList [])).
    + apply (final_closed h r d column_name inplace [] Hclosed Hr).
    + apply prepared_new_list. exact Hr.
Qed.

Lemma store_stays_closed_witness :
  heap_closed
    (add_wikidata_column_to_quote example_client 1 "gender" example_table
       true true true example_store).1.
Proof.
  apply (store_stays_closed example_client example_store 1 example_record
           "gender" example_table true true true).
  - exact example_store_closed.
  - reflexivity.
Defined.

(** ** More on the filter loop *)

Section filter_more.
Variable json_loads : string -> result json.
Variable json_dumps : json -> string.

Local Abbreviation record_line := (record_line json_loads).
Local Abbreviation written := (written json_dumps).
Local Abbreviation loop := (filter_loop json_loads json_dumps).
Local Abbreviation stage := (filter_file json_loads json_dumps).

(** The loop on two files one after the other is the loop on the first,
    then on the second with the output so far; an error in the first ends
    it there. *)
Lemma filter_loop_app (s1 s2 : list string) (d_file : list string) :
  loop (s1 ++ s2) d_file
  = match loop s1 d_file with
    | (d1, Ok _) => loop s2 d1
    | (d1, Err e) => (d1, Err e)
    end.
Proof.
  revert d_file. induction s1 as [| line s1 IH]; intros d_file.
  - reflexivity.
  - cbn [app filter_loop].
    destruct (json_loads line) as [instance | e]; [| reflexivity].
    destruct (json_getitem instance "speaker") as [speaker | e];
      [| reflexivity].
    destruct (json_eq_str speaker "None"); apply IH.
Qed.

(** X13.  A line that does not parse, or a record without a speaker, stops
    the loop with its error; the output then holds the records kept among the
    lines before it, and nothing of the lines after it. *)
Theorem filter_stops_at_first_bad_line (good : list string)
    (records : list (list (string * json))) (bad : string)
    (rest : list string) (e : py_error) :
  Forall2 record_line good records ->
  (instance ← json_loads bad; json_getitem instance "speaker") = Err e ->
  stage (good ++ bad :: rest)
  = (written <$> List.filter speaker_resolved records, Err e).
Proof.
  intros Hgood Hbad. unfold filter_file.
  rewrite filter_loop_app, (filter_loop_records _ _ _ _ Hgood).
  cbn [app filter_loop].
  destruct (json_loads bad) as [instance | e'].
  - rewrite result_bind_ok in Hbad. rewrite Hbad. reflexivity.
  - injection Hbad as ->. reflexivity.
Qed.

(** X14.  Filtering is idempotent: the output of the stage, given to the
    stage again, comes out as it is, provided the JSON library reads back
    what it writes for the records at hand. *)
Theorem filter_output_is_fixed_point (s_file : list string)
    (records : list (list (string * json))) :
  Forall2 record_line s_file records ->
  (forall members, members ∈ records ->
                   json_loads (written members) = Ok (JObject members)) ->
  stage (stage s_file).1 = ((stage s_file).1, Ok tt).
Proof.
  intros Hlines Hcodec. unfold filter_file.
  rewrite (filter_loop_records _ _ _ _ Hlines). cbn [fst app].
  rewrite (filter_loop_records _ _ _
             (List.filter speaker_resolved records)).
  - cbn [app]. do 2 f_equal. clear.
    induction records as [| m records IH]; [reflexivity |]. simpl.
    destruct (speaker_resolved m) eqn:Hm; simpl; rewrite ?Hm, IH;
      reflexivity.
  - apply Forall2_fmap_l, Forall_Forall2_diag, Forall_forall.
    intros members Hin.
    apply list_elem_of_In, List.filter_In in Hin as [Hin _].
    apply list_elem_of_In in Hin. split; [apply Hcodec; exact Hin |].
    destruct (proj1 (list_elem_of_lookup _ _) Hin) as [i Hi].
    destruct (Forall2_lookup_r _ _ _ _ _ Hlines Hi) as (line & _ & _ & Hsp).
    exact Hsp.
Qed.
End filter_more.

Lemma filter_stops_at_first_bad_line_witness :
  filter_file Json.loads Json.dumps
    (example_lines ++ "{not json" :: example_lines)
  = (written Json.dumps
       <$> List.filter speaker_resolved
             [example_unresolved; example_resolved],
     Err JSONDecodeError).
Proof.
  apply (filter_stops_at_first_bad_line Json.loads Json.dumps example_lines
           [example_unresolved; example_resolved] "{not json" example_lines).
  - repeat constructor; try (vm_compute; reflexivity).
    + exists (JStr "None"). vm_compute. reflexivity.
    + exists (JStr "Douglas Adams"). vm_compute. reflexivity.
  - vm_compute. reflexivity.
Defined.

Lemma filter_output_is_fixed_point_witness :
  filter_file Json.loads Json.dumps
    (filter_file Json.loads Json.dumps example_lines).1
  = ((filter_file Json.loads Json.dumps example_lines).1, Ok tt).
Proof.
  apply (filter_output_is_fixed_point Json.loads Json.dumps example_lines
           [example_unresolved; example_resolved]).
  - repeat constructor; try (vm_compute; reflexivity).
    + exists (JStr "None"). vm_compute. reflexivity.
    + exists (JStr "Douglas Adams"). vm_compute. reflexivity.
  - intros members Hin.
    apply elem_of_cons in Hin as [-> | Hin]; [vm_compute; reflexivity |].
    apply list_elem_of_singleton in Hin as ->. vm_compute. reflexivity.
Defined.

(** ** The loop over the years *)

Lemma string_app_inj_r (a b s : string) : a +:+ s = b +:+ s -> a = b.
Proof.
  intros H.
  assert (Hlen : String.length a = String.length b).
  { apply (f_equal String.length) in H.
    rewrite !PyStrFacts.string_length_app in H. lia. }
  revert b H Hlen. induction a as [| c a IH]; intros [| c' b] H Hlen;
    simpl in Hlen; try lia.
  - reflexivity.
  - rewrite !PyStrFacts.app_cons in H. injection H as -> H.
    f_equal. apply IH; [exact H | lia].
Qed.

Lemma path_to_out_inj (y y' : Z) : path_to_out y = path_to_out y' -> y = y'.
Proof.
  unfold path_to_out. intros H.
  apply (inj (String.app _)), string_app_inj_r in H.
  unfold PyStr.str in H. apply (inj pretty) in H. exact H.
Qed.

Lemma path_to_file_not_out (y y' : Z) : path_to_file y <> path_to_out y'.
Proof.
  unfold path_to_file, path_to_out. intros H.
  apply (f_equal (String.get 32)) in H. vm_compute in H. discriminate H.
Qed.

Section years_facts.
Variable json_loads : string -> result json.
Variable json_dumps : json -> string.

Local Abbreviation turn := (filter_year json_loads json_dumps).
Local Abbreviation turns := (filter_years json_loads json_dumps).
Local Abbreviation stage := (filter_file json_loads json_dumps).

(** A year whose output exists is passed over. *)
Lemma filter_year_skip (year : Z) (fs : files) (printed : list string) :
  is_Some (fs !! path_to_out year) ->
  turn year fs printed = (fs, printed ++ [exists_msg year], None).
Proof.
  intros Hout. unfold filter_year.
  rewrite bool_decide_eq_true_2 by exact Hout. reflexivity.
Qed.

(** A year without output and with input: the output is created. *)
Lemma filter_year_run (year : Z) (fs : files) (printed : list string)
    (s_file : list string) :
  fs !! path_to_out year = None ->
  fs !! path_to_file year = Some s_file ->
  turn year fs printed
  = (<[path_to_out year := (stage s_file).1]> fs,
     printed ++ [extracting_msg year],
     match (stage s_file).2 with
     | Ok _ => None
     | Err e => Some (LineError e)
     end).
Proof.
  intros Hout Hin. unfold filter_year.
  rewrite bool_decide_eq_false_2 by (rewrite Hout; intros [? ?]; discriminate).
  rewrite Hin. destruct (stage s_file) as [d_file res]. reflexivity.
Qed.

(** One turn writes at most the output of its year, and only when there is
    none. *)
Lemma filter_year_files (year : Z) (fs : files) (printed : list string)
    (p : string) :
  p <> path_to_out year \/ is_Some (fs !! p) ->
  (turn year fs printed).1.1 !! p = fs !! p.
Proof.
  intros Hp. unfold filter_year.
  destruct (decide (is_Some (fs !! path_to_out year))) as [Hout | Hout].
  - rewrite bool_decide_eq_true_2 by exact Hout. reflexivity.
  - rewrite bool_decide_eq_false_2 by exact Hout.
    destruct (fs !! path_to_file year) as [s_file |]; [| reflexivity].
    destruct (stage s_file) as [d_file res]. cbn [fst].
    apply lookup_insert_ne. intros <-.
    destruct Hp as [Hp | Hp]; [congruence | contradiction].
Qed.

Lemma filter_years_files (years : list Z) (fs : files)
    (printed : list string) (p : string) :
  (forall y, y ∈ years -> p <> path_to_out y) \/ is_Some (fs !! p) ->
  (turns years fs printed).1.1 !! p = fs !! p.
Proof.
  revert fs printed. induction years as [| y years IH]; intros fs printed Hp.
  - reflexivity.
  - cbn [filter_years].
    assert (Hturn : (turn y fs printed).1.1 !! p = fs !! p).
    { apply filter_year_files. destruct Hp as [Hp | Hp]; [left | right; exact Hp].
      apply Hp. left. }
    destruct (turn y fs printed) as [[fs1 printed1] [e |]]; cbn [fst] in *.
    + exact Hturn.
    + rewrite IH; [exact Hturn |].
      destruct Hp as [Hp | Hp]; [left | right; rewrite Hturn; exact Hp].
      intros y' Hy'. apply Hp. right. exact Hy'.
Qed.

(** X15.  The stage only creates files: a file that exists before the run,
    an input or an output of an earlier run, has the same lines after it,
    whatever the outcome of the run. *)
Theorem existing_files_are_kept (fs : files) (printed : list string)
    (p : string) :
  is_Some (fs !! p) ->
  (filter_quotebank json_loads json_dumps fs printed).1.1 !! p = fs !! p.
Proof.
  intros Hp. unfold filter_quotebank. apply filter_years_files.
  right. exact Hp.
Qed.

(** X16.  No input file is written, not even created: the path of the input
    of any year holds after the run what it held before. *)
Theorem inputs_are_never_written (fs : files) (printed : list string)
    (year : Z) :
  (filter_quotebank json_loads json_dumps fs printed).1.1
    !! path_to_file year
  = fs !! path_to_file year.
Proof.
  unfold filter_quotebank. apply filter_years_files. left.
  intros y _. apply path_to_file_not_out.
Qed.

(** After a run without error the output of every year exists. *)
Lemma filter_years_done (years : list Z) (fs fs' : files)
    (printed printed' : list string) :
  turns years fs printed = (fs', printed', None) ->
  forall y, y ∈ years -> is_Some (fs' !! path_to_out y).
Proof.
  revert fs printed. induction years as [| y0 years IH];
    intros fs printed Hrun y Hy; [inversion Hy |].
  cbn [filter_years] in Hrun.
  destruct (turn y0 fs printed) as [[fs1 printed1] [e |]] eqn:Hturn;
    [discriminate Hrun |].
  apply elem_of_cons in Hy as [-> | Hy]; [| exact (IH _ _ Hrun y Hy)].
  assert (Hout : is_Some (fs1 !! path_to_out y0)).
  { unfold filter_year in Hturn.
    destruct (decide (is_Some (fs !! path_to_out y0))) as [Hso | Hno].
    - rewrite bool_decide_eq_true_2 in Hturn by exact Hso.
      injection Hturn as <- _. exact Hso.
    - rewrite bool_decide_eq_false_2 in Hturn by exact Hno.
      destruct (fs !! path_to_file y0) as [s_file |]; [| discriminate Hturn].
      destruct (stage s_file) as [d_file res].
      injection Hturn as <- _ _. rewrite lookup_insert_eq. eauto. }
  pose proof (filter_years_files years fs1 printed1 (path_to_out y0)
                (or_intror Hout)) as Hkeep.
  rewrite Hrun in Hkeep. cbn [fst] in Hkeep. rewrite Hkeep. exact Hout.
Qed.

(** When every output exists the run passes over every year. *)
Lemma filter_years_all_skipped (years : list Z) (fs : files)
    (printed : list string) :
  (forall y, y ∈ years -> is_Some (fs !! path_to_out y)) ->
  turns years fs printed = (fs, printed ++ (exists_msg <$> years), None).
Proof.
  revert printed. induction years as [| y years IH]; intros printed Hall.
  - cbn [filter_years fmap list_fmap]. rewrite app_nil_r. reflexivity.
  - cbn [filter_years]. rewrite filter_year_skip by (apply Hall; left).
    rewrite IH by (intros y' Hy'; apply Hall; right; exact Hy').
    rewrite fmap_cons, <- app_assoc. reflexivity.
Qed.

(** X17.  Running the stage again after a run without error does nothing:
    no file changes, and the only messages are that the file of each year
    exists. *)
Theorem second_run_does_nothing (fs fs' : files)
    (printed printed' printed2 : list string) :
  filter_quotebank json_loads json_dumps fs printed = (fs', printed', None) ->
  filter_quotebank json_loads json_dumps fs' printed2
  = (fs', printed2 ++ (exists_msg <$> py_range 2015 2021), None).
Proof.
  unfold filter_quotebank. intros Hrun.
  apply filter_years_all_skipped.
  exact (filter_years_done _ _ _ _ _ Hrun).
Qed.

(** The turn that ends a run with an error of the lines. *)
Lemma filter_years_failed (years : list Z) (fs fs' : files)
    (printed printed' : list string) (e : py_error) :
  turns years fs printed = (fs', printed', Some (LineError e)) ->
  exists (y : Z) (s_file d_file : list string),
    y ∈ years /\
    fs !! path_to_out y = None /\
    fs !! path_to_file y = Some s_file /\
    stage s_file = (d_file, Err e) /\
    fs' !! path_to_out y = Some d_file.
Proof.
  revert fs printed. induction years as [| y0 years IH];
    intros fs printed Hrun; [discriminate Hrun |].
  cbn [filter_years] in Hrun.
  destruct (turn y0 fs printed) as [[fs1 printed1] [e1 |]] eqn:Hturn.
  - (* the error is in this turn *)
    injection Hrun as -> -> ->. unfold filter_year in Hturn.
    destruct (decide (is_Some (fs !! path_to_out y0))) as [Hso | Hno].
    { rewrite bool_decide_eq_true_2 in Hturn by exact Hso. discriminate. }
    rewrite bool_decide_eq_false_2 in Hturn by exact Hno.
    destruct (fs !! path_to_file y0) as [s_file |] eqn:Hin;
      [| discriminate Hturn].
    destruct (stage s_file) as [d_file [[] | e']] eqn:Hstage;
      [discriminate Hturn |].
    injection Hturn as <- _ <-.
    exists y0, s_file, d_file. split; [left |].
    split; [destruct (fs !! path_to_out y0); [exfalso; eauto | reflexivity] |].
    split; [exact Hin |]. split; [exact Hstage |]. apply lookup_insert_eq.
  - (* the error is in a later turn *)
    destruct (IH _ _ Hrun) as (y & s_file & d_file & Hy & Hout & Hin & Hst & Hfs').
    exists y, s_file, d_file. split; [right; exact Hy |].
    pose proof (filter_year_files y0 fs printed (path_to_out y)) as Hkeep_out.
    pose proof (filter_year_files y0 fs printed (path_to_file y)
                  (or_introl (path_to_file_not_out y y0))) as Hkeep_in.
    rewrite Hturn in Hkeep_out, Hkeep_in. cbn [fst] in Hkeep_out, Hkeep_in.
    split.
    + destruct (fs !! path_to_out y) as [lines |] eqn:Hfs; [| reflexivity].
      rewrite Hkeep_out in Hout by (right; eauto). discriminate Hout.
    + split; [rewrite <- Hkeep_in; exact Hin |].
      split; [exact Hst | exact Hfs'].
Qed.

(** X18.  A run that a bad line ends leaves the output of that year on the
    drive, holding the lines written before the error; the next run takes
    this partial file for a finished one and keeps it as it is. *)
Theorem partial_output_is_kept (fs fs' : files)
    (printed printed' : list string) (e : py_error) :
  filter_quotebank json_loads json_dumps fs printed
  = (fs', printed', Some (LineError e)) ->
  exists (y : Z) (s_file d_file : list string),
    y ∈ py_range 2015 2021 /\
    fs !! path_to_out y = None /\
    fs !! path_to_file y = Some s_file /\
    stage s_file = (d_file, Err e) /\
    fs' !! path_to_out y = Some d_file /\
    forall printed2,
      (filter_quotebank json_loads json_dumps fs' printed2).1.1
        !! path_to_out y = Some d_file.
Proof.
  unfold filter_quotebank. intros Hrun.
  destruct (filter_years_failed _ _ _ _ _ _ Hrun)
    as (y & s_file & d_file & Hy & Hout & Hin & Hst & Hfs').
  exists y, s_file, d_file. repeat (split; [assumption |]).
  intros printed2. rewrite filter_years_files; [exact Hfs' |].
  right. rewrite Hfs'. eauto.
Qed.

(** What a run without error created. *)
Lemma filter_years_created (years : list Z) (fs fs' : files)
    (printed printed' : list string) :
  NoDup years ->
  turns years fs printed = (fs', printed', None) ->
  forall y, y ∈ years -> fs !! path_to_out y = None ->
  exists (s_file d_file : list string),
    fs !! path_to_file y = Some s_file /\
    stage s_file = (d_file, Ok tt) /\
    fs' !! path_to_out y = Some d_file.
Proof.
  revert fs printed. induction years as [| y0 years IH];
    intros fs printed Hnd Hrun y Hy Hout; [inversion Hy |].
  apply NoDup_cons in Hnd as [Hy0 Hnd].
  cbn [filter_years] in Hrun.
  destruct (turn y0 fs printed) as [[fs1 printed1] [e |]] eqn:Hturn;
    [discriminate Hrun |].
  apply elem_of_cons in Hy as [-> | Hy].
  - (* the output is created in this turn and kept afterwards *)
    unfold filter_year in Hturn.
    rewrite bool_decide_eq_false_2 in Hturn
      by (rewrite Hout; intros [? ?]; discriminate).
    destruct (fs !! path_to_file y0) as [s_file |]; [| discriminate Hturn].
    destruct (stage s_file) as [d_file [[] | e']] eqn:Hstage;
      [| discriminate Hturn].
    injection Hturn as <- _.
    exists s_file, d_file. split; [reflexivity |]. split; [exact Hstage |].
    pose proof (filter_years_files years
                  (<[path_to_out y0 := d_file]> fs) printed1 (path_to_out y0))
      as Hkeep.
    rewrite Hrun in Hkeep. cbn [fst] in Hkeep. rewrite Hkeep.
    + apply lookup_insert_eq.
    + right. rewrite lookup_insert_eq. eauto.
  - (* a later turn: this turn touches neither its input nor its output *)
    assert (Hne : y <> y0) by (intros ->; contradiction).
    pose proof (filter_year_files y0 fs printed (path_to_out y)) as Hkeep_out.
    pose proof (filter_year_files y0 fs printed (path_to_file y)
                  (or_introl (path_to_file_not_out y y0))) as Hkeep_in.
    rewrite Hturn in Hkeep_out, Hkeep_in. cbn [fst] in Hkeep_out, Hkeep_in.
    destruct (IH _ _ Hnd Hrun y Hy) as (s_file & d_file & Hin & Hst & Hfs').
    + rewrite Hkeep_out; [exact Hout |]. left. intros H.
      apply path_to_out_inj in H. contradiction.
    + exists s_file, d_file. rewrite <- Hkeep_in. auto.
Qed.

(** X19.  After a run without error, the output of each year that had none
    holds exactly what the loop over the lines writes for the input of that
    year, which is read as it was before the run. *)
Theorem outputs_hold_the_filtered_inputs (fs fs' : files)
    (printed printed' : list string) (year : Z) :
  filter_quotebank json_loads json_dumps fs printed = (fs', printed', None) ->
  (2015 <= year < 2021)%Z ->
  fs !! path_to_out year = None ->
  exists (s_file d_file : list string),
    fs !! path_to_file year = Some s_file /\
    stage s_file = (d_file, Ok tt) /\
    fs' !! path_to_out year = Some d_file.
Proof.
  unfold filter_quotebank. intros Hrun Hyear Hout.
  assert (Hnd : NoDup (py_range 2015 2021)).
  { apply (bool_decide_eq_true_1 _). vm_compute. reflexivity. }
  apply (filter_years_created _ _ _ _ _ Hnd Hrun); [| exact Hout].
  assert (year = 2015 \/ year = 2016 \/ year = 2017 \/ year = 2018
          \/ year = 2019 \/ year = 2020)%Z as Hcases by lia.
  apply (bool_decide_eq_true_1 _).
  repeat (destruct Hcases as [-> | Hcases]; [vm_compute; reflexivity |]).
  subst year. vm_compute. reflexivity.
Qed.
End years_facts.

Lemma existing_files_are_kept_witness :
  (filter_quotebank Json.loads Json.dumps example_drive_bad []).1.1
    !! path_to_file 2016
  = example_drive_bad !! path_to_file 2016.
Proof.
  apply (existing_files_are_kept Json.loads Json.dumps example_drive_bad []
           (path_to_file 2016)).
  eexists. vm_compute. reflexivity.
Defined.

Lemma second_run_does_nothing_witness :
  filter_quotebank Json.loads Json.dumps
    (filter_quotebank Json.loads Json.dumps example_drive []).1.1 []
  = ((filter_quotebank Json.loads Json.dumps example_drive []).1.1,
     [] ++ (exists_msg <$> py_range 2015 2021), None).
Proof.
  apply (second_run_does_nothing Json.loads Json.dumps example_drive _ []
           (filter_quotebank Json.loads Json.dumps example_drive []).1.2 []).
  vm_compute. reflexivity.
Defined.

Lemma partial_output_is_kept_witness :
  exists (y : Z) (s_file d_file : list string),
    y ∈ py_range 2015 2021 /\
    example_drive_bad !! path_to_out y = None /\
    example_drive_bad !! path_to_file y = Some s_file /\
    filter_file Json.loads Json.dumps s_file
    = (d_file, Err JSONDecodeError) /\
    (filter_quotebank Json.loads Json.dumps example_drive_bad []).1.1
      !! path_to_out y = Some d_file /\
    forall printed2,
      (filter_quotebank Json.loads Json.dumps
         (filter_quotebank Json.loads Json.dumps example_drive_bad []).1.1
         printed2).1.1 !! path_to_out y = Some d_file.
Proof.
  apply (partial_output_is_kept Json.loads Json.dumps example_drive_bad _ []
           (filter_quotebank Json.loads Json.dumps example_drive_bad []).1.2
           JSONDecodeError).
  vm_compute. reflexivity.
Defined.

Lemma outputs_hold_the_filtered_inputs_witness :
  exists (s_file d_file : list string),
    example_drive !! path_to_file 2017 = Some s_file /\
    filter_file Json.loads Json.dumps s_file = (d_file, Ok tt) /\
    (filter_quotebank Json.loads Json.dumps example_drive []).1.1
      !! path_to_out 2017 = Some d_file.
Proof.
  apply (outputs_hold_the_filtered_inputs Json.loads Json.dumps example_drive
           _ [] (filter_quotebank Json.loads Json.dumps example_drive []).1.2
           2017).
  - vm_compute. reflexivity.
  - lia.
  - vm_compute. reflexivity.
Defined.

(** ** The example: all columns of one instance *)

Local Open Scope nat_scope.

Lemma row_value_functional (speakers_attributes : DataFrame)
    (q column_name : string) (c c' : cell) :
  row_value speakers_attributes q column_name c ->
  row_value speakers_attributes q column_name c' ->
  c = c'.
Proof.
  intros (ids & series & i & key & Hids & Hseries & _ & Hi & Hkey & Hfirst & Hc)
         (ids' & series' & j & key' & Hids' & Hseries' & _ & Hj & Hkey'
          & Hfirst' & Hc').
  assert (ids' = ids) as -> by congruence.
  assert (series' = series) as -> by congruence.
  assert (i = j) as ->.
  { destruct (Nat.lt_trichotomy i j) as [Hlt | [Heq | Hgt]]; [| exact Heq |].
    - exfalso. exact (id_equal_unequal _ _ Hkey (Hfirst' i key Hlt Hi)).
    - exfalso. exact (id_equal_unequal _ _ Hkey' (Hfirst j key' Hgt Hj)). }
  congruence.
Qed.

(** One call in place on a cell that is absent or an array. *)
Lemma add_in_place_run (wiki_client : client) (h : heap) (r : loc)
    (d : gmap string val) (qids : list string)
    (speaker_qid column_name : string) (speakers_attributes : DataFrame)
    (is_qid : bool) (c : cell) :
  quote_at h r d qids ->
  column_name <> "qids" ->
  get_min_qid (VStr <$> qids) = Ok speaker_qid ->
  row_value speakers_attributes speaker_qid column_name c ->
  (forall s, c <> CStr s) ->
  add_wikidata_column_to_quote wiki_client r column_name speakers_attributes
    true true is_qid h
  = (<[length h := OList (VStr <$> cell_labels wiki_client is_qid c)]>
       (prepared h r d column_name true).1, Ok r).
Proof.
  intros Hquote Hne Hmin Hrow Hcell. pose proof Hquote as [Hr _].
  rewrite (add_wikidata_column_to_quote_row _ _ _ d qids speaker_qid
             column_name _ _ _ _ c); try assumption; [| left; reflexivity].
  cbv zeta. destruct c as [| s | items].
  - cbn [cell_labels fmap list_fmap].
    rewrite list_insert_id; [reflexivity |].
    apply (prepared_new_list h r d column_name Hr true).
  - exfalso. exact (Hcell s eq_refl).
  - cbn [cell_labels new_list_loc]. rewrite map_qids_to_labels_values.
    reflexivity.
Qed.

Section each_column.
Variables (wiki_client : client) (r : loc) (qids : list string)
          (speaker_qid : string) (speakers_attributes : DataFrame)
          (is_qid : bool).
Hypothesis Hmin : get_min_qid (VStr <$> qids) = Ok speaker_qid.

(** A loop of calls in place over a list of columns. *)
Lemma add_each_column (columns : list string) :
  (forall c, c ∈ columns ->
     c <> "qids" /\
     exists cl, row_value speakers_attributes speaker_qid c cl /\
                forall s, cl <> CStr s) ->
  forall (h : heap) (d : gmap string val),
    quote_at h r d qids ->
    exists (h' : heap) (d' : gmap string val),
      for_each columns (fun column_to_add =>
        add_wikidata_column_to_quote wiki_client r column_to_add
          speakers_attributes true true is_qid;;
        mret tt) h = (h', Ok tt) /\
      quote_at h' r d' qids /\
      (forall k, k ∉ columns -> d' !! k = d !! k) /\
      (forall l o, h !! l = Some o -> l <> r -> h' !! l = Some o) /\
      (forall c cl, c ∈ columns ->
         row_value speakers_attributes speaker_qid c cl ->
         column_holds h' d' c (cell_labels wiki_client is_qid cl)).
Proof.
  induction columns as [| c columns IH]; intros Hcols h d Hquote.
  - exists h, d. split; [reflexivity |]. split; [exact Hquote |].
    split; [reflexivity |]. split; [auto |]. intros c cl Hc. inversion Hc.
  - destruct (Hcols c) as (Hne & cl & Hrow & Hcl); [left |].
    pose proof Hquote as [Hr (lq & Hd & Hlq)].
    set (h1 := <[length h := OList (VStr <$> cell_labels wiki_client is_qid cl)]>
                 (prepared h r d c true).1).
    set (d1 := <[c := VRef (length h)]> d).
    assert (Hr1 : h1 !! r = Some (ODict d1)).
    { apply (final_record h r d c true Hr). }
    assert (Hnl1 : h1 !! length h
                   = Some (OList (VStr <$> cell_labels wiki_client is_qid cl))).
    { apply (final_new_list h r d c true). }
    assert (Hframe1 : forall l o, h !! l = Some o -> l <> r -> h1 !! l = Some o).
    { intros l o Hl Hlr. apply (final_frame h r d c true); [exact Hl |].
      right. exact Hlr. }
    assert (Hquote1 : quote_at h1 r d1 qids).
    { split; [exact Hr1 |]. exists lq. split.
      - subst d1. rewrite lookup_insert_ne by exact Hne. exact Hd.
      - apply Hframe1; [exact Hlq | congruence]. }
    destruct (IH (fun c' Hc' => Hcols c' (list_elem_of_further _ _ _ Hc')) h1 d1 Hquote1)
      as (h' & d' & Hrun & Hquote' & Hkeys & Hframe & Hholds).
    exists h', d'. split; [| split; [exact Hquote' | split; [| split]]].
    + cbn [for_each]. rewrite run_bind, run_bind.
      rewrite (add_in_place_run _ _ _ d qids speaker_qid c _ _ cl)
        by assumption.
      exact Hrun.
    + intros k Hk. apply not_elem_of_cons in Hk as [Hkc Hk].
      rewrite (Hkeys k Hk). subst d1. apply lookup_insert_ne. congruence.
    + intros l o Hl Hlr. apply Hframe; [| exact Hlr]. apply Hframe1; assumption.
    + intros c' cl' Hc' Hrow'.
      destruct (decide (c' ∈ columns)) as [Hin | Hnotin];
        [exact (Hholds c' cl' Hin Hrow') |].
      apply elem_of_cons in Hc' as [-> | Hc']; [| contradiction].
      assert (cl' = cl) as -> by exact (row_value_functional _ _ _ _ _ Hrow' Hrow).
      exists (length h). split.
      * rewrite (Hkeys c Hnotin). subst d1. apply lookup_insert_eq.
      * apply Hframe; [exact Hnl1 |]. apply lookup_lt_Some in Hr. lia.
Qed.
End each_column.

Lemma example_columns_not_qids (c : string) :
  c ∈ QID_COLUMNS_TO_ADD ++ NON_QID_COLUMNS_TO_ADD -> c <> "qids".
Proof.
  intros Hc ->. apply (bool_decide_eq_true_2 _) in Hc.
  vm_compute in Hc. discriminate Hc.
Qed.

(** X20.  On an instance whose minimum QID has a row in the table, with an
    array or nothing in each of the six columns, the two loops of the example
    succeed and leave the instance, updated in place, with each of the six
    columns bound to a list: the labels of the cell for the five identifier
    columns, the raw values for the date of birth.  Its other fields, and
    every other object of the store, are as they were. *)
Theorem add_columns_enriches_instance (wiki_client : client) (h : heap)
    (r : loc) (d : gmap string val) (qids : list string)
    (speaker_qid : string) (speakers_attributes : DataFrame) :
  quote_at h r d qids ->
  get_min_qid (VStr <$> qids) = Ok speaker_qid ->
  (forall c, c ∈ QID_COLUMNS_TO_ADD ++ NON_QID_COLUMNS_TO_ADD ->
     exists cl, row_value speakers_attributes speaker_qid c cl /\
                forall s, cl <> CStr s) ->
  exists (h' : heap) (d' : gmap string val),
    add_columns wiki_client r speakers_attributes h = (h', Ok tt) /\
    h' !! r = Some (ODict d') /\
    (forall k, k ∉ QID_COLUMNS_TO_ADD ++ NON_QID_COLUMNS_TO_ADD ->
               d' !! k = d !! k) /\
    (forall l o, h !! l = Some o -> l <> r -> h' !! l = Some o) /\
    (forall c cl, c ∈ QID_COLUMNS_TO_ADD ->
       row_value speakers_attributes speaker_qid c cl ->
       column_holds h' d' c (cell_labels wiki_client true cl)) /\
    (forall c cl, c ∈ NON_QID_COLUMNS_TO_ADD ->
       row_value speakers_attributes speaker_qid c cl ->
       column_holds h' d' c (cell_labels wiki_client false cl)).
Proof.
  intros Hquote Hmin Hcols.
  destruct (add_each_column wiki_client r qids speaker_qid
              speakers_attributes true Hmin QID_COLUMNS_TO_ADD) with (h := h) (d := d)
    as (h1 & d1 & Hrun1 & Hquote1 & Hkeys1 & Hframe1 & Hholds1);
    [| exact Hquote |].
  { intros c Hc. split.
    - apply example_columns_not_qids, elem_of_app. left. exact Hc.
    - apply Hcols, elem_of_app. left. exact Hc. }
  destruct (add_each_column wiki_client r qids speaker_qid
              speakers_attributes false Hmin NON_QID_COLUMNS_TO_ADD) with (h := h1) (d := d1)
    as (h' & d' & Hrun2 & Hquote' & Hkeys2 & Hframe2 & Hholds2);
    [| exact Hquote1 |].
  { intros c Hc. split.
    - apply example_columns_not_qids, elem_of_app. right. exact Hc.
    - apply Hcols, elem_of_app. right. exact Hc. }
  exists h', d'. split; [| split; [| split; [| split; [| split]]]].
  - unfold add_columns. rewrite run_bind, Hrun1. exact Hrun2.
  - exact (proj1 Hquote').
  - intros k Hk. apply not_elem_of_app in Hk as [Hk1 Hk2].
    rewrite (Hkeys2 k Hk2). exact (Hkeys1 k Hk1).
  - intros l o Hl Hlr. apply Hframe2; [| exact Hlr].
    apply Hframe1; assumption.
  - intros c cl Hc Hrow.
    destruct (Hholds1 c cl Hc Hrow) as (nl & Hdc & Hnl).
    exists nl. split.
    + rewrite Hkeys2; [exact Hdc |].
      intros Hc2. apply (bool_decide_eq_true_2 _) in Hc.
      apply list_elem_of_singleton in Hc2. subst c.
      vm_compute in Hc. discriminate Hc.
    + apply Hframe2; [exact Hnl |]. intros ->.
      destruct Hquote1 as [Hr1 _]. congruence.
  - exact Hholds2.
Qed.

Lemma example_full_row (c : string) :
  c ∈ QID_COLUMNS_TO_ADD ++ NON_QID_COLUMNS_TO_ADD ->
  exists cl, row_value example_full_table "Q5" c cl /\
             forall s, cl <> CStr s.
Proof.
  intros Hc.
  assert (Hseries : exists series cl,
            example_full_table !! c = Some series /\
            series !! 1 = Some cl /\ forall s, cl <> CStr s).
  { repeat (apply elem_of_cons in Hc as [-> | Hc];
            [eexists _, _; split; [vm_compute; reflexivity |];
             split; [reflexivity | discriminate] |]).
    inversion Hc. }
  destruct Hseries as (series & cl & Hseries & Hcl & Hnot).
  exists cl. split; [| exact Hnot].
  apply (row_value_strings _ _ _ ["Q42"; "Q5"] series 1);
    [vm_compute; reflexivity | exact Hseries | reflexivity | | exact Hcl].
  intros [| j] Hj; [discriminate | lia].
Defined.

Lemma add_columns_enriches_instance_witness :
  exists (h' : heap) (d' : gmap string val),
    add_columns example_client 1 example_full_table example_store
    = (h', Ok tt) /\
    h' !! 1 = Some (ODict d') /\
    (forall k, k ∉ QID_COLUMNS_TO_ADD ++ NON_QID_COLUMNS_TO_ADD ->
               d' !! k = example_record !! k) /\
    (forall l o, example_store !! l = Some o -> l <> 1 ->
                 h' !! l = Some o) /\
    (forall c cl, c ∈ QID_COLUMNS_TO_ADD ->
       row_value example_full_table "Q5" c cl ->
       column_holds h' d' c (cell_labels example_client true cl)) /\
    (forall c cl, c ∈ NON_QID_COLUMNS_TO_ADD ->
       row_value example_full_table "Q5" c cl ->
       column_holds h' d' c (cell_labels example_client false cl)).
Proof.
  apply (add_columns_enriches_instance example_client example_store 1
           example_record ["Q42"; "Q5"] "Q5" example_full_table).
  - exact example_quote_at.
  - vm_compute. reflexivity.
  - exact example_full_row.
Defined.

(** The call when every identifier cell of the table is unequal to the
    minimum QID. *)
Lemma add_no_row_run (wiki_client : client) (h : heap) (r : loc)
    (d : gmap string val) (qids : list string)
    (speaker_qid column_name : string) (speakers_attributes : DataFrame)
    (ids : list cell) (inplace ignore_existing is_qid : bool) :
  quote_at h r d qids ->
  ignore_existing = true \/ d !! column_name = None ->
  column_name <> "qids" ->
  get_min_qid (VStr <$> qids) = Ok speaker_qid ->
  is_Some (speakers_attributes !! column_name) ->
  speakers_attributes !! "id" = Some ids ->
  (forall i key, ids !! i = Some key -> id_unequal key speaker_qid) ->
  add_wikidata_column_to_quote wiki_client r column_name speakers_attributes
    inplace ignore_existing is_qid h
  = ((prepared h r d column_name inplace).1, Err IndexError).
Proof.
  intros [Hr (lq & Hd & Hlq)] Hguard Hne Hmin [series Hseries] Hids Hnone.
  rewrite (add_wikidata_column_to_quote_run _ _ _ _ _ _ _ _ _ Hr).
  rewrite (guards_pass _ _ _ Hguard), (has_column_Some _ _ _ Hseries).
  cbv zeta.
  rewrite (read_qids_prepared _ _ _ _ _ _ _ Hr Hd Hlq Hne).
  unfold enrich_labels.
  rewrite result_bind_ok, Hmin, result_bind_ok.
  rewrite (frame_column_eq _ "id"), Hids, result_bind_ok.
  destruct (select_none ids series speaker_qid Hnone) as (mask & -> & Hsel).
  rewrite result_bind_ok, frame_rows_column, Hseries, result_bind_ok, Hsel.
  reflexivity.
Qed.

(** X21.  A speaker who is missing from the table (every identifier cell is
    unequal to the minimum QID of the instance) stops the example at the
    first column: the loops end in the [IndexError] of the first call, and
    the instance is left with the column [nationality], empty, and none of
    the other five. *)
Theorem add_columns_stops_without_row (wiki_client : client) (h : heap)
    (r : loc) (d : gmap string val) (qids : list string)
    (speaker_qid : string) (speakers_attributes : DataFrame)
    (ids : list cell) :
  quote_at h r d qids ->
  get_min_qid (VStr <$> qids) = Ok speaker_qid ->
  is_Some (speakers_attributes !! "nationality") ->
  speakers_attributes !! "id" = Some ids ->
  (forall i key, ids !! i = Some key -> id_unequal key speaker_qid) ->
  exists h' : heap,
    add_columns wiki_client r speakers_attributes h = (h', Err IndexError) /\
    h' !! r = Some (ODict (<["nationality" := VRef (length h)]> d)) /\
    h' !! length h = Some (OList []).
Proof.
  intros Hquote Hmin Hcol Hids Hnone. pose proof Hquote as [Hr _].
  exists (prepared h r d "nationality" true).1.
  split; [| split].
  - unfold add_columns, QID_COLUMNS_TO_ADD. cbn [for_each].
    rewrite run_bind, run_bind, run_bind.
    rewrite (add_no_row_run _ _ _ d qids speaker_qid "nationality" _ ids);
      try assumption; [reflexivity | left; reflexivity | discriminate].
  - apply (prepared_record h r d "nationality" Hr true).
  - apply (prepared_new_list h r d "nationality" Hr true).
Qed.

Lemma add_columns_stops_without_row_witness :
  exists h' : heap,
    add_columns example_client 1
      (<["nationality" := [CNone]]> example_table_no_Q5) example_store
    = (h', Err IndexError) /\
    h' !! 1
    = Some (ODict (<["nationality" := VRef (length example_store)]>
                     example_record)) /\
    h' !! length example_store = Some (OList []).
Proof.
  apply (add_columns_stops_without_row example_client example_store 1
           example_record ["Q42"; "Q5"] "Q5"
           (<["nationality" := [CNone]]> example_table_no_Q5) [CStr "Q42"]).
  - exact example_quote_at.
  - vm_compute. reflexivity.
  - eexists. vm_compute. reflexivity.
  - vm_compute. reflexivity.
  - intros [| i] key Hi; [| discriminate Hi].
    injection Hi as <-. discriminate.
Defined.

(** ** The example: the loop over the samples *)

Section samples_facts.
Variable json_loads : string -> result json.
Variable py_str : heap -> val -> string.
Variable wiki_client : client.
Variable speakers_attributes : DataFrame.

Local Abbreviation sample :=
  (enrich_sample json_loads py_str wiki_client speakers_attributes).
Local Abbreviation samples :=
  (enrich_samples json_loads py_str wiki_client speakers_attributes).

Lemma enrich_samples_take (i : nat) (s_file : list string)
    (running_df : list (gmap string string)) (h : heap) :
  i <= SAMPLES_TO_PROCESS ->
  samples i s_file running_df h
  = samples i (take (S SAMPLES_TO_PROCESS - i) s_file) running_df h.
Proof.
  revert i running_df h.
  induction s_file as [| line rest IH]; intros i running_df h Hi.
  - rewrite take_nil. reflexivity.
  - replace (S SAMPLES_TO_PROCESS - i) with (S (SAMPLES_TO_PROCESS - i))
      by lia.
    cbn [take enrich_samples]. rewrite !run_bind.
    destruct (sample line h) as [h1 [row | e]]; [| reflexivity].
    destruct (i =? SAMPLES_TO_PROCESS) eqn:Hbreak; [reflexivity |].
    apply Nat.eqb_neq in Hbreak. rewrite IH by lia.
    replace (S SAMPLES_TO_PROCESS - S i) with (SAMPLES_TO_PROCESS - i)
      by lia.
    reflexivity.
Qed.

(** X22.  The loop stops after the instance of index [SAMPLES_TO_PROCESS]:
    whatever the outcome, the lines of the file after the first
    [SAMPLES_TO_PROCESS + 1] are not looked at. *)
Theorem enrich_example_reads_eleven_lines (s_file : list string) (h : heap) :
  enrich_example json_loads py_str wiki_client speakers_attributes s_file h
  = enrich_example json_loads py_str wiki_client speakers_attributes
      (take (S SAMPLES_TO_PROCESS) s_file) h.
Proof.
  unfold enrich_example.
  rewrite enrich_samples_take by (unfold SAMPLES_TO_PROCESS; lia).
  rewrite Nat.sub_0_r. reflexivity.
Qed.

Lemma enrich_samples_rows (i : nat) (s_file : list string)
    (running_df rows : list (gmap string string)) (h h' : heap) :
  i <= SAMPLES_TO_PROCESS ->
  samples i s_file running_df h = (h', Ok rows) ->
  length rows
  = length running_df + Nat.min (length s_file) (S SAMPLES_TO_PROCESS - i).
Proof.
  revert i running_df h.
  induction s_file as [| line rest IH]; intros i running_df h Hi Hrun.
  - injection Hrun as _ <-. cbn [length]. lia.
  - cbn [enrich_samples] in Hrun. rewrite run_bind in Hrun.
    destruct (sample line h) as [h1 [row | e]]; [| discriminate Hrun].
    destruct (i =? SAMPLES_TO_PROCESS) eqn:Hbreak.
    + apply Nat.eqb_eq in Hbreak. injection Hrun as _ <-.
      rewrite length_app. cbn [length]. lia.
    + apply Nat.eqb_neq in Hbreak.
      apply IH in Hrun; [| lia]. rewrite Hrun, length_app. cbn [length]. lia.
Qed.

(** X23.  When the loop ends without error the running data frame has one
    row for each line of the file, up to [SAMPLES_TO_PROCESS + 1] rows: the
    [break] comes after the row of the instance of index
    [SAMPLES_TO_PROCESS] is added, so one instance more than
    [SAMPLES_TO_PROCESS] is enriched. *)
Theorem enrich_example_row_count (s_file : list string) (h h' : heap)
    (rows : list (gmap string string)) :
  enrich_example json_loads py_str wiki_client speakers_attributes s_file h
  = (h', Ok rows) ->
  length rows = Nat.min (length s_file) (S SAMPLES_TO_PROCESS).
Proof.
  unfold enrich_example. intros Hrun.
  apply enrich_samples_rows in Hrun; [| unfold SAMPLES_TO_PROCESS; lia].
  rewrite Hrun, Nat.sub_0_r. reflexivity.
Qed.
End samples_facts.

Lemma enrich_example_row_count_witness :
  length example_rows
  = Nat.min (length example_samples) (S SAMPLES_TO_PROCESS).
Proof.
  apply (enrich_example_row_count Json.loads example_str example_client
           example_full_table example_samples [] example_run.1 example_rows).
  vm_compute. reflexivity.
Defined.
